(** * Flask CRUD API (src/app.py): request handlers over the items table

    A shallow embedding of the handlers of [src/app.py] and of the part of
    Python, Flask and SQLite they rely on.

    - The JSON body returned by [request.get_json()] is a value of [json];
      Python's truthiness, [in], subscripting, [float()] and [int()] on such
      values are written out, together with the exception each one raises.
    - The store is the [items] table: a list of rows in rowid order, the
      AUTOINCREMENT counter, and the trace of the statements issued through
      [db.execute] and [db.commit].
    - A handler body runs in a state-and-exception monad over the store; the
      [try ... except Exception] around every handler turns a raised
      exception into the 500 response.
    - The store keeps two views of the table: the one of the open
      connection, with its uncommitted changes, and the committed one, which
      is what the connection of a later request sees.
    - [CURRENT_TIMESTAMP] is an input of the handler that writes ([now]).

    What is modelled is what each handler function returns and what it does
    to the store. Routing, the parsing of the request into JSON, and the
    application-context teardown that Flask runs after a request handler
    has returned are outside the model; the teardown that ends [init_db]'s
    own [with app.app_context()] block is inside [init_db] and is modelled.
    A character of [string] is the Unicode code point of the same number (0
    to 255); code points above 255 are outside the model. [int()] and
    [float()] are those of CPython 3.11 with its default limit of 4300
    digits on integer literals. Of SQLite's limits the model has the 64-bit
    integers, the end of the AUTOINCREMENT counter and the length of a LIKE
    pattern (50000 bytes); the length of a string (10^9 bytes) is beyond
    it. *)

From Stdlib Require Import ZArith List String Ascii Bool Lia.
From Stdlib Require Import Sorted Permutation.
From Stdlib Require Import Floats.SpecFloat.
Import ListNotations.

Local Open Scope string_scope.
Local Open Scope Z_scope.

(** ** Exceptions and the two monads *)

(** The Python exceptions the handlers can meet. *)
Inductive exn : Type :=
| TypeError
| ValueError
| OverflowError
| KeyError
| AttributeError
| ZeroDivisionError
| InterfaceError
| IntegrityError
| OperationalError.

(** Pure code that may raise. *)
Definition exc (A : Type) : Type := (exn + A)%type.

Definition exc_ret {A} (a : A) : exc A := inr a.
Definition exc_raise {A} (e : exn) : exc A := inl e.
Definition exc_bind {A B} (c : exc A) (k : A -> exc B) : exc B :=
  match c with
  | inl e => inl e
  | inr a => k a
  end.

Declare Scope exc_scope.
Delimit Scope exc_scope with exc.
Notation "x <- c ;; k" := (exc_bind c (fun x => k))
  (at level 100, c at next level, right associativity) : exc_scope.

(** ** Characters and strings, as Python sees them *)

Definition code (c : ascii) : Z := Z.of_nat (nat_of_ascii c).

Definition is_digit (c : ascii) : bool := (48 <=? code c) && (code c <=? 57).
Definition digit_val (c : ascii) : Z := code c - 48.

Definition is_upper (c : ascii) : bool := (65 <=? code c) && (code c <=? 90).
Definition is_lower (c : ascii) : bool := (97 <=? code c) && (code c <=? 122).

Definition lower_ascii (c : ascii) : ascii :=
  if is_upper c then ascii_of_nat (nat_of_ascii c + 32) else c.
Definition upper_ascii (c : ascii) : ascii :=
  if is_lower c then ascii_of_nat (nat_of_ascii c - 32) else c.

(** [s.lower()] and [s.upper()]. *)
Fixpoint str_lower (s : string) : string :=
  match s with
  | EmptyString => EmptyString
  | String c r => String (lower_ascii c) (str_lower r)
  end.

Fixpoint str_upper (s : string) : string :=
  match s with
  | EmptyString => EmptyString
  | String c r => String (upper_ascii c) (str_upper r)
  end.

(** [sub in s] on two strings. *)
Fixpoint is_substring (sub s : string) : bool :=
  String.prefix sub s ||
  match s with
  | EmptyString => false
  | String _ r => is_substring sub r
  end.

(** [x in l] on a list of strings. *)
Definition str_in (x : string) (l : list string) : bool :=
  existsb (String.eqb x) l.

(** White space removed by [int()] and [float()] around a literal: the
    ASCII white space of C (tab to carriage return, and the space), and,
    since a string with a character above 127 has its Unicode white space
    turned into spaces first, NEL (133) and the no-break space (160). The
    separators 28 to 31, which [str.strip] removes, are not removed. *)
Definition is_space (c : ascii) : bool :=
  ((9 <=? code c) && (code c <=? 13)) || (code c =? 32) ||
  (code c =? 133) || (code c =? 160).

Fixpoint lstrip (s : string) : string :=
  match s with
  | EmptyString => EmptyString
  | String c r => if is_space c then lstrip r else s
  end.

Fixpoint rev_string (s acc : string) : string :=
  match s with
  | EmptyString => acc
  | String c r => rev_string r (String c acc)
  end.

Definition rstrip (s : string) : string :=
  rev_string (lstrip (rev_string s EmptyString)) EmptyString.

Definition strip (s : string) : string := rstrip (lstrip s).

(** The digits of a decimal literal: [digit (["_"] digit)*]. *)
Fixpoint digits_value (s : string) (acc : Z) (after_digit : bool) : option Z :=
  match s with
  | EmptyString => if after_digit then Some acc else None
  | String c r =>
      if is_digit c then digits_value r (10 * acc + digit_val c) true
      else if Ascii.eqb c "_" then
        if after_digit then digits_value r acc false else None
      else None
  end.

(** [sys.int_max_str_digits]: a literal with more digits (underscores
    not counted, leading zeros counted) is refused with ValueError. *)
Definition int_max_str_digits : Z := 4300.

Fixpoint count_digits (s : string) : Z :=
  match s with
  | EmptyString => 0
  | String c r => (if is_digit c then 1 else 0) + count_digits r
  end.

(** The literal after white space and sign. *)
Definition int_literal (t : string) : option Z :=
  if int_max_str_digits <? count_digits t then None
  else digits_value t 0 false.

(** [int(s)] on a string: [Some z], or [None] for ValueError. *)
Definition py_int_str (s : string) : option Z :=
  match strip s with
  | String "+" r => int_literal r
  | String "-" r => option_map Z.opp (int_literal r)
  | t => int_literal t
  end.

(** The states of the scanner for the decimal literals of [float(s)]. *)
Inductive float_state : Type :=
| FStart          (* after the sign *)
| FInt            (* in the integer digits, last character a digit *)
| FIntUnderscore
| FPoint          (* after the point, integer digits seen *)
| FLeadingPoint   (* after the point, no integer digit seen *)
| FFrac
| FFracUnderscore
| FExp            (* after e or E *)
| FExpSign
| FExpDigits
| FExpUnderscore.

Definition is_e (c : ascii) : bool := Ascii.eqb c "e" || Ascii.eqb c "E".
Definition is_sign (c : ascii) : bool := Ascii.eqb c "+" || Ascii.eqb c "-".

Definition float_step (st : float_state) (c : ascii) : option float_state :=
  match st with
  | FStart =>
      if is_digit c then Some FInt
      else if Ascii.eqb c "." then Some FLeadingPoint else None
  | FInt =>
      if is_digit c then Some FInt
      else if Ascii.eqb c "_" then Some FIntUnderscore
      else if Ascii.eqb c "." then Some FPoint
      else if is_e c then Some FExp else None
  | FIntUnderscore => if is_digit c then Some FInt else None
  | FPoint =>
      if is_digit c then Some FFrac
      else if is_e c then Some FExp else None
  | FLeadingPoint => if is_digit c then Some FFrac else None
  | FFrac =>
      if is_digit c then Some FFrac
      else if Ascii.eqb c "_" then Some FFracUnderscore
      else if is_e c then Some FExp else None
  | FFracUnderscore => if is_digit c then Some FFrac else None
  | FExp =>
      if is_digit c then Some FExpDigits
      else if is_sign c then Some FExpSign else None
  | FExpSign => if is_digit c then Some FExpDigits else None
  | FExpDigits =>
      if is_digit c then Some FExpDigits
      else if Ascii.eqb c "_" then Some FExpUnderscore else None
  | FExpUnderscore => if is_digit c then Some FExpDigits else None
  end.

Definition float_accept (st : float_state) : bool :=
  match st with
  | FInt | FPoint | FFrac | FExpDigits => true
  | _ => false
  end.

Fixpoint float_scan (st : float_state) (s : string) : bool :=
  match s with
  | EmptyString => float_accept st
  | String c r =>
      match float_step st c with
      | Some st' => float_scan st' r
      | None => false
      end
  end.

(** The part of a float literal after the sign: a decimal literal, or one
    of the special values in any letter case. *)
Definition float_unsigned_ok (s : string) : bool :=
  str_in (str_lower s) ["inf"; "infinity"; "nan"] || float_scan FStart s.

(** Whether [float(s)] returns on a string ([false]: ValueError). *)
Definition py_float_str_ok (s : string) : bool :=
  match strip s with
  | String c r => if is_sign c then float_unsigned_ok r
                  else float_unsigned_ok (String c r)
  | EmptyString => false
  end.

(** ** JSON values *)

#[local] Set Warnings "-register-all".

Inductive json : Type :=
| JNull
| JBool (b : bool)
| JInt (z : Z)
| JFloat (f : spec_float)
| JStr (s : string)
| JArr (l : list json)
| JObj (kv : list (string * json)).

(** [bool(v)]. *)
Definition py_truthy (v : json) : bool :=
  match v with
  | JNull => false
  | JBool b => b
  | JInt z => negb (z =? 0)
  | JFloat (S754_zero _) => false
  | JFloat _ => true
  | JStr s => negb (String.eqb s EmptyString)
  | JArr l => match l with [] => false | _ => true end
  | JObj kv => match kv with [] => false | _ => true end
  end.

(** A dict lookup. A parsed JSON object has one binding per key; the
    lookup reads the first. *)
Fixpoint dict_get (kv : list (string * json)) (k : string) : option json :=
  match kv with
  | [] => None
  | (k', v) :: r => if String.eqb k k' then Some v else dict_get r k
  end.

Definition dict_has (kv : list (string * json)) (k : string) : bool :=
  match dict_get kv k with Some _ => true | None => false end.

Definition json_is_str (k : string) (v : json) : bool :=
  match v with JStr s => String.eqb k s | _ => false end.

(** [k in data]: key membership on a dict, element membership on a list,
    substring on a string; a TypeError on anything else. *)
Definition py_contains (k : string) (data : json) : exc bool :=
  match data with
  | JObj kv => inr (dict_has kv k)
  | JArr l => inr (existsb (json_is_str k) l)
  | JStr s => inr (is_substring k s)
  | _ => inl TypeError
  end.

(** [data[k]] with a string [k]: only a dict can answer. *)
Definition py_getitem (data : json) (k : string) : exc json :=
  match data with
  | JObj kv => match dict_get kv k with
               | Some v => inr v
               | None => inl KeyError
               end
  | _ => inl TypeError
  end.

(** [data.get(k, default)]. *)
Definition py_get (data : json) (k : string) (default : json) : exc json :=
  match data with
  | JObj kv => match dict_get kv k with
               | Some v => inr v
               | None => inr default
               end
  | _ => inl AttributeError
  end.

(** Binary64 parameters. *)
Definition prec : Z := 53.
Definition emax : Z := 1024.

(** [float(v)]: the handlers discard the value, so only the outcome is
    kept. An integer beyond the largest double raises OverflowError. *)
Definition py_float (v : json) : exc unit :=
  match v with
  | JNull => inl TypeError
  | JBool _ => inr tt
  | JInt z => if Z.abs z <? 2 ^ 1024 - 2 ^ 970 then inr tt else inl OverflowError
  | JFloat _ => inr tt
  | JStr s => if py_float_str_ok s then inr tt else inl ValueError
  | JArr _ | JObj _ => inl TypeError
  end.

(** [int(v)]: truncation toward zero on a float. *)
Definition py_int (v : json) : exc Z :=
  match v with
  | JNull => inl TypeError
  | JBool b => inr (if b then 1 else 0)
  | JInt z => inr z
  | JFloat f =>
      match f with
      | S754_nan => inl ValueError
      | S754_infinity _ => inl OverflowError
      | S754_zero _ => inr 0
      | S754_finite s m e =>
          let a := if 0 <=? e then Z.pos m * 2 ^ e else Z.pos m / 2 ^ (- e) in
          inr (if s then - a else a)
      end
  | JStr s => match py_int_str s with
              | Some z => inr z
              | None => inl ValueError
              end
  | JArr _ | JObj _ => inl TypeError
  end.

(** ** validate_item_data *)

Definition required_msg (field : string) : string :=
  "'" ++ field ++ "' is required".
Definition price_msg : string := "'price' must be a valid number".
Definition quantity_msg : string := "'quantity' must be a valid integer".

(** [field not in data or not data[field]]. *)
Definition field_missing (data : json) (field : string) : exc bool :=
  (present <- py_contains field data ;;
   if negb present then exc_ret true
   else (v <- py_getitem data field ;; exc_ret (negb (py_truthy v))))%exc.

(** The loop over [required_fields]. *)
Fixpoint check_required (data : json) (fields : list string)
    (errors : list string) : exc (list string) :=
  match fields with
  | [] => exc_ret errors
  | field :: rest =>
      (missing <- field_missing data field ;;
       check_required data rest
         (if missing then (errors ++ [required_msg field])%list else errors))%exc
  end.

(** [k in data and data[k] is not None], giving the value to convert. *)
Definition present_not_none (data : json) (k : string) : exc (option json) :=
  (present <- py_contains k data ;;
   if present then
     (v <- py_getitem data k ;;
      exc_ret (match v with JNull => None | _ => Some v end))
   else exc_ret None)%exc.

(** [try: conv(v) except (ValueError, TypeError): errors.append(msg)]. *)
Definition try_convert {A} (conv : json -> exc A) (v : json) (msg : string)
    (errors : list string) : exc (list string) :=
  match conv v with
  | inr _ => exc_ret errors
  | inl ValueError | inl TypeError => exc_ret (errors ++ [msg])%list
  | inl e => exc_raise e
  end.

Definition validate_item_data (data : json)
    (required_fields : option (list string)) : exc (list string) :=
  let required_fields :=
    match required_fields with
    | None => ["name"]
    | Some l => l
    end in
  (errors <- check_required data required_fields [] ;;
   p <- present_not_none data "price" ;;
   errors <- match p with
             | Some v => try_convert py_float v price_msg errors
             | None => exc_ret errors
             end ;;
   q <- present_not_none data "quantity" ;;
   errors <- match q with
             | Some v => try_convert py_int v quantity_msg errors
             | None => exc_ret errors
             end ;;
   exc_ret errors)%exc.

(** ** SQLite values *)

Inductive sqlval : Type :=
| SNull
| SInt (z : Z)
| SReal (f : spec_float)
| SText (s : string).

(** What a text that looks like a number converts to. *)
Inductive numeric : Type :=
| NInt (z : Z)
| NReal (f : spec_float).

Definition int64_ok (z : Z) : bool := (- 2 ^ 63 <=? z) && (z <? 2 ^ 63).

(** Binding a Python value to a [?]: sqlite3 refuses lists and dicts and
    integers beyond 64 bits; SQLite stores NaN as NULL. *)
Definition bind_param (v : json) : exc sqlval :=
  match v with
  | JNull => inr SNull
  | JBool b => inr (SInt (if b then 1 else 0))
  | JInt z => if int64_ok z then inr (SInt z) else inl OverflowError
  | JFloat S754_nan => inr SNull
  | JFloat f => inr (SReal f)
  | JStr s => inr (SText s)
  | JArr _ | JObj _ => inl InterfaceError
  end.

(** The double nearest to an integer. *)
Definition b64_of_Z (z : Z) : spec_float := binary_normalize prec emax z 0 false.

(** The integer a double is equal to, when it is one. *)
Definition real_integral (f : spec_float) : option Z :=
  match f with
  | S754_zero _ => Some 0
  | S754_finite s m e =>
      if 0 <=? e then Some ((if s then -1 else 1) * (Z.pos m * 2 ^ e))
      else if Z.pos m mod 2 ^ (- e) =? 0
           then Some ((if s then -1 else 1) * (Z.pos m / 2 ^ (- e)))
           else None
  | _ => None
  end.

(** INTEGER affinity on a REAL: an integer when nothing is lost. *)
Definition real_to_integer (f : spec_float) : sqlval :=
  match real_integral f with
  | Some z => if (- 2 ^ 63 <? z) && (z <? 2 ^ 63 - 1) then SInt z else SReal f
  | None => SReal f
  end.

(** A REAL column keeps a double that is an integer as that integer and
    gives it back as a double: the value is the same, but the sign of a
    zero is lost. *)
Definition real_column (f : spec_float) : spec_float :=
  match f with
  | S754_zero _ => S754_zero false
  | _ => f
  end.

Inductive affinity : Type := AffText | AffInteger | AffReal | AffNumeric.

(** The columns of [items], as CREATE TABLE declares them. *)
Inductive column : Type :=
| Cid | Cname | Cdescription | Ccategory | Cprice | Cquantity
| Ccreated_at | Cupdated_at.

Definition column_affinity (c : column) : affinity :=
  match c with
  | Cid | Cquantity => AffInteger
  | Cname | Cdescription | Ccategory => AffText
  | Cprice => AffReal
  | Ccreated_at | Cupdated_at => AffNumeric
  end.

Definition column_of_string (s : string) : option column :=
  if String.eqb s "id" then Some Cid
  else if String.eqb s "name" then Some Cname
  else if String.eqb s "description" then Some Cdescription
  else if String.eqb s "category" then Some Ccategory
  else if String.eqb s "price" then Some Cprice
  else if String.eqb s "quantity" then Some Cquantity
  else if String.eqb s "created_at" then Some Ccreated_at
  else if String.eqb s "updated_at" then Some Cupdated_at
  else None.

Record row : Type := mkRow {
  id : Z;
  name : sqlval;
  description : sqlval;
  category : sqlval;
  price : sqlval;
  quantity : sqlval;
  created_at : sqlval;
  updated_at : sqlval
}.

Definition column_value (c : column) (r : row) : sqlval :=
  match c with
  | Cid => SInt (id r)
  | Cname => name r
  | Cdescription => description r
  | Ccategory => category r
  | Cprice => price r
  | Cquantity => quantity r
  | Ccreated_at => created_at r
  | Cupdated_at => updated_at r
  end.

(** [SET c = v] on one row ([id] is never assigned by the handlers). *)
Definition set_column (c : column) (v : sqlval) (r : row) : row :=
  match c with
  | Cid => r
  | Cname => mkRow (id r) v (description r) (category r) (price r) (quantity r) (created_at r) (updated_at r)
  | Cdescription => mkRow (id r) (name r) v (category r) (price r) (quantity r) (created_at r) (updated_at r)
  | Ccategory => mkRow (id r) (name r) (description r) v (price r) (quantity r) (created_at r) (updated_at r)
  | Cprice => mkRow (id r) (name r) (description r) (category r) v (quantity r) (created_at r) (updated_at r)
  | Cquantity => mkRow (id r) (name r) (description r) (category r) (price r) v (created_at r) (updated_at r)
  | Ccreated_at => mkRow (id r) (name r) (description r) (category r) (price r) (quantity r) v (updated_at r)
  | Cupdated_at => mkRow (id r) (name r) (description r) (category r) (price r) (quantity r) (created_at r) v
  end.

(** *** The order of ORDER BY

    NULL sorts first, then numbers by value, then text byte by byte. A
    finite double is [m * 2^e]; integers and doubles compare exactly. *)
Inductive xreal : Type :=
| XNegInf
| XFin (m e : Z)
| XPosInf.

Definition xreal_of_float (f : spec_float) : xreal :=
  match f with
  | S754_zero _ | S754_nan => XFin 0 0
  | S754_infinity s => if s then XNegInf else XPosInf
  | S754_finite s m e => XFin (if s then Z.neg m else Z.pos m) e
  end.

Definition xreal_compare (a b : xreal) : comparison :=
  match a, b with
  | XNegInf, XNegInf => Eq
  | XNegInf, _ => Lt
  | _, XNegInf => Gt
  | XPosInf, XPosInf => Eq
  | XPosInf, _ => Gt
  | _, XPosInf => Lt
  | XFin m1 e1, XFin m2 e2 =>
      let e := Z.min e1 e2 in
      (m1 * 2 ^ (e1 - e) ?= m2 * 2 ^ (e2 - e))
  end.

(** Storage class rank; a NaN cannot be stored and ranks with NULL. *)
Definition sql_class (v : sqlval) : Z :=
  match v with
  | SNull | SReal S754_nan => 0
  | SInt _ | SReal _ => 1
  | SText _ => 2
  end.

Definition sql_number (v : sqlval) : xreal :=
  match v with
  | SInt z => XFin z 0
  | SReal f => xreal_of_float f
  | _ => XFin 0 0
  end.

Definition sql_compare (v w : sqlval) : comparison :=
  match sql_class v ?= sql_class w with
  | Eq =>
      match v, w with
      | SText s, SText t => String.compare s t
      | _, _ => if sql_class v =? 1 then xreal_compare (sql_number v) (sql_number w)
                else Eq
      end
  | c => c
  end.

Definition sql_leb (v w : sqlval) : bool :=
  match sql_compare v w with Gt => false | _ => true end.

(** *** LIKE

    [%] matches any run of characters, [_] exactly one; letters match
    without regard to ASCII case. There is no escape character. *)
Fixpoint like (p : string) : string -> bool :=
  match p with
  | EmptyString => fun t => match t with EmptyString => true | _ => false end
  | String c p' =>
      if Ascii.eqb c "%" then
        fix skip (t : string) : bool :=
          like p' t || match t with
                       | EmptyString => false
                       | String _ t' => skip t'
                       end
      else if Ascii.eqb c "_" then
        fun t => match t with
                 | EmptyString => false
                 | String _ t' => like p' t'
                 end
      else
        fun t => match t with
                 | EmptyString => false
                 | String d t' =>
                     Ascii.eqb (lower_ascii c) (lower_ascii d) && like p' t'
                 end
  end.

(** A text as the LIKE function reads it: a C string, which ends at its
    first NUL character. *)
Fixpoint c_string (s : string) : string :=
  match s with
  | EmptyString => EmptyString
  | String c r => if code c =? 0 then EmptyString else String c (c_string r)
  end.

(** The length of a text in bytes of UTF-8. *)
Fixpoint utf8_bytes (s : string) : Z :=
  match s with
  | EmptyString => 0
  | String c r => (if code c <? 128 then 1 else 2) + utf8_bytes r
  end.

(** SQLITE_MAX_LIKE_PATTERN_LENGTH: the LIKE function refuses a longer
    pattern (LIKE or GLOB pattern too complex). *)
Definition like_pattern_limit : Z := 50000.

(** ** The store *)

(** The statements the handlers issue through [db.execute] and
    [db.commit]. *)
Inductive stmt : Type :=
| SelectCount
| SelectPage
| SelectById (item_id : Z)
| Insert
| Update (item_id : Z)
| Delete (item_id : Z)
| Commit.

(** The [items] table in rowid order and the AUTOINCREMENT counter of
    [sqlite_sequence], as the open connection sees them; the statements
    issued so far; and the table and the counter as of the last commit,
    which is what the database file holds. *)
Record database : Type := mkDb {
  items : list row;
  seq : Z;
  trace : list stmt;
  saved_items : list row;
  saved_seq : Z
}.

(** Handler code: it reads and writes the store and may raise. *)
Definition M (A : Type) : Type := database -> exc A * database.

Definition ret {A} (a : A) : M A := fun db => (inr a, db).
Definition raise {A} (e : exn) : M A := fun db => (inl e, db).
Definition bind {A B} (c : M A) (k : A -> M B) : M B :=
  fun db =>
    match c db with
    | (inl e, db') => (inl e, db')
    | (inr a, db') => k a db'
    end.
Definition lift {A} (c : exc A) : M A := fun db => (c, db).

Declare Scope db_scope.
Delimit Scope db_scope with db.
Notation "x <- c ;; k" := (bind c (fun x => k))
  (at level 100, c at next level, right associativity) : db_scope.
Notation "c ;;; k" := (bind c (fun _ => k))
  (at level 100, right associativity) : db_scope.

(** The store after further statements that change no row. *)
Definition issued (db : database) (l : list stmt) : database :=
  mkDb (items db) (seq db) (trace db ++ l)%list (saved_items db) (saved_seq db).

(** The store with the rows and the counter a write leaves; nothing is
    committed by it. *)
Definition written (db : database) (rows : list row) (s : Z) : database :=
  mkDb rows s (trace db) (saved_items db) (saved_seq db).

(** The store once everything the connection has written is committed. *)
Definition committed (db : database) : database :=
  mkDb (items db) (seq db) (trace db) (items db) (seq db).

(** The store as a new connection finds it: what the connection before
    it left uncommitted is gone. Every request opens its own connection
    ([get_db] keeps it in [g], which lasts one application context). *)
Definition reconnect (db : database) : database :=
  mkDb (saved_items db) (saved_seq db) (trace db) (saved_items db) (saved_seq db).

(** Nothing is left uncommitted. *)
Definition clean (db : database) : Prop :=
  saved_items db = items db /\ saved_seq db = seq db.

(** A statement reaches the store. *)
Definition issue (s : stmt) : M unit :=
  fun db => (inr tt, issued db [s]).

Definition get_rows : M (list row) := fun db => (inr (items db), db).

(** Binding every parameter of a statement, in order. *)
Fixpoint bind_params (vs : list json) : exc (list sqlval) :=
  match vs with
  | [] => exc_ret []
  | v :: r => (x <- bind_param v ;; xs <- bind_params r ;; exc_ret (x :: xs))%exc
  end.

(** A stable insertion sort: the order of ORDER BY on a list of rows. *)
Fixpoint insert_sorted {A} (leb : A -> A -> bool) (x : A) (l : list A) : list A :=
  match l with
  | [] => [x]
  | y :: r => if leb x y then x :: l else y :: insert_sorted leb x r
  end.

Definition sort_by_leb {A} (leb : A -> A -> bool) (l : list A) : list A :=
  fold_right (insert_sorted leb) [] l.

(** The relation a boolean order decides. *)
Definition leb_rel {A} (leb : A -> A -> bool) (x y : A) : Prop := leb x y = true.

(** [LIMIT limit OFFSET offset]: a negative limit is no limit, a negative
    offset is zero. *)
Definition limit_offset {A} (l : list A) (limit offset : Z) : list A :=
  let rest := skipn (Z.to_nat offset) l in
  if limit <? 0 then rest else firstn (Z.to_nat limit) rest.

Definition max_rowid (l : list row) : Z :=
  fold_right (fun r m => Z.max (id r) m) 0 l.

(** The id AUTOINCREMENT gives the next row: one more than every id the
    table has and has ever had. *)
Definition next_id (db : database) : Z :=
  Z.max (seq db) (max_rowid (items db)) + 1.

(** The WHERE and ORDER BY of the list query, as [get_items] builds it. *)
Record query : Type := mkQuery {
  q_category : option string;          (* AND category = ? *)
  q_search : option string;            (* AND (name LIKE ? OR description LIKE ?) *)
  q_order : option (column * bool)     (* ORDER BY column, [true] for DESC *)
}.

(** ** Responses *)

Record pagination : Type := mkPagination {
  page : Z;
  per_page : Z;
  total_items : Z;
  total_pages : Z;
  has_next : bool;
  has_prev : bool
}.

Record filters : Type := mkFilters {
  f_category : option string;
  f_search : option string;
  f_sort_by : string;
  f_sort_order : string
}.

(** The JSON documents the handlers build with [jsonify]. *)
Inductive body : Type :=
| Error (error : string)
| ErrorDetails (error : string) (details : list string)
| ItemBody (item : row)
| MessageItem (message : string) (item : row)
| Message (message : string)
| ItemsPage (page_items : list row) (pg : pagination) (fl : filters).

(** A body and its status code. *)
Definition response : Type := (body * Z)%type.

(** [try: ... except Exception: return 500]. *)
Definition catch_all (c : M response) : database -> response * database :=
  fun db =>
    match c db with
    | (inr r, db') => (r, db')
    | (inl _, db') => ((Error "Internal server error", 500), db')
    end.

(** The query string of GET /items. *)
Record args : Type := mkArgs {
  arg_page : option string;
  arg_per_page : option string;
  arg_category : option string;
  arg_search : option string;
  arg_sort_by : option string;
  arg_sort_order : option string
}.

(** [request.args.get(key, default, type=int)]: the default when the key
    is absent or [int] raises ValueError. *)
Definition args_get_int (v : option string) (default : Z) : Z :=
  match v with
  | None => default
  | Some s => match py_int_str s with
              | Some z => z
              | None => default
              end
  end.

(** [request.args.get(key, default)]. *)
Definition args_get (v : option string) (default : string) : string :=
  match v with
  | None => default
  | Some s => s
  end.

(** [if s:] on an optional string. *)
Definition str_truthy (v : option string) : option string :=
  match v with
  | Some s => if String.eqb s EmptyString then None else Some s
  | None => None
  end.

Definition valid_sort_fields : list string :=
  ["id"; "name"; "category"; "price"; "quantity"; "created_at"].

(** [min(request.args.get('per_page', 10, type=int), 100)]. *)
Definition effective_per_page (a : args) : Z :=
  Z.min (args_get_int (arg_per_page a) 10) 100.

(** Whether [get_items] adds an ORDER BY. *)
Definition sort_valid (sort_by sort_order : string) : bool :=
  str_in sort_by valid_sort_fields && str_in (str_lower sort_order) ["asc"; "desc"].

(** The query [get_items] builds from its parameters: each filter only
    when its parameter is a non-empty string, the order only when both
    sort parameters are valid. *)
Definition build_query (category search : option string)
    (sort_by sort_order : string) : query :=
  mkQuery
    (str_truthy category)
    (option_map (fun s => "%" ++ s ++ "%") (str_truthy search))
    (if sort_valid sort_by sort_order
     then match column_of_string sort_by with
          | Some c => Some (c, String.eqb (str_upper sort_order) "DESC")
          | None => None
          end
     else None).

(** [a // b]. *)
Definition floordiv (a b : Z) : exc Z :=
  if b =? 0 then inl ZeroDivisionError else inr (a / b).

(** The seed rows of [init_db]. *)
Definition sample_items : list (json * json * json * json * json) :=
  [ (JStr "Laptop", JStr "High-performance laptop for development",
     JStr "Electronics", JFloat (S754_finite false 8796005061277778 (-43)), JInt 5);
    (JStr "Coffee Mug", JStr "Ceramic mug for hot beverages",
     JStr "Kitchen", JFloat (S754_finite false 7312719894942843 (-49)), JInt 20);
    (JStr "Python Book", JStr "Learn Python programming",
     JStr "Books", JFloat (S754_finite false 5628092159329567 (-47)), JInt 15);
    (JStr "Wireless Mouse", JStr "Ergonomic wireless mouse",
     JStr "Electronics", JFloat (S754_finite false 8441434551552573 (-48)), JInt 30);
    (JStr "Notebook", JStr "Spiral-bound notebook",
     JStr "Office", JFloat (S754_finite false 5618240535144694 (-50)), JInt 50) ].

(** A literal of [n] nines, and a string behind the separator 28 (FS),
    behind the no-break space 160, or behind a vertical tab. *)
Definition nines (n : Z) : string :=
  string_of_list_ascii (repeat (ascii_of_nat 57) (Z.to_nat n)).
Definition after_fs (s : string) : string := String (ascii_of_nat 28) s.
Definition after_nbsp (s : string) : string := String (ascii_of_nat 160) s.
Definition after_vt (s : string) : string := String (ascii_of_nat 11) s.

(** The doubles 9.99 and 5.0. *)
Definition f9_99 : spec_float := S754_finite false 5623870034678907 (-49).
Definition f5_0 : spec_float := S754_finite false 5629499534213120 (-50).

(** A conversion pair that treats no text as a number. *)
Definition no_text_numeric : string -> option numeric := fun _ => None.
Definition plain_numeric_text : numeric -> string := fun _ => EmptyString.

Definition empty_db : database := mkDb [] 0 [] [] 0.

(** The store [init_db] leaves behind on an empty table, the two
    timestamps of every row being [ts]. *)
Definition seed_rows (ts : sqlval) : list row :=
  [ mkRow 1 (SText "Laptop") (SText "High-performance laptop for development")
      (SText "Electronics") (SReal (S754_finite false 8796005061277778 (-43)))
      (SInt 5) ts ts;
    mkRow 2 (SText "Coffee Mug") (SText "Ceramic mug for hot beverages")
      (SText "Kitchen") (SReal (S754_finite false 7312719894942843 (-49)))
      (SInt 20) ts ts;
    mkRow 3 (SText "Python Book") (SText "Learn Python programming")
      (SText "Books") (SReal (S754_finite false 5628092159329567 (-47)))
      (SInt 15) ts ts;
    mkRow 4 (SText "Wireless Mouse") (SText "Ergonomic wireless mouse")
      (SText "Electronics") (SReal (S754_finite false 8441434551552573 (-48)))
      (SInt 30) ts ts;
    mkRow 5 (SText "Notebook") (SText "Spiral-bound notebook")
      (SText "Office") (SReal (S754_finite false 5618240535144694 (-50)))
      (SInt 50) ts ts ].

Definition seeded_db (ts : sqlval) : database :=
  mkDb (seed_rows ts) 5
    [SelectCount; Insert; Insert; Insert; Insert; Insert; Commit]
    (seed_rows ts) 5.

(** A store seeded on new year's day. *)
Definition shop : database := seeded_db (SText "2024-01-01 00:00:00").

(** A store of 25 rows, with the ids 1 to 25. *)
Definition numbered_row (i : nat) : row :=
  mkRow (Z.of_nat i) (SText "Item") SNull SNull SNull (SInt 0)
    (SText "2024-01-01 00:00:00") (SText "2024-01-01 00:00:00").

Definition warehouse : database :=
  mkDb (map numbered_row (List.seq 1 25)) 25 []
    (map numbered_row (List.seq 1 25)) 25.

(** ** Notions the statements below are phrased with *)

(** The least integer not below [a / b], for a positive [b]. *)
Definition ceil_div (a b : Z) : Z := - ((- a) / b).

(** The pattern [%search%] of a list request is within the limit of
    LIKE. *)
Definition search_fits (a : args) : Prop :=
  forall s, arg_search a = Some s -> utf8_bytes s + 2 <= like_pattern_limit.

(** The list request raises nothing: the page size is not zero, LIMIT
    and OFFSET fit 64 bits, and the LIKE pattern is within its limit. *)
Definition pageable (a : args) : Prop :=
  effective_per_page a <> 0 /\
  int64_ok (effective_per_page a) = true /\
  int64_ok ((args_get_int (arg_page a) 1 - 1) * effective_per_page a) = true /\
  search_fits a.

(** [sub] occurs in [s], letters compared without regard to ASCII case. *)
Definition contains_ci (sub s : string) : bool :=
  is_substring (str_lower sub) (str_lower s).

(** A string with none of the two LIKE wildcards. *)
Fixpoint no_wildcard (s : string) : bool :=
  match s with
  | EmptyString => true
  | String c r => negb (Ascii.eqb c "%") && negb (Ascii.eqb c "_") && no_wildcard r
  end.

(** A string without a NUL character. *)
Fixpoint no_nul (s : string) : bool :=
  match s with
  | EmptyString => true
  | String c r => negb (code c =? 0) && no_nul r
  end.


(** A dict has no [k], or a falsy value under it. *)
Definition missing_or_falsy (kv : list (string * json)) (k : string) : bool :=
  match dict_get kv k with
  | None => true
  | Some v => negb (py_truthy v)
  end.

(** A dict has a value other than None under [k] on which [conv] raises
    ValueError or TypeError. *)
Definition conversion_rejected {A} (conv : json -> exc A)
    (kv : list (string * json)) (k : string) : bool :=
  match dict_get kv k with
  | None | Some JNull => false
  | Some v => match conv v with
              | inl ValueError | inl TypeError => true
              | _ => false
              end
  end.

(** The next AUTOINCREMENT id still fits SQLite's 64-bit keys. *)
Definition db_ok (db : database) : Prop := next_id db < 2 ^ 63.

(** ** The statements and the handlers

    SQLite's conversion between text and numbers is left open: which texts
    look like a number and what they convert to ([text_numeric]), and how a
    number is written as text ([numeric_text]). *)
Section Service.

Variable text_numeric : string -> option numeric.
Variable numeric_text : numeric -> string.

(** Column affinity applied to a value on its way into a column. *)
Definition apply_affinity (a : affinity) (v : sqlval) : sqlval :=
  match a, v with
  | AffText, SInt z => SText (numeric_text (NInt z))
  | AffText, SReal f => SText (numeric_text (NReal f))
  | AffReal, SInt z => SReal (real_column (b64_of_Z z))
  | AffReal, SReal f => SReal (real_column f)
  | AffReal, SText s =>
      match text_numeric s with
      | Some (NInt z) => SReal (real_column (b64_of_Z z))
      | Some (NReal f) => SReal (real_column f)
      | None => v
      end
  | (AffInteger | AffNumeric), SReal f => real_to_integer f
  | (AffInteger | AffNumeric), SText s =>
      match text_numeric s with
      | Some (NInt z) => SInt z
      | Some (NReal f) => real_to_integer f
      | None => v
      end
  | _, _ => v
  end.

(** [CURRENT_TIMESTAMP] stored in a TIMESTAMP column. *)
Definition current_timestamp (now : string) : sqlval :=
  apply_affinity AffNumeric (SText now).

(** A value read as text, as LIKE reads its operand. *)
Definition text_of (v : sqlval) : option string :=
  match v with
  | SNull => None
  | SInt z => Some (numeric_text (NInt z))
  | SReal f => Some (numeric_text (NReal f))
  | SText s => Some s
  end.

(** [column = ?] against a text parameter: only a stored text is equal to
    a text. *)
Definition sql_eq_text (v : sqlval) (s : string) : bool :=
  match v with
  | SText t => String.eqb t s
  | _ => false
  end.

(** The text LIKE reads off a value: up to its first NUL character. *)
Definition like_text (v : sqlval) : option string :=
  option_map c_string (text_of v).

(** [v LIKE pattern]: both operands are read as C strings; NULL matches
    nothing. *)
Definition sql_like (v : sqlval) (pattern : string) : bool :=
  match like_text v with
  | Some t => like (c_string pattern) t
  | None => false
  end.

(** The WHERE clause on one row. *)
Definition matches (q : query) (r : row) : bool :=
  match q_category q with
  | Some c => sql_eq_text (category r) c
  | None => true
  end &&
  match q_search q with
  | Some p => sql_like (name r) p || sql_like (description r) p
  | None => true
  end.

(** The filters of a list request, read off its parameters: a category
    other than the empty string must be the stored category, a search
    string other than the empty one must match the name or the
    description inside the pattern [%search%]. *)
Definition passes_filters (a : args) (r : row) : bool :=
  match arg_category a with
  | Some c => String.eqb c EmptyString || sql_eq_text (category r) c
  | None => true
  end &&
  match arg_search a with
  | Some s => String.eqb s EmptyString ||
              (sql_like (name r) ("%" ++ s ++ "%") ||
               sql_like (description r) ("%" ++ s ++ "%"))
  | None => true
  end.

(** The category test of the WHERE clause. It comes before the LIKE
    tests, which are not evaluated for a row that fails it. *)
Definition category_passes (q : query) (r : row) : bool :=
  match q_category q with
  | Some c => sql_eq_text (category r) c
  | None => true
  end.

(** The statement fails on these rows: LIKE is evaluated for some row,
    and its pattern is longer than the limit. *)
Definition like_refused (q : query) (rows : list row) : bool :=
  match q_search q with
  | Some p => (like_pattern_limit <? utf8_bytes p) &&
              existsb (category_passes q) rows
  | None => false
  end.

(** The rows the WHERE clause lets through, or the error of LIKE. *)
Definition where_rows (q : query) (rows : list row) : exc (list row) :=
  if like_refused q rows then inl OperationalError
  else inr (filter (matches q) rows).

Definition order_leb (o : column * bool) (r1 r2 : row) : bool :=
  let (c, desc) := o in
  if desc then sql_leb (column_value c r2) (column_value c r1)
  else sql_leb (column_value c r1) (column_value c r2).

Definition order_rows (q : query) (l : list row) : list row :=
  match q_order q with
  | Some o => sort_by_leb (order_leb o) l
  | None => l
  end.

(** [SELECT COUNT( * ) FROM items WHERE ...]. *)
Definition select_count (q : query) : M Z :=
  (issue SelectCount ;;;
   rows <- get_rows ;;
   passing <- lift (where_rows q rows) ;;
   ret (Z.of_nat (List.length passing)))%db.

(** [SELECT * FROM items WHERE ... ORDER BY ... LIMIT ? OFFSET ?]. *)
Definition select_page (q : query) (limit offset : Z) : M (list row) :=
  (lift (bind_params [JInt limit; JInt offset]) ;;;
   issue SelectPage ;;;
   rows <- get_rows ;;
   passing <- lift (where_rows q rows) ;;
   ret (limit_offset (order_rows q passing) limit offset))%db.

(** [SELECT * FROM items WHERE id = ?] and [fetchone()]. *)
Definition select_by_id (item_id : Z) : M (option row) :=
  (lift (bind_param (JInt item_id)) ;;;
   issue (SelectById item_id) ;;;
   rows <- get_rows ;;
   ret (find (fun r => id r =? item_id) rows))%db.

Definition is_null (v : sqlval) : bool :=
  match v with SNull => true | _ => false end.

(** The row an INSERT stores: each value under the affinity of its
    column, the two timestamps at their default, the id from
    AUTOINCREMENT. *)
Definition inserted_row (vs : sqlval * sqlval * sqlval * sqlval * sqlval)
    (now : string) (db : database) : row :=
  let '(n, d, c, pr, q) := vs in
  mkRow (next_id db)
    (apply_affinity AffText n) (apply_affinity AffText d)
    (apply_affinity AffText c) (apply_affinity AffReal pr)
    (apply_affinity AffInteger q)
    (current_timestamp now) (current_timestamp now).

(** [INSERT INTO items (name, description, category, price, quantity)
    VALUES (?, ?, ?, ?, ?)]; the result is [cursor.lastrowid]. When the
    largest 64-bit id has been given, AUTOINCREMENT has no id left and the
    INSERT is refused (database or disk is full). [name] is NOT NULL. *)
Definition insert_item (p : json * json * json * json * json) (now : string) : M Z :=
  let '(n, d, c, pr, q) := p in
  (vs <- lift (bind_params [n; d; c; pr; q]) ;;
   match vs with
   | [n; d; c; pr; q] =>
       issue Insert ;;;
       fun db =>
         if 2 ^ 63 <=? next_id db then (inl OperationalError, db)
         else if is_null (apply_affinity AffText n) then (inl IntegrityError, db)
         else
           (inr (next_id db),
            written db (items db ++ [inserted_row (n, d, c, pr, q) now db])%list
              (next_id db))
   | _ => raise InterfaceError
   end)%db.

(** The SET list of an UPDATE applied to one row. *)
Fixpoint apply_assignments (asg : list (column * sqlval)) (r : row) : row :=
  match asg with
  | [] => r
  | (c, v) :: rest =>
      apply_assignments rest (set_column c (apply_affinity (column_affinity c) v) r)
  end.

(** The [update_timestamp] trigger on one updated row. *)
Definition update_timestamp (now : string) (r : row) : row :=
  set_column Cupdated_at (current_timestamp now) r.

(** The column names of a SET list; an unknown name is no column. *)
Fixpoint resolve_columns (fields : list string) (vs : list sqlval)
    : option (list (column * sqlval)) :=
  match fields, vs with
  | [], [] => Some []
  | f :: fr, v :: vr =>
      match column_of_string f, resolve_columns fr vr with
      | Some c, Some rest => Some ((c, v) :: rest)
      | _, _ => None
      end
  | _, _ => None
  end.

(** [UPDATE items SET f1 = ?, ... WHERE id = ?], with the trigger that
    follows it. *)
Definition execute_update (update_fields : list string) (params : list json)
    (item_id : Z) (now : string) : M unit :=
  (vs <- lift (bind_params params) ;;
   lift (bind_param (JInt item_id)) ;;;
   match resolve_columns update_fields vs with
   | None => raise InterfaceError
   | Some asg =>
       issue (Update item_id) ;;;
       fun db =>
         let upd r :=
           if id r =? item_id
           then update_timestamp now (apply_assignments asg r) else r in
         let rows := map upd (items db) in
         if existsb (fun r => (id r =? item_id) && is_null (name r)) rows
         then (inl IntegrityError, db)
         else (inr tt, written db rows (seq db))
   end)%db.

(** [DELETE FROM items WHERE id = ?]. *)
Definition execute_delete (item_id : Z) : M unit :=
  (lift (bind_param (JInt item_id)) ;;;
   issue (Delete item_id) ;;;
   fun db =>
     (inr tt, written db (filter (fun r => negb (id r =? item_id)) (items db))
                (seq db)))%db.

(** [db.commit()]: what the connection has written becomes what the
    database file holds. *)
Definition commit : M unit :=
  fun db => (inr tt, committed (issued db [Commit])).

(** *** init_db *)

Fixpoint insert_all (l : list (json * json * json * json * json)) (now : string)
    : M unit :=
  match l with
  | [] => ret tt
  | p :: rest => (insert_item p now ;;; insert_all rest now)%db
  end.

(** The parameters of a function with one positional parameter, bound to
    the arguments of a call: any other number of arguments is a
    TypeError, raised before the body runs. *)
Definition bind_one_parameter {A} (arguments : list A) : exc A :=
  match arguments with
  | [a] => inr a
  | _ => inl TypeError
  end.

(** [close_db], as the module leaves the name bound: the second
    definition (lines 82 to 85) replaces the first (lines 33 to 37), which
    closes the connection and is never called. Its body is the call
    [close_db()], which reaches this same function and has no argument for
    [error]. *)
Definition close_db (arguments : list (option exn)) : M unit :=
  (lift (bind_one_parameter arguments) ;;;
   lift (bind_one_parameter (@nil (option exn))) ;;;
   ret tt)%db.

(** [with app.app_context(): ...]: leaving the block pops the context,
    which calls the teardown function [close_db] with the exception the
    block ended with, or None. What the teardown raises leaves the block
    in place of anything else. *)
Definition with_app_context {A} (block : M A) : M A :=
  fun db =>
    match block db with
    | (r, db1) =>
        let error := match r with inl e => Some e | inr _ => None end in
        match close_db [error] db1 with
        | (inl e, db2) => (inl e, db2)
        | (inr _, db2) => (r, db2)
        end
    end.

(** The body of the [with] block of [init_db]: the schema is in the
    model of the store; the sample rows are inserted when the table is
    empty. *)
Definition init_db_block (now : string) : M unit :=
  (count <- select_count (mkQuery None None None) ;;
   (if count =? 0 then insert_all sample_items now else ret tt) ;;;
   commit)%db.

Definition init_db (now : string) : M unit :=
  with_app_context (init_db_block now).

(** *** GET /items *)

Definition get_items_body (a : args) : M response :=
  let page := args_get_int (arg_page a) 1 in
  let per_page := effective_per_page a in
  let category := arg_category a in
  let search := arg_search a in
  let sort_by := args_get (arg_sort_by a) "id" in
  let sort_order := args_get (arg_sort_order a) "asc" in
  let q := build_query category search sort_by sort_order in
  (total_items <- select_count q ;;
   let offset := (page - 1) * per_page in
   items <- select_page q per_page offset ;;
   total_pages <- lift (floordiv (total_items + per_page - 1) per_page) ;;
   ret (ItemsPage items
          (mkPagination page per_page total_items total_pages
             (page <? total_pages) (1 <? page))
          (mkFilters category search sort_by sort_order),
        200))%db.

Definition get_items (a : args) : database -> response * database :=
  catch_all (get_items_body a).

(** *** GET /items/<id> *)

Definition get_item_body (item_id : Z) : M response :=
  (item <- select_by_id item_id ;;
   match item with
   | None => ret (Error "Item not found", 404)
   | Some r => ret (ItemBody r, 200)
   end)%db.

Definition get_item (item_id : Z) : database -> response * database :=
  catch_all (get_item_body item_id).

(** [dict_from_row(cursor.fetchone())]: no row has no [keys]. *)
Definition dict_from_row (r : option row) : M row :=
  match r with
  | Some r => ret r
  | None => raise AttributeError
  end.

(** *** POST /items *)

Definition create_item_body (data : json) (now : string) : M response :=
  if negb (py_truthy data) then ret (Error "No JSON data provided", 400)
  else
    (errors <- lift (validate_item_data data (Some ["name"])) ;;
     match errors with
     | _ :: _ => ret (ErrorDetails "Validation failed" errors, 400)
     | [] =>
         n <- lift (py_getitem data "name") ;;
         d <- lift (py_get data "description" JNull) ;;
         c <- lift (py_get data "category" JNull) ;;
         pr <- lift (py_get data "price" JNull) ;;
         q <- lift (py_get data "quantity" (JInt 0)) ;;
         item_id <- insert_item (n, d, c, pr, q) now ;;
         commit ;;;
         r <- select_by_id item_id ;;
         item <- dict_from_row r ;;
         ret (MessageItem "Item created successfully" item, 201)
     end)%db.

Definition create_item (data : json) (now : string)
    : database -> response * database :=
  catch_all (create_item_body data now).

(** *** PUT /items/<id> *)

(** The loop that builds [update_fields] and [params]. *)
Fixpoint collect_fields (data : json) (fields : list string)
    : exc (list string * list json) :=
  match fields with
  | [] => exc_ret ([], [])
  | field :: rest =>
      (present <- py_contains field data ;;
       if present then
         (v <- py_getitem data field ;;
          r <- collect_fields data rest ;;
          exc_ret (field :: fst r, v :: snd r))
       else collect_fields data rest)%exc
  end.

(** The part of [update_item] that follows validation: the UPDATE built
    from the fields present in the body, and the row read back. *)
Definition update_item_write (item_id : Z) (data : json) (now : string)
    : M response :=
  (fp <- lift (collect_fields data
                 ["name"; "description"; "category"; "price"; "quantity"]) ;;
   let (update_fields, params) := fp in
   match update_fields with
   | [] => ret (Error "No valid fields to update", 400)
   | _ :: _ =>
       execute_update update_fields params item_id now ;;;
       commit ;;;
       r <- select_by_id item_id ;;
       item <- dict_from_row r ;;
       ret (MessageItem "Item updated successfully" item, 200)
   end)%db.

Definition update_item_body (item_id : Z) (data : json) (now : string)
    : M response :=
  if negb (py_truthy data) then ret (Error "No JSON data provided", 400)
  else
    (existing_item <- select_by_id item_id ;;
     match existing_item with
     | None => ret (Error "Item not found", 404)
     | Some _ =>
         errors <- lift (validate_item_data data None) ;;
         match errors with
         | _ :: _ => ret (ErrorDetails "Validation failed" errors, 400)
         | [] => update_item_write item_id data now
         end
     end)%db.

Definition update_item (item_id : Z) (data : json) (now : string)
    : database -> response * database :=
  catch_all (update_item_body item_id data now).

(** *** DELETE /items/<id> *)

Definition delete_item_body (item_id : Z) : M response :=
  (item <- select_by_id item_id ;;
   match item with
   | None => ret (Error "Item not found", 404)
   | Some _ =>
       execute_delete item_id ;;;
       commit ;;;
       ret (Message "Item deleted successfully", 200)
   end)%db.

Definition delete_item (item_id : Z) : database -> response * database :=
  catch_all (delete_item_body item_id).


(** The query of a list request, the rows it yields, and the rows it
    selects before LIMIT and OFFSET. *)
Definition request_query (a : args) : query :=
  build_query (arg_category a) (arg_search a)
    (args_get (arg_sort_by a) "id") (args_get (arg_sort_order a) "asc").

(** The rows the query yields: none when the statement fails. *)
Definition matching (a : args) (db : database) : list row :=
  match where_rows (request_query a) (items db) with
  | inr rows => rows
  | inl _ => []
  end.

Definition selected (a : args) (db : database) : list row :=
  order_rows (request_query a) (matching a db).

(** *** GET /items/categories *)

Definition sql_eqb (v w : sqlval) : bool :=
  match sql_compare v w with Eq => true | _ => false end.

(** DISTINCT on a sorted list: of a run of equal values the first is
    kept. *)
Definition push_distinct (v : sqlval) (acc : list sqlval) : list sqlval :=
  match acc with
  | [] => [v]
  | w :: rest => if sql_eqb v w then v :: rest else v :: acc
  end.

Definition distinct_sorted (l : list sqlval) : list sqlval :=
  fold_right push_distinct [] l.

(** [SELECT DISTINCT category FROM items WHERE category IS NOT NULL
    ORDER BY category], one value per row of the result. *)
Definition select_categories (db : database) : list sqlval :=
  distinct_sorted
    (sort_by_leb sql_leb
       (filter (fun v => negb (is_null v)) (map category (items db)))).

(** The handler only reads, binds no parameter and computes nothing that
    can raise: it is a function of the table, and its answer is the list
    under the key [categories] with the status 200. *)
Definition get_categories (db : database) : list sqlval * Z :=
  (select_categories db, 200).

(** ** Further notions for the statements *)

(** The table is in rowid order without a repeated id, and no id is above
    the AUTOINCREMENT counter. *)
Definition store_inv (db : database) : Prop :=
  StronglySorted Z.lt (map id (items db)) /\
  Forall (fun i => i <= seq db) (map id (items db)).

Definition is_text (v : sqlval) : bool :=
  match v with SText _ => true | _ => false end.

Definition text_or_null (v : sqlval) : bool :=
  match v with SText _ | SNull => true | _ => false end.

Definition is_int (v : sqlval) : bool :=
  match v with SInt _ => true | _ => false end.

(** What the declared columns allow: [name] is a text (TEXT NOT NULL),
    [description] and [category] are a text or NULL (TEXT), [price] is no
    integer (REAL). *)
Definition row_typed (r : row) : Prop :=
  is_text (name r) = true /\
  text_or_null (description r) = true /\
  text_or_null (category r) = true /\
  is_int (price r) = false.

(** [data.get(k, default)] on the bindings of a dict. *)
Definition field_or (kv : list (string * json)) (k : string) (default : json)
    : json :=
  match dict_get kv k with
  | Some v => v
  | None => default
  end.

(** The fields [update_item] may set, in the order of its loop. *)
Definition updatable_fields : list string :=
  ["name"; "description"; "category"; "price"; "quantity"].

(** The fields of a dict among [fields], and their values. *)
Definition present_fields (kv : list (string * json)) (fields : list string)
    : list string :=
  filter (dict_has kv) fields.

Definition present_values (kv : list (string * json)) (fields : list string)
    : list json :=
  flat_map (fun f => match dict_get kv f with
                     | Some v => [v]
                     | None => []
                     end) fields.

(** The rows of a list response (none when the answer is no page). *)
Definition page_rows (r : response) : list row :=
  match fst r with
  | ItemsPage its _ _ => its
  | _ => []
  end.

(** The page numbers 1 to [n]. *)
Definition pages_upto (n : Z) : list Z :=
  map Z.of_nat (List.seq 1 (Z.to_nat n)).

(** What an UPDATE with the SET list [asg] makes of one row of the table:
    the row with the id is assigned and stamped by the trigger, any other
    row is left alone. *)
Definition apply_update (asg : list (column * sqlval)) (item_id : Z)
    (now : string) (r : row) : row :=
  if id r =? item_id
  then update_timestamp now (apply_assignments asg r) else r.

(** The columns an update can assign. *)
Definition settable (c : column) : bool :=
  match c with
  | Cname | Cdescription | Ccategory | Cprice | Cquantity => true
  | _ => false
  end.

(** A piece of handler code takes every store to one related to it by
    [R], whether it returns or raises. *)
Definition preserves {A} (R : database -> database -> Prop) (c : M A) : Prop :=
  forall db, R db (snd (c db)).

(** The relation of a store to a later one: the invariant on the ids is
    kept and the counter has not gone down. *)
Definition ids_kept (db db' : database) : Prop :=
  (store_inv db -> store_inv db') /\ seq db <= seq db'.

(** The same for the typing of the columns. *)
Definition typing_kept (db db' : database) : Prop :=
  Forall row_typed (items db) -> Forall row_typed (items db').




(** ** Running the monad *)

Lemma issued_issued db l1 l2 :
  issued (issued db l1) l2 = issued db (l1 ++ l2).
Proof. unfold issued; simpl. now rewrite <- app_assoc. Qed.

Lemma issued_items db l : items (issued db l) = items db.
Proof. reflexivity. Qed.

Lemma issued_seq db l : seq (issued db l) = seq db.
Proof. reflexivity. Qed.

Lemma select_by_id_run item_id db :
  select_by_id item_id db =
  if int64_ok item_id
  then (inr (find (fun r => id r =? item_id) (items db)),
        issued db [SelectById item_id])
  else (inl OverflowError, db).
Proof.
  unfold select_by_id, bind, lift, bind_param, issue, get_rows, ret.
  destruct (int64_ok item_id); reflexivity.
Qed.

Lemma select_count_run q db :
  select_count q db =
  if like_refused q (items db)
  then (inl OperationalError, issued db [SelectCount])
  else (inr (Z.of_nat (List.length (filter (matches q) (items db)))),
        issued db [SelectCount]).
Proof.
  unfold select_count, bind, lift, issue, get_rows, ret, where_rows.
  cbn [items issued]. destruct (like_refused q (items db)); reflexivity.
Qed.

Lemma select_page_run q limit offset db :
  select_page q limit offset db =
  if int64_ok limit && int64_ok offset
  then if like_refused q (items db)
       then (inl OperationalError, issued db [SelectPage])
       else (inr (limit_offset (order_rows q (filter (matches q) (items db)))
                    limit offset),
             issued db [SelectPage])
  else (inl OverflowError, db).
Proof.
  unfold select_page, bind, lift, bind_params, bind_param, issue, get_rows, ret,
    exc_bind, exc_ret, where_rows.
  cbn [items issued].
  destruct (int64_ok limit), (int64_ok offset); try reflexivity.
  destruct (like_refused q (items db)); reflexivity.
Qed.

(** The rows a list query yields, when LIKE does not refuse its
    pattern. *)
Lemma matching_filter a db :
  like_refused (request_query a) (items db) = false ->
  matching a db = filter (matches (request_query a)) (items db).
Proof. intros H. unfold matching, where_rows. now rewrite H. Qed.

(** The WHERE clause [get_items] builds is the filter of the request. *)
Lemma matches_passes a r :
  matches (request_query a) r = passes_filters a r.
Proof.
  unfold matches, request_query, build_query, passes_filters, str_truthy.
  cbn [q_category q_search option_map].
  f_equal.
  - destruct (arg_category a) as [c|]; [|reflexivity].
    destruct (String.eqb c EmptyString); reflexivity.
  - destruct (arg_search a) as [x|]; [|reflexivity].
    destruct (String.eqb x EmptyString); reflexivity.
Qed.

Lemma matching_passes a db :
  like_refused (request_query a) (items db) = false ->
  matching a db = filter (passes_filters a) (items db).
Proof.
  intros H. rewrite (matching_filter a db H).
  apply filter_ext. intros r. apply matches_passes.
Qed.

Lemma matching_refused a db :
  like_refused (request_query a) (items db) = true ->
  matching a db = [] /\ selected a db = [].
Proof.
  intros H. unfold selected, matching, where_rows. rewrite H.
  split; [reflexivity|]. unfold order_rows.
  destruct (q_order (request_query a)); reflexivity.
Qed.

Lemma utf8_bytes_app s t : utf8_bytes (s ++ t) = utf8_bytes s + utf8_bytes t.
Proof.
  induction s as [|c s IH]; [reflexivity|].
  cbn [append utf8_bytes]. rewrite IH. lia.
Qed.

(** A pattern within the limit is never refused. *)
Lemma search_fits_not_refused a rows :
  search_fits a -> like_refused (request_query a) rows = false.
Proof.
  intros H. unfold like_refused, request_query, build_query.
  cbn [q_search]. unfold str_truthy.
  destruct (arg_search a) as [s|] eqn:E; [|reflexivity].
  destruct (String.eqb s EmptyString); [reflexivity|].
  cbn [option_map]. specialize (H s E).
  change ("%" ++ s ++ "%") with (String "%" (s ++ "%")).
  cbn [utf8_bytes]. rewrite utf8_bytes_app.
  change (utf8_bytes "%") with 1. unfold like_pattern_limit in *.
  replace (50000 <? (if code "%" <? 128 then 1 else 2) + (utf8_bytes s + 1))
    with false; [reflexivity|].
  symmetry. apply Z.ltb_ge. change (code "%" <? 128) with true. cbv iota. lia.
Qed.

(** ** GET /items: what a list request returns *)

Lemma get_items_body_run a db :
  let page := args_get_int (arg_page a) 1 in
  let per_page := effective_per_page a in
  let total := Z.of_nat (List.length (matching a db)) in
  get_items_body a db =
  if like_refused (request_query a) (items db)
  then (inl OperationalError, issued db [SelectCount])
  else
  if int64_ok per_page && int64_ok ((page - 1) * per_page)
  then if per_page =? 0
       then (inl ZeroDivisionError, issued db [SelectCount; SelectPage])
       else (inr (ItemsPage
                    (limit_offset (selected a db) per_page ((page - 1) * per_page))
                    (mkPagination page per_page total
                       ((total + per_page - 1) / per_page)
                       (page <? (total + per_page - 1) / per_page)
                       (1 <? page))
                    (mkFilters (arg_category a) (arg_search a)
                       (args_get (arg_sort_by a) "id")
                       (args_get (arg_sort_order a) "asc")),
                  200),
             issued db [SelectCount; SelectPage])
  else (inl OverflowError, issued db [SelectCount]).
Proof.
  intros page per_page total.
  unfold get_items_body.
  fold page per_page (request_query a).
  unfold bind at 1. rewrite select_count_run.
  destruct (like_refused (request_query a) (items db)) eqn:Hr; [reflexivity|].
  unfold bind at 1. rewrite select_page_run. cbn [items issued]. rewrite Hr.
  destruct (int64_ok per_page && int64_ok ((page - 1) * per_page)); [|reflexivity].
  unfold bind, lift, floordiv, ret. rewrite issued_issued.
  subst total. unfold selected. rewrite (matching_filter a db Hr). simpl.
  destruct (per_page =? 0); reflexivity.
Qed.

Lemma get_items_run a db :
  get_items a db =
  match get_items_body a db with
  | (inr r, db') => (r, db')
  | (inl _, db') => ((Error "Internal server error", 500), db')
  end.
Proof. reflexivity. Qed.

(** Whatever a list request answers with a page is determined by the
    store and the parameters as follows. *)
Lemma get_items_page_inv a db its pg fl st db' :
  get_items a db = ((ItemsPage its pg fl, st), db') ->
  let total := Z.of_nat (List.length (matching a db)) in
  effective_per_page a <> 0 /\
  its = limit_offset (selected a db) (per_page pg) ((page pg - 1) * per_page pg) /\
  page pg = args_get_int (arg_page a) 1 /\
  per_page pg = effective_per_page a /\
  total_items pg = total /\
  total_pages pg = (total + per_page pg - 1) / per_page pg /\
  has_next pg = (page pg <? total_pages pg) /\
  has_prev pg = (1 <? page pg) /\
  st = 200 /\
  db' = issued db [SelectCount; SelectPage] /\
  like_refused (request_query a) (items db) = false.
Proof.
  rewrite get_items_run, get_items_body_run.
  destruct (like_refused _ _); [discriminate|].
  destruct (int64_ok _ && int64_ok _); [|discriminate].
  destruct (effective_per_page a =? 0) eqn:E; [discriminate|].
  intros H; injection H as <- <- <- <- <-. simpl.
  apply Z.eqb_neq in E. repeat split; auto.
Qed.

(** A list request is answered with a page whenever LIKE does not refuse
    its pattern, the page size is not zero and the LIMIT and OFFSET fit 64
    bits. *)
Lemma get_items_page_ok a db :
  like_refused (request_query a) (items db) = false ->
  effective_per_page a <> 0 ->
  int64_ok (effective_per_page a) = true ->
  int64_ok ((args_get_int (arg_page a) 1 - 1) * effective_per_page a) = true ->
  exists its pg fl,
    get_items a db = ((ItemsPage its pg fl, 200), issued db [SelectCount; SelectPage]).
Proof.
  intros Hr Hz H1 H2. rewrite get_items_run, get_items_body_run, Hr, H1, H2.
  simpl. apply Z.eqb_neq in Hz. rewrite Hz. eauto.
Qed.

(** ** Sorting and slicing *)

Section Lists.

Context {A : Type}.
Variable leb : A -> A -> bool.

Local Abbreviation R := (leb_rel leb).

Lemma insert_sorted_perm x l : Permutation (insert_sorted leb x l) (x :: l).
Proof.
  induction l as [|y l IH]; simpl; [reflexivity|].
  destruct (leb x y); [reflexivity|].
  rewrite IH. apply perm_swap.
Qed.

Lemma sort_by_leb_perm l : Permutation (sort_by_leb leb l) l.
Proof.
  induction l as [|x l IH]; simpl; [constructor|].
  rewrite insert_sorted_perm. now constructor.
Qed.

Lemma sort_by_leb_length l : List.length (sort_by_leb leb l) = List.length l.
Proof. apply Permutation_length, sort_by_leb_perm. Qed.

Hypothesis leb_total : forall x y, leb x y = false -> leb y x = true.

Lemma insert_sorted_HdRel x y l :
  R y x -> HdRel R y l -> HdRel R y (insert_sorted leb x l).
Proof.
  intros Hyx Hy. destruct l as [|z l]; simpl.
  - now constructor.
  - destruct (leb x z); constructor; auto. now inversion Hy.
Qed.

Lemma insert_sorted_Sorted x l :
  Sorted R l -> Sorted R (insert_sorted leb x l).
Proof.
  induction 1 as [|y l Hs IH Hd]; simpl.
  - repeat constructor.
  - destruct (leb x y) eqn:E.
    + constructor; [now constructor|]. now constructor.
    + constructor; [exact IH|]. apply insert_sorted_HdRel; auto.
      apply leb_total, E.
Qed.

Lemma sort_by_leb_Sorted l : Sorted R (sort_by_leb leb l).
Proof.
  induction l as [|x l IH]; simpl; [constructor|].
  now apply insert_sorted_Sorted.
Qed.

End Lists.

Lemma In_skipn {A} (x : A) n l : In x (skipn n l) -> In x l.
Proof.
  revert l. induction n; intros l H; simpl in *; [exact H|].
  destruct l; [exact H|]. right. now apply IHn.
Qed.

Lemma In_firstn {A} (x : A) n l : In x (firstn n l) -> In x l.
Proof.
  revert l. induction n; intros l H; simpl in *; [contradiction|].
  destruct l; [exact H|]. destruct H; [now left|right]. now apply IHn.
Qed.

Lemma In_limit_offset {A} (x : A) l limit offset :
  In x (limit_offset l limit offset) -> In x l.
Proof.
  unfold limit_offset. destruct (limit <? 0); intros H.
  - eapply In_skipn, H.
  - eapply In_skipn, In_firstn, H.
Qed.

(** The length of a page: what is left after the offset, at most the
    limit. *)
Lemma limit_offset_length {A} (l : list A) limit offset :
  0 <= limit -> 0 <= offset ->
  Z.of_nat (List.length (limit_offset l limit offset)) =
  Z.max 0 (Z.min limit (Z.of_nat (List.length l) - offset)).
Proof.
  intros Hl Ho. unfold limit_offset.
  destruct (limit <? 0) eqn:E; [apply Z.ltb_lt in E; lia|].
  rewrite length_firstn, length_skipn. lia.
Qed.

(** Every element of a list is on one of its pages. *)
Lemma limit_offset_covers {A} (x : A) l per_page :
  1 <= per_page -> In x l ->
  exists page, 1 <= page /\ In x (limit_offset l per_page ((page - 1) * per_page)).
Proof.
  intros Hp Hin. apply In_nth_error in Hin as [n Hn].
  exists (Z.of_nat n / per_page + 1). split.
  - assert (0 <= Z.of_nat n / per_page) by (apply Z.div_pos; lia). lia.
  - unfold limit_offset.
    destruct (per_page <? 0) eqn:E; [apply Z.ltb_lt in E; lia|].
    replace (Z.of_nat n / per_page + 1 - 1) with (Z.of_nat n / per_page) by lia.
    set (off := Z.to_nat (Z.of_nat n / per_page * per_page)).
    assert (Hoff : (off <= n)%nat).
    { unfold off. pose proof (Z.mul_div_le (Z.of_nat n) per_page). lia. }
    assert (Hlt : (n - off < Z.to_nat per_page)%nat).
    { unfold off. pose proof (Z.mod_pos_bound (Z.of_nat n) per_page).
      pose proof (Z.div_mod (Z.of_nat n) per_page).
      assert (0 <= Z.of_nat n / per_page) by (apply Z.div_pos; lia). nia. }
    apply nth_error_In with (n := (n - off)%nat).
    rewrite nth_error_firstn.
    destruct (Nat.ltb_spec (n - off) (Z.to_nat per_page)); [|lia].
    rewrite nth_error_skipn. replace (off + (n - off))%nat with n by lia. exact Hn.
Qed.

(** On the fresh store [init_db] seeds and commits the five rows, and
    then raises: the teardown of its application context fails. *)
Lemma init_db_seeds now :
  init_db now empty_db = (inl TypeError, seeded_db (current_timestamp now)).
Proof. reflexivity. Qed.

Lemma order_rows_length q l : List.length (order_rows q l) = List.length l.
Proof.
  unfold order_rows. destruct (q_order q); [apply sort_by_leb_length|reflexivity].
Qed.

Lemma order_rows_perm q l : Permutation (order_rows q l) l.
Proof.
  unfold order_rows. destruct (q_order q); [apply sort_by_leb_perm|reflexivity].
Qed.

Lemma selected_length a db :
  List.length (selected a db) = List.length (matching a db).
Proof. apply order_rows_length. Qed.

Lemma total_pages_ceil total per_page :
  1 <= per_page ->
  (total + per_page - 1) / per_page = ceil_div total per_page /\
  ((total + per_page - 1) / per_page - 1) * per_page < total
    <= (total + per_page - 1) / per_page * per_page.
Proof.
  intros Hp. unfold ceil_div.
  pose proof (Z.div_mod (total + per_page - 1) per_page ltac:(lia)) as D1.
  pose proof (Z.mod_pos_bound (total + per_page - 1) per_page ltac:(lia)) as B1.
  pose proof (Z.div_mod (- total) per_page ltac:(lia)) as D2.
  pose proof (Z.mod_pos_bound (- total) per_page ltac:(lia)) as B2.
  split; nia.
Qed.

(** ** The claims about GET /items *)

(** C10: a list request with [per_page=0] is not clamped and is always
    answered 500 [Internal server error], without a change to the store.
    Both SELECTs run (the second with LIMIT 0), then the floor division
    that computes [total_pages] raises ZeroDivisionError, which the
    handler's [except Exception] branch turns into the 500 response. The
    one other way to the 500 is a search pattern beyond the limit of LIKE
    on a store with a row to test it on: then the first SELECT fails. *)
Theorem get_items_per_page_zero a db :
  args_get_int (arg_per_page a) 10 = 0 ->
  effective_per_page a = 0 /\
  fst (get_items a db) = (Error "Internal server error", 500) /\
  items (snd (get_items a db)) = items db /\
  seq (snd (get_items a db)) = seq db /\
  (search_fits a \/ like_refused (request_query a) (items db) = false ->
   get_items_body a db =
     (inl ZeroDivisionError, issued db [SelectCount; SelectPage]) /\
   get_items a db =
     ((Error "Internal server error", 500),
      issued db [SelectCount; SelectPage])) /\
  (like_refused (request_query a) (items db) = true ->
   get_items_body a db = (inl OperationalError, issued db [SelectCount])).
Proof.
  intros H.
  assert (E : effective_per_page a = 0) by (unfold effective_per_page; rewrite H; reflexivity).
  assert (B : get_items_body a db =
              if like_refused (request_query a) (items db)
              then (inl OperationalError, issued db [SelectCount])
              else (inl ZeroDivisionError, issued db [SelectCount; SelectPage])).
  { rewrite get_items_body_run, E, Z.mul_0_r. reflexivity. }
  split; [exact E|].
  rewrite get_items_run, B.
  destruct (like_refused (request_query a) (items db)) eqn:Hr.
  - split; [reflexivity|]. split; [reflexivity|]. split; [reflexivity|].
    split; [|intros _; reflexivity].
    intros [Hf|Hf]; [|discriminate].
    rewrite (search_fits_not_refused a (items db) Hf) in Hr. discriminate.
  - split; [reflexivity|]. split; [reflexivity|]. split; [reflexivity|].
    split; [intros _; split; reflexivity|discriminate].
Qed.

(** C2, as the code has it: the page size of a list response is
    [min(requested, 100)], where the requested value is 10 when the
    parameter is absent or not an integer. It is used for the slice and
    reported in the metadata; it never exceeds 100, a request above 100 is
    capped to 100, a request of at least 1 gives a size in [1, 100], and a
    request below 1 is passed on unchanged. *)
Theorem per_page_capped_above_only a db its pg fl st db' :
  get_items a db = ((ItemsPage its pg fl, st), db') ->
  let requested := args_get_int (arg_per_page a) 10 in
  per_page pg = Z.min requested 100 /\
  its = limit_offset (selected a db) (Z.min requested 100)
          ((page pg - 1) * Z.min requested 100) /\
  per_page pg <= 100 /\
  (arg_per_page a = None -> per_page pg = 10) /\
  (100 < requested -> per_page pg = 100) /\
  (1 <= requested -> 1 <= per_page pg <= 100) /\
  (requested < 1 -> per_page pg = requested).
Proof.
  intros H requested.
  apply get_items_page_inv in H as (_ & Hits & _ & Hpp & _).
  unfold effective_per_page in Hpp. fold requested in Hpp.
  rewrite Hpp in Hits.
  repeat split; auto; try lia.
  intros Hn. subst requested. rewrite Hpp, Hn. reflexivity.
Qed.

(** C4: for a list request with [per_page >= 1], the page returned is
    the one asked for: its metadata carries the requested page number, the
    page size [min(per_page, 100)] and the number of stored rows that pass
    the filters, with [total_pages = ceil(total_items / per_page)],
    [has_next = (page < total_pages)] and [has_prev = (page > 1)], and its
    rows are the slice of that size at offset [(page - 1) * per_page] of
    the selected rows. With 25 matching rows and [per_page = 10] there are
    3 pages, a request for page 1 or 2 returns 10 rows, a request for page
    3 returns 5, and [has_next] is true on exactly pages 1 and 2. A page
    is returned whenever the offset fits SQLite's 64-bit integers and the
    search pattern the limit of LIKE. *)
Theorem pagination_metadata a db :
  1 <= args_get_int (arg_per_page a) 10 ->
  let page_no := args_get_int (arg_page a) 1 in
  let size := Z.min (args_get_int (arg_per_page a) 10) 100 in
  let total := Z.of_nat (List.length (filter (passes_filters a) (items db))) in
  let pages := ceil_div total size in
  (search_fits a ->
   int64_ok ((page_no - 1) * size) = true ->
   exists its fl,
     get_items a db =
       ((ItemsPage its
           (mkPagination page_no size total pages
              (page_no <? pages) (1 <? page_no)) fl, 200),
        issued db [SelectCount; SelectPage])) /\
  (forall its pg fl st db',
     get_items a db = ((ItemsPage its pg fl, st), db') ->
     page pg = page_no /\
     per_page pg = size /\
     total_items pg = total /\
     1 <= per_page pg /\
     total_pages pg = ceil_div (total_items pg) (per_page pg) /\
     (total_pages pg - 1) * per_page pg < total_items pg
       <= total_pages pg * per_page pg /\
     has_next pg = (page pg <? total_pages pg) /\
     has_prev pg = (1 <? page pg) /\
     its = limit_offset (selected a db) size ((page_no - 1) * size) /\
     Permutation (selected a db) (filter (passes_filters a) (items db)) /\
     (1 <= page_no ->
      Z.of_nat (List.length its) =
      Z.max 0 (Z.min size (total - (page_no - 1) * size))) /\
     (total = 25 -> size = 10 ->
      total_pages pg = 3 /\
      (page_no = 1 -> List.length its = 10%nat) /\
      (page_no = 2 -> List.length its = 10%nat) /\
      (page_no = 3 -> List.length its = 5%nat) /\
      (1 <= page_no -> (has_next pg = true <-> page_no = 1 \/ page_no = 2)))).
Proof.
  intros Hreq page_no size total pages.
  assert (Hsz : effective_per_page a = size) by reflexivity.
  assert (Hpp : 1 <= size <= 100) by (unfold size; lia).
  assert (Hinv : forall its pg fl st db',
            get_items a db = ((ItemsPage its pg fl, st), db') ->
            pg = mkPagination page_no size total pages
                   (page_no <? pages) (1 <? page_no) /\
            its = limit_offset (selected a db) size ((page_no - 1) * size) /\
            matching a db = filter (passes_filters a) (items db)).
  { intros its pg fl st db' Hrun.
    apply get_items_page_inv in Hrun
      as (_ & Hits & Hpage & Hper & Htot & Htp & Hnext & Hprev & _ & _ & Hr).
    pose proof (matching_passes a db Hr) as Hm.
    rewrite Hm in Htot, Htp. fold total in Htot, Htp.
    rewrite Hsz in Hper. fold page_no in Hpage.
    destruct (total_pages_ceil total size) as [Hc _]; [lia|].
    assert (Htp' : total_pages pg = pages)
      by (rewrite Htp, Hper; exact Hc).
    rewrite Hpage, Htp' in Hnext. rewrite Hpage in Hprev.
    rewrite Hper, Hpage in Hits.
    split; [|split; [exact Hits|exact Hm]].
    destruct pg as [p pp ti tp hn hp].
    cbn [page per_page total_items total_pages has_next has_prev] in *.
    rewrite Hpage, Hper, Htot, Htp', Hnext, Hprev. reflexivity. }
  split.
  { intros Hfit Hoff.
    destruct (get_items_page_ok a db) as (its & pg & fl & Hrun).
    - now apply search_fits_not_refused.
    - rewrite Hsz. lia.
    - rewrite Hsz. unfold int64_ok.
      apply andb_true_iff; split; [apply Z.leb_le|apply Z.ltb_lt]; lia.
    - rewrite Hsz. exact Hoff.
    - exists its, fl. destruct (Hinv _ _ _ _ _ Hrun) as [<- _]. exact Hrun. }
  intros its pg fl st db' Hrun.
  destruct (Hinv _ _ _ _ _ Hrun) as (Hpg & Hits & Hm).
  destruct (total_pages_ceil total size) as [Hc Hb]; [lia|]. fold pages in Hc.
  rewrite Hc in Hb.
  assert (Hperm : Permutation (selected a db)
                    (filter (passes_filters a) (items db))).
  { rewrite <- Hm. apply order_rows_perm. }
  assert (Hlen : 1 <= page_no ->
            Z.of_nat (List.length its) =
            Z.max 0 (Z.min size (total - (page_no - 1) * size))).
  { intros Hp. rewrite Hits, limit_offset_length by nia.
    rewrite (Permutation_length Hperm). reflexivity. }
  rewrite Hpg. cbn [page per_page total_items total_pages has_next has_prev].
  split; [reflexivity|]. split; [reflexivity|]. split; [reflexivity|].
  split; [lia|]. split; [reflexivity|]. split; [exact Hb|].
  split; [reflexivity|]. split; [reflexivity|]. split; [exact Hits|].
  split; [exact Hperm|]. split; [exact Hlen|].
  intros H25 H10.
  assert (Htp3 : pages = 3) by (unfold pages; rewrite H25, H10; reflexivity).
  rewrite H25, H10 in Hlen.
  split; [exact Htp3|].
  split; [|split; [|split]].
  - intros Hp. rewrite Hp in Hlen. specialize (Hlen ltac:(lia)). lia.
  - intros Hp. rewrite Hp in Hlen. specialize (Hlen ltac:(lia)). lia.
  - intros Hp. rewrite Hp in Hlen. specialize (Hlen ltac:(lia)). lia.
  - intros Hp1. rewrite Htp3. rewrite Z.ltb_lt. lia.
Qed.

(** ** The order of ORDER BY is total *)

Lemma xreal_compare_antisym a b :
  xreal_compare b a = CompOpp (xreal_compare a b).
Proof.
  destruct a as [|m1 e1|], b as [|m2 e2|]; simpl; auto.
  rewrite (Z.min_comm e2 e1). apply Z.compare_antisym.
Qed.

Lemma sql_compare_antisym v w :
  sql_compare w v = CompOpp (sql_compare v w).
Proof.
  unfold sql_compare. rewrite (Z.compare_antisym (sql_class v) (sql_class w)).
  destruct (sql_class v ?= sql_class w) eqn:E; simpl; auto.
  apply Z.compare_eq in E.
  destruct v as [|z|f|s], w as [|z'|f'|s']; cbv iota beta;
    try apply String.compare_antisym;
    try rewrite E; (destruct (_ =? 1); [apply xreal_compare_antisym|reflexivity]).
Qed.

Lemma sql_leb_total v w : sql_leb v w = false -> sql_leb w v = true.
Proof.
  unfold sql_leb. rewrite (sql_compare_antisym v w).
  destruct (sql_compare v w); simpl; congruence.
Qed.

Lemma order_leb_total o r1 r2 :
  order_leb o r1 r2 = false -> order_leb o r2 r1 = true.
Proof.
  destruct o as [c [|]]; simpl; apply sql_leb_total.
Qed.

Lemma order_rows_sorted q o l :
  q_order q = Some o ->
  Sorted (fun r1 r2 => order_leb o r1 r2 = true) (order_rows q l).
Proof.
  intros H. unfold order_rows. rewrite H.
  apply sort_by_leb_Sorted, order_leb_total.
Qed.

(** ** The order of ORDER BY is transitive *)

Lemma Z_mul_compare_pos n m p :
  0 < p -> (n * p ?= m * p) = (n ?= m).
Proof.
  intros Hp. destruct (Z.compare_spec n m) as [->|H|H].
  - apply Z.compare_refl.
  - apply Z.compare_lt_iff. nia.
  - apply Z.compare_gt_iff. nia.
Qed.

Lemma xreal_compare_common m1 e1 m2 e2 e :
  e <= e1 -> e <= e2 ->
  xreal_compare (XFin m1 e1) (XFin m2 e2) =
  (m1 * 2 ^ (e1 - e) ?= m2 * 2 ^ (e2 - e)).
Proof.
  intros H1 H2. simpl. set (e0 := Z.min e1 e2).
  replace (e1 - e) with ((e1 - e0) + (e0 - e)) by lia.
  replace (e2 - e) with ((e2 - e0) + (e0 - e)) by lia.
  rewrite !Z.pow_add_r by lia. rewrite !Z.mul_assoc.
  rewrite Z_mul_compare_pos; [reflexivity|]. apply Z.pow_pos_nonneg; lia.
Qed.

Lemma xreal_le_trans a b c :
  xreal_compare a b <> Gt -> xreal_compare b c <> Gt -> xreal_compare a c <> Gt.
Proof.
  destruct a as [|m1 e1|], b as [|m2 e2|], c as [|m3 e3|];
    try (simpl; congruence).
  set (e := Z.min e1 (Z.min e2 e3)).
  rewrite (xreal_compare_common m1 e1 m2 e2 e),
          (xreal_compare_common m2 e2 m3 e3 e),
          (xreal_compare_common m1 e1 m3 e3 e) by lia.
  fold (Z.le (m1 * 2 ^ (e1 - e)) (m2 * 2 ^ (e2 - e))).
  fold (Z.le (m2 * 2 ^ (e2 - e)) (m3 * 2 ^ (e3 - e))).
  fold (Z.le (m1 * 2 ^ (e1 - e)) (m3 * 2 ^ (e3 - e))).
  lia.
Qed.

Lemma ascii_compare_lt_trans a b c :
  Ascii.compare a b = Lt -> Ascii.compare b c = Lt -> Ascii.compare a c = Lt.
Proof.
  unfold Ascii.compare. rewrite !N.compare_lt_iff. lia.
Qed.

Lemma string_le_trans s t u :
  String.compare s t <> Gt -> String.compare t u <> Gt ->
  String.compare s u <> Gt.
Proof.
  revert t u. induction s as [|a s IH]; intros [|b t] [|c u]; simpl;
    try congruence.
  destruct (Ascii.compare a b) eqn:Eab; try congruence.
  - apply Ascii.compare_eq_iff in Eab. subst b.
    destruct (Ascii.compare a c); try congruence. apply IH.
  - destruct (Ascii.compare b c) eqn:Ebc; try congruence.
    + apply Ascii.compare_eq_iff in Ebc. subst c. rewrite Eab. congruence.
    + rewrite (ascii_compare_lt_trans a b c Eab Ebc). congruence.
Qed.

Lemma sql_class_range v : 0 <= sql_class v <= 2.
Proof. destruct v as [| |f|]; try destruct f; simpl; lia. Qed.

Lemma sql_class_text v : sql_class v = 2 -> exists s, v = SText s.
Proof.
  destruct v as [| |f|s]; try destruct f; simpl; try discriminate. eauto.
Qed.

Lemma sql_compare_same_class v w :
  sql_class v = sql_class w ->
  sql_compare v w =
  match v, w with
  | SText s, SText t => String.compare s t
  | _, _ => if sql_class v =? 1
            then xreal_compare (sql_number v) (sql_number w) else Eq
  end.
Proof.
  intros E. unfold sql_compare. rewrite E, Z.compare_refl. reflexivity.
Qed.

Lemma sql_compare_nontext v w :
  sql_class v = sql_class w -> sql_class v <> 2 ->
  sql_compare v w =
  if sql_class v =? 1
  then xreal_compare (sql_number v) (sql_number w) else Eq.
Proof.
  intros E Hn. rewrite sql_compare_same_class by exact E.
  destruct v as [| | |s]; try reflexivity.
  now elim Hn.
Qed.

Lemma sql_compare_lower_class v w :
  sql_class v < sql_class w -> sql_compare v w = Lt.
Proof.
  intros H. unfold sql_compare. apply Z.compare_lt_iff in H. now rewrite H.
Qed.

Lemma sql_compare_higher_class v w :
  sql_class w < sql_class v -> sql_compare v w = Gt.
Proof.
  intros H. unfold sql_compare. apply Z.compare_gt_iff in H. now rewrite H.
Qed.

Lemma sql_le_trans u v w :
  sql_compare u v <> Gt -> sql_compare v w <> Gt -> sql_compare u w <> Gt.
Proof.
  intros H1 H2.
  destruct (Z.lt_trichotomy (sql_class u) (sql_class v)) as [L1|[E1|G1]];
    [| |now rewrite sql_compare_higher_class in H1].
  - destruct (Z.lt_trichotomy (sql_class v) (sql_class w)) as [L2|[E2|G2]];
      [| |now rewrite sql_compare_higher_class in H2];
      rewrite sql_compare_lower_class; try discriminate; lia.
  - destruct (Z.lt_trichotomy (sql_class v) (sql_class w)) as [L2|[E2|G2]];
      [| |now rewrite sql_compare_higher_class in H2].
    + rewrite sql_compare_lower_class; try discriminate; lia.
    + pose proof (sql_class_range u) as Hr.
      destruct (Z.eq_dec (sql_class u) 2) as [C2|C2].
      * destruct (sql_class_text u C2) as [s ->].
        destruct (sql_class_text v ltac:(congruence)) as [t ->].
        destruct (sql_class_text w ltac:(congruence)) as [x ->].
        rewrite sql_compare_same_class in * by reflexivity.
        eapply string_le_trans; eauto.
      * rewrite !sql_compare_nontext in * by congruence.
        rewrite <- E1 in H2.
        destruct (sql_class u =? 1); [eapply xreal_le_trans; eauto|discriminate].
Qed.

Lemma sql_leb_trans u v w :
  sql_leb u v = true -> sql_leb v w = true -> sql_leb u w = true.
Proof.
  unfold sql_leb. intros H1 H2.
  pose proof (sql_le_trans u v w) as H.
  destruct (sql_compare u v), (sql_compare v w), (sql_compare u w);
    try reflexivity; try discriminate; exfalso; apply H; congruence.
Qed.

Lemma order_leb_trans o r1 r2 r3 :
  order_leb o r1 r2 = true -> order_leb o r2 r3 = true ->
  order_leb o r1 r3 = true.
Proof.
  destruct o as [c [|]]; simpl; intros H1 H2; eapply sql_leb_trans; eauto.
Qed.

Lemma StronglySorted_skipn {A} (R : A -> A -> Prop) n l :
  StronglySorted R l -> StronglySorted R (skipn n l).
Proof.
  revert l. induction n as [|n IH]; intros l H; simpl; [exact H|].
  destruct l; [constructor|]. apply IH. now inversion H.
Qed.

Lemma StronglySorted_firstn {A} (R : A -> A -> Prop) n l :
  StronglySorted R l -> StronglySorted R (firstn n l).
Proof.
  revert l. induction n as [|n IH]; intros l H; simpl; [constructor|].
  destruct l as [|x l]; [constructor|].
  inversion H as [|? ? Hs Hall]; subst. constructor; [now apply IH|].
  rewrite Forall_forall in *. intros y Hy. apply Hall. eapply In_firstn, Hy.
Qed.

Lemma StronglySorted_limit_offset {A} (R : A -> A -> Prop) l limit offset :
  StronglySorted R l -> StronglySorted R (limit_offset l limit offset).
Proof.
  intros H. unfold limit_offset.
  destruct (limit <? 0); [|apply StronglySorted_firstn];
    now apply StronglySorted_skipn.
Qed.

Lemma order_rows_strongly_sorted q o l :
  q_order q = Some o ->
  StronglySorted (fun r1 r2 => order_leb o r1 r2 = true) (order_rows q l).
Proof.
  intros H. apply Sorted_StronglySorted.
  - intros r1 r2 r3. apply order_leb_trans.
  - now apply order_rows_sorted.
Qed.

(** ** Letter case *)

Lemma upper_lower_ascii c : upper_ascii (lower_ascii c) = upper_ascii c.
Proof.
  destruct c as [[] [] [] [] [] [] [] []]; reflexivity.
Qed.

Lemma str_upper_lower s : str_upper (str_lower s) = str_upper s.
Proof.
  induction s as [|c s IH]; simpl; [reflexivity|].
  now rewrite upper_lower_ascii, IH.
Qed.

Lemma str_in_In x l : str_in x l = true <-> In x l.
Proof.
  unfold str_in. rewrite existsb_exists. split.
  - intros (y & Hy & E). apply String.eqb_eq in E. now subst.
  - intros H. exists x. split; [exact H|apply String.eqb_refl].
Qed.

Lemma sort_valid_iff sort_by sort_order :
  sort_valid sort_by sort_order = true <->
  In sort_by valid_sort_fields /\
  (str_lower sort_order = "asc" \/ str_lower sort_order = "desc").
Proof.
  unfold sort_valid. rewrite andb_true_iff, !str_in_In. simpl. split.
  - intros [H1 [E|[E|[]]]]; (split; [exact H1|]); [left|right]; now symmetry.
  - intros [H1 [E|E]]; (split; [exact H1|]); [left|right; left]; now symmetry.
Qed.

Lemma valid_sort_field_column sort_by :
  In sort_by valid_sort_fields -> exists c, column_of_string sort_by = Some c.
Proof.
  simpl. intros [<-|[<-|[<-|[<-|[<-|[<-|[]]]]]]]; eexists; reflexivity.
Qed.

Lemma pageable_page a db :
  pageable a ->
  exists its pg fl,
    get_items a db =
      ((ItemsPage its pg fl, 200), issued db [SelectCount; SelectPage]).
Proof.
  intros (H0 & H1 & H2 & H3).
  apply get_items_page_ok; auto using search_fits_not_refused.
Qed.

Lemma request_query_order a :
  q_order (request_query a) =
  let sort_by := args_get (arg_sort_by a) "id" in
  let sort_order := args_get (arg_sort_order a) "asc" in
  if sort_valid sort_by sort_order
  then match column_of_string sort_by with
       | Some c => Some (c, String.eqb (str_upper sort_order) "DESC")
       | None => None
       end
  else None.
Proof. reflexivity. Qed.

(** C8: the sort parameters never make a list request fail: a page is
    returned whenever the page size and the offset allow it, whatever
    [sort_by] and [sort_order] are. An ORDER BY is applied exactly when
    [sort_by] is one of id, name, category, price, quantity, created_at and
    [sort_order] is asc or desc in any letter case; then the rows returned
    are the requested page of the matching rows put in the order of that
    column: a rearrangement of the matching rows, none lost and none
    added, that is sorted on the column, cut at the offset and the size of
    the request. Otherwise the parameters are ignored and the page is cut
    from the matching rows in table order. With [sort_by=price] and
    [sort_order=desc] no row has a lower price than a row after it. *)
Theorem sort_applied_only_when_valid a db :
  let sort_by := args_get (arg_sort_by a) "id" in
  let sort_order := args_get (arg_sort_order a) "asc" in
  let page_no := args_get_int (arg_page a) 1 in
  let size := Z.min (args_get_int (arg_per_page a) 10) 100 in
  let allowed :=
    In sort_by ["id"; "name"; "category"; "price"; "quantity"; "created_at"] /\
    (str_lower sort_order = "asc" \/ str_lower sort_order = "desc") in
  (pageable a ->
   exists its pg fl,
     get_items a db =
       ((ItemsPage its pg fl, 200), issued db [SelectCount; SelectPage])) /\
  (forall its pg fl st db',
     get_items a db = ((ItemsPage its pg fl, st), db') ->
     page pg = page_no /\ per_page pg = size /\
     (q_order (request_query a) <> None <-> allowed) /\
     (~ allowed ->
      its = limit_offset (filter (passes_filters a) (items db)) size
              ((page_no - 1) * size)) /\
     (allowed ->
      exists c sorted,
        column_of_string sort_by = Some c /\
        Permutation sorted (filter (passes_filters a) (items db)) /\
        StronglySorted (fun r1 r2 =>
                  if String.eqb (str_lower sort_order) "desc"
                  then sql_leb (column_value c r2) (column_value c r1) = true
                  else sql_leb (column_value c r1) (column_value c r2) = true)
          sorted /\
        its = limit_offset sorted size ((page_no - 1) * size) /\
        StronglySorted (fun r1 r2 =>
                  if String.eqb (str_lower sort_order) "desc"
                  then sql_leb (column_value c r2) (column_value c r1) = true
                  else sql_leb (column_value c r1) (column_value c r2) = true)
          its) /\
     (sort_by = "price" -> str_lower sort_order = "desc" ->
      exists sorted,
        Permutation sorted (filter (passes_filters a) (items db)) /\
        StronglySorted (fun r1 r2 => sql_leb (price r2) (price r1) = true)
          sorted /\
        its = limit_offset sorted size ((page_no - 1) * size) /\
        StronglySorted (fun r1 r2 => sql_leb (price r2) (price r1) = true) its)).
Proof.
  intros sort_by sort_order page_no size allowed.
  split; [apply pageable_page|].
  intros its pg fl st db' Hrun.
  apply get_items_page_inv in Hrun
    as (_ & Hits & Hpage & Hper & _ & _ & _ & _ & _ & _ & Hr).
  pose proof (matching_passes a db Hr) as Hm.
  change (effective_per_page a) with size in Hper.
  fold page_no in Hpage. rewrite Hpage, Hper in Hits.
  pose proof (request_query_order a) as Hq. cbv zeta in Hq.
  fold sort_by sort_order in Hq.
  pose proof (sort_valid_iff sort_by sort_order) as Hv. fold allowed in Hv.
  assert (Hdesc : str_lower sort_order = "desc" ->
                  String.eqb (str_upper sort_order) "DESC" = true).
  { intros E. rewrite <- str_upper_lower, E. reflexivity. }
  assert (Hasc : str_lower sort_order = "asc" ->
                 String.eqb (str_upper sort_order) "DESC" = false).
  { intros E. rewrite <- str_upper_lower, E. reflexivity. }
  assert (Hsorted : allowed ->
            exists c, column_of_string sort_by = Some c /\
              StronglySorted (fun r1 r2 =>
                 if String.eqb (str_lower sort_order) "desc"
                 then sql_leb (column_value c r2) (column_value c r1) = true
                 else sql_leb (column_value c r1) (column_value c r2) = true)
                (selected a db)).
  { intros Ha. pose proof Ha as [Hin Hord].
    destruct (valid_sort_field_column _ Hin) as [c Hc].
    exists c. split; [exact Hc|].
    apply Hv in Ha. rewrite Ha, Hc in Hq.
    pose proof (order_rows_strongly_sorted (request_query a) _ (matching a db) Hq) as Hs.
    fold (selected a db) in Hs.
    destruct Hord as [E|E]; rewrite E; simpl String.eqb.
    - rewrite (Hasc E) in Hs. exact Hs.
    - rewrite (Hdesc E) in Hs. exact Hs. }
  assert (Hperm : Permutation (selected a db)
                    (filter (passes_filters a) (items db)))
    by (rewrite <- Hm; apply order_rows_perm).
  split; [exact Hpage|]. split; [exact Hper|].
  split; [|split; [|split]].
  - rewrite Hq. split.
    + destruct (sort_valid sort_by sort_order); [intros _; now apply Hv|congruence].
    + intros Ha. pose proof Ha as [Hin _].
      destruct (valid_sort_field_column _ Hin) as [c Hc].
      apply Hv in Ha. rewrite Ha, Hc. discriminate.
  - intros Hn. subst its. f_equal. rewrite <- Hm.
    unfold selected, order_rows. rewrite Hq.
    destruct (sort_valid sort_by sort_order); [|reflexivity].
    exfalso. apply Hn, Hv. reflexivity.
  - intros Ha. destruct (Hsorted Ha) as (c & Hc & Hs).
    exists c, (selected a db).
    split; [exact Hc|]. split; [exact Hperm|]. split; [exact Hs|].
    split; [exact Hits|].
    rewrite Hits. now apply StronglySorted_limit_offset.
  - intros Eby Eord.
    destruct Hsorted as (c & Hc & Hs).
    { split; [rewrite Eby; simpl; do 3 right; left; reflexivity|right; exact Eord]. }
    rewrite Eby in Hc. injection Hc as <-. rewrite Eord in Hs.
    exists (selected a db).
    split; [exact Hperm|]. split; [exact Hs|]. split; [exact Hits|].
    rewrite Hits. now apply StronglySorted_limit_offset.
Qed.

(** ** LIKE with a pattern [%s%] *)

Lemma like_any t : like "%" t = true.
Proof. induction t as [|c t IH]; [reflexivity|exact IH]. Qed.

Lemma like_percent p t :
  like (String "%" p) t =
  like p t || match t with
              | EmptyString => false
              | String _ t' => like (String "%" p) t'
              end.
Proof. destruct t; reflexivity. Qed.

Lemma like_literal c p t :
  Ascii.eqb c "%" = false -> Ascii.eqb c "_" = false ->
  like (String c p) t =
  match t with
  | EmptyString => false
  | String d t' => Ascii.eqb (lower_ascii c) (lower_ascii d) && like p t'
  end.
Proof. intros H1 H2. simpl. rewrite H1, H2. reflexivity. Qed.

Lemma like_literal_prefix s t :
  no_wildcard s = true ->
  like (s ++ "%") t = String.prefix (str_lower s) (str_lower t).
Proof.
  revert t. induction s as [|c s IH]; intros t Hs.
  - simpl str_lower. simpl append. rewrite like_any. now destruct t.
  - simpl in Hs. apply andb_true_iff in Hs as [Hc Hs].
    apply andb_true_iff in Hc as [H1 H2].
    apply negb_true_iff in H1, H2.
    change (String c s ++ "%") with (String c (s ++ "%")).
    rewrite like_literal by assumption.
    destruct t as [|d t]; [reflexivity|].
    simpl str_lower. simpl String.prefix. rewrite IH by exact Hs.
    destruct (ascii_dec (lower_ascii c) (lower_ascii d)) as [E|E].
    + rewrite E, Ascii.eqb_refl. reflexivity.
    + apply Ascii.eqb_neq in E. rewrite E. reflexivity.
Qed.

(** Without wildcards in [s], the pattern [%s%] is containment without
    regard to ASCII letter case. *)
Lemma like_contains s t :
  no_wildcard s = true ->
  like ("%" ++ s ++ "%") t = contains_ci s t.
Proof.
  intros Hs. unfold contains_ci.
  change ("%" ++ s ++ "%") with (String "%" (s ++ "%")).
  induction t as [|c t IH].
  - rewrite like_percent, like_literal_prefix by exact Hs. reflexivity.
  - rewrite like_percent, like_literal_prefix by exact Hs.
    rewrite IH. reflexivity.
Qed.

Lemma c_string_no_nul s : no_nul s = true -> c_string s = s.
Proof.
  induction s as [|c s IH]; [reflexivity|].
  cbn [no_nul c_string]. intros H. apply andb_true_iff in H as [H1 H2].
  apply negb_true_iff in H1. rewrite H1, (IH H2). reflexivity.
Qed.

Lemma no_nul_app s t : no_nul (s ++ t) = no_nul s && no_nul t.
Proof.
  induction s as [|c s IH]; [reflexivity|].
  cbn [append no_nul]. rewrite IH. now rewrite andb_assoc.
Qed.

(** LIKE with the pattern [%s%], for a search string without wildcard
    and without NUL: containment in the text LIKE reads, without regard to
    ASCII letter case. *)
Lemma sql_like_contains v s :
  no_wildcard s = true -> no_nul s = true ->
  sql_like v ("%" ++ s ++ "%") = true <->
  exists t, like_text v = Some t /\ contains_ci s t = true.
Proof.
  intros Hw Hn. unfold sql_like.
  rewrite c_string_no_nul
    by (rewrite !no_nul_app, Hn; reflexivity).
  destruct (like_text v) as [t|].
  - rewrite like_contains by exact Hw. split.
    + intros H. exists t. auto.
    + intros (t' & E & H). injection E as <-. exact H.
  - split; [discriminate|]. intros (t & E & _). discriminate.
Qed.

Lemma str_truthy_some v s :
  str_truthy v = Some s <-> v = Some s /\ s <> EmptyString.
Proof.
  unfold str_truthy. destruct v as [x|].
  - destruct (String.eqb_spec x EmptyString); split.
    + discriminate.
    + intros [E Hn]. injection E as ->. contradiction.
    + intros E. injection E as ->. auto.
    + intros [E _]. exact E.
  - split; [discriminate|intros [E _]; discriminate].
Qed.

(** What the WHERE clause of a list request asks of a row. *)
Lemma matches_request a r :
  matches (request_query a) r = true <->
  (forall c, arg_category a = Some c -> c <> EmptyString -> category r = SText c) /\
  (forall s, arg_search a = Some s -> s <> EmptyString ->
     sql_like (name r) ("%" ++ s ++ "%") = true \/
     sql_like (description r) ("%" ++ s ++ "%") = true).
Proof.
  unfold matches, request_query, build_query. simpl.
  rewrite andb_true_iff.
  match goal with
  | |- (?A /\ ?B) <-> (?C /\ ?D) =>
      cut ((A <-> C) /\ (B <-> D)); [tauto|split]
  end.
  - destruct (str_truthy (arg_category a)) as [c|] eqn:E.
    + apply str_truthy_some in E as [E Hn]. split.
      * intros H c' E' _. rewrite E in E'. injection E' as <-.
        unfold sql_eq_text in H. destruct (category r); try discriminate.
        apply String.eqb_eq in H. now subst.
      * intros H. rewrite (H c E Hn). simpl. apply String.eqb_refl.
    + split; [|reflexivity]. intros _ c E' Hn.
      assert (str_truthy (arg_category a) = Some c) by now apply str_truthy_some.
      congruence.
  - destruct (str_truthy (arg_search a)) as [s|] eqn:E; simpl.
    + apply str_truthy_some in E as [E Hn]. rewrite orb_true_iff. split.
      * intros H s' E' _. rewrite E in E'. injection E' as <-. exact H.
      * intros H. exact (H s E Hn).
    + split; [|reflexivity]. intros _ s E' Hn.
      assert (str_truthy (arg_search a) = Some s) by now apply str_truthy_some.
      congruence.
Qed.

(** C7, as the code has it: the rows of a list response are exactly the
    requested page of the stored rows that pass the filters: the selected
    rows are the stored rows that pass, each as often as it is stored, and
    the response holds their slice at the offset and the size of the
    request. A stored row passes when its category is exactly the given
    one (with a non-empty [category]) and its name or its description
    matches the LIKE pattern [%search%] (with a non-empty [search]), in
    which [%] and [_] of the search string are wildcards and which, like
    the text it is matched against, is read up to its first NUL character;
    when the search string has none of the three, this is containment
    without regard to ASCII letter case. Every returned row passes, and
    every stored row that passes is returned when the selected rows fit on
    the requested first page. *)
Theorem list_filters a db its pg fl st db' :
  get_items a db = ((ItemsPage its pg fl, st), db') ->
  let page_no := args_get_int (arg_page a) 1 in
  let size := Z.min (args_get_int (arg_per_page a) 10) 100 in
  let category_ok r :=
    forall c, arg_category a = Some c -> c <> EmptyString -> category r = SText c in
  let search_ok r :=
    forall s, arg_search a = Some s -> s <> EmptyString ->
      sql_like (name r) ("%" ++ s ++ "%") = true \/
      sql_like (description r) ("%" ++ s ++ "%") = true in
  let contains r :=
    forall s, arg_search a = Some s -> s <> EmptyString ->
      (exists t, like_text (name r) = Some t /\ contains_ci s t = true) \/
      (exists t, like_text (description r) = Some t /\ contains_ci s t = true) in
  page pg = page_no /\ per_page pg = size /\
  (exists sel,
     Permutation sel (filter (passes_filters a) (items db)) /\
     its = limit_offset sel size ((page_no - 1) * size) /\
     total_items pg = Z.of_nat (List.length sel) /\
     (forall r, In r sel <-> In r (items db) /\ category_ok r /\ search_ok r) /\
     ((forall s, arg_search a = Some s ->
         no_wildcard s = true /\ no_nul s = true) ->
      forall r, In r sel <-> In r (items db) /\ category_ok r /\ contains r) /\
     (page_no = 1 -> 0 <= total_items pg <= size -> its = sel)) /\
  (forall r, In r (items db) -> category_ok r -> search_ok r ->
     page_no = 1 -> 0 <= total_items pg <= size -> In r its) /\
  (forall r, In r its ->
     In r (items db) /\
     passes_filters a r = true /\
     category_ok r /\ search_ok r /\
     (forall s, arg_search a = Some s -> s <> EmptyString ->
        no_wildcard s = true -> no_nul s = true ->
        (exists t, like_text (name r) = Some t /\ contains_ci s t = true) \/
        (exists t, like_text (description r) = Some t /\
                   contains_ci s t = true))).
Proof.
  intros Hrun page_no size category_ok search_ok contains.
  apply get_items_page_inv in Hrun
    as (_ & Hits & Hpage & Hper & Htot & _ & _ & _ & _ & _ & Hr).
  change (effective_per_page a) with size in Hper.
  fold page_no in Hpage. rewrite Hpage, Hper in Hits.
  assert (Hperm : Permutation (selected a db)
                    (filter (passes_filters a) (items db))).
  { rewrite <- (matching_passes a db Hr). apply order_rows_perm. }
  assert (Hsel : forall r, In r (selected a db) <->
                   In r (items db) /\ category_ok r /\ search_ok r).
  { intros r. split.
    - intros Hin. eapply Permutation_in in Hin; [|exact Hperm].
      apply filter_In in Hin as [Hin Hm]. split; [exact Hin|].
      rewrite <- matches_passes in Hm. now apply matches_request in Hm.
    - intros (Hin & Hc & Hs).
      eapply Permutation_in; [symmetry; exact Hperm|].
      apply filter_In. split; [exact Hin|].
      rewrite <- matches_passes. apply matches_request. now split. }
  assert (Hlike : forall r s, no_wildcard s = true -> no_nul s = true ->
            (sql_like (name r) ("%" ++ s ++ "%") = true \/
             sql_like (description r) ("%" ++ s ++ "%") = true) <->
            ((exists t, like_text (name r) = Some t /\ contains_ci s t = true) \/
             (exists t, like_text (description r) = Some t /\
                        contains_ci s t = true))).
  { intros r s Hw Hn.
    rewrite (sql_like_contains (name r) s Hw Hn).
    rewrite (sql_like_contains (description r) s Hw Hn). reflexivity. }
  assert (Hfit : page_no = 1 -> 0 <= total_items pg <= size ->
                 its = selected a db).
  { intros Hp1 Hf. rewrite Hits, Hp1. unfold limit_offset.
    change (Z.to_nat ((1 - 1) * size)) with (Z.to_nat (0 * size)).
    rewrite Z.mul_0_l. simpl skipn.
    destruct (size <? 0) eqn:E; [reflexivity|].
    apply firstn_all2. rewrite selected_length. apply Z.ltb_ge in E.
    apply Nat2Z.inj_le. rewrite Z2Nat.id by exact E. rewrite <- Htot. apply Hf. }
  split; [exact Hpage|]. split; [exact Hper|].
  split; [|split].
  - exists (selected a db). split; [exact Hperm|]. split; [exact Hits|].
    split; [rewrite Htot; now rewrite selected_length|].
    split; [exact Hsel|]. split; [|exact Hfit].
    intros Hnw r. rewrite Hsel. split.
    + intros (Hin & Hc & Hs). split; [exact Hin|]. split; [exact Hc|].
      intros s E Hn. destruct (Hnw s E) as [Hw Hz].
      apply (Hlike r s Hw Hz). now apply Hs.
    + intros (Hin & Hc & Hs). split; [exact Hin|]. split; [exact Hc|].
      intros s E Hn. destruct (Hnw s E) as [Hw Hz].
      apply (Hlike r s Hw Hz). now apply Hs.
  - intros r Hin Hc Hs Hp1 Hf. rewrite (Hfit Hp1 Hf). apply Hsel. auto.
  - intros r Hin. rewrite Hits in Hin. apply In_limit_offset in Hin.
    pose proof Hin as Hr'. apply Hsel in Hr' as (Hin' & Hc & Hs).
    split; [exact Hin'|]. split.
    { eapply Permutation_in in Hin; [|exact Hperm].
      now apply filter_In in Hin as [_ Hm]. }
    split; [exact Hc|]. split; [exact Hs|].
    intros s E Hn Hw Hz. apply (Hlike r s Hw Hz). now apply Hs.
Qed.

(** ** DELETE /items/<id> *)

Lemma find_id_none item_id l :
  find (fun r => id r =? item_id) l = None <->
  forall r, In r l -> id r <> item_id.
Proof.
  split.
  - intros H r Hin E. apply (find_none _ _ H) in Hin. apply Z.eqb_neq in Hin. auto.
  - intros H. destruct (find _ l) as [r|] eqn:E; [|reflexivity].
    apply find_some in E as [Hin E]. apply Z.eqb_eq in E. now apply H in Hin.
Qed.

Lemma filter_id_absent item_id l :
  find (fun r => id r =? item_id) l = None ->
  filter (fun r => negb (id r =? item_id)) l = l.
Proof.
  intros H. induction l as [|r l IH]; [reflexivity|].
  simpl in *. destruct (id r =? item_id); [discriminate|].
  simpl. now rewrite IH.
Qed.

Lemma delete_item_run item_id db :
  delete_item item_id db =
  if int64_ok item_id then
    match find (fun r => id r =? item_id) (items db) with
    | None => ((Error "Item not found", 404), issued db [SelectById item_id])
    | Some _ =>
        ((Message "Item deleted successfully", 200),
         mkDb (filter (fun r => negb (id r =? item_id)) (items db)) (seq db)
           (trace db ++ [SelectById item_id; Delete item_id; Commit])
           (filter (fun r => negb (id r =? item_id)) (items db)) (seq db))
    end
  else ((Error "Internal server error", 500), db).
Proof.
  unfold delete_item, catch_all, delete_item_body.
  unfold bind at 1. rewrite select_by_id_run.
  destruct (int64_ok item_id) eqn:E; [|reflexivity].
  destruct (find _ (items db)); [|reflexivity].
  unfold execute_delete, commit, bind, lift, bind_param, issue, ret.
  rewrite E. unfold committed, issued, written. simpl.
  now rewrite <- !app_assoc.
Qed.

(** C9, as the code has it: for an id that fits SQLite's 64-bit integers,
    DELETE answers 200 with the confirmation message exactly when a row
    with that id is stored, and then no such row remains; otherwise it
    answers 404, leaves every row in place, and a second DELETE of the same
    id answers 404 again. An id beyond 64 bits cannot be bound to the
    lookup: the handler answers 500 and the store is untouched. *)
Theorem delete_item_status item_id db :
  (int64_ok item_id = true ->
   (snd (fst (delete_item item_id db)) = 200 <->
    exists r, In r (items db) /\ id r = item_id) /\
   ((exists r, In r (items db) /\ id r = item_id) ->
    fst (delete_item item_id db) = (Message "Item deleted successfully", 200) /\
    items (snd (delete_item item_id db)) =
      filter (fun r => negb (id r =? item_id)) (items db) /\
    forall r, In r (items (snd (delete_item item_id db))) -> id r <> item_id) /\
   ((forall r, In r (items db) -> id r <> item_id) ->
    let db1 := snd (delete_item item_id db) in
    fst (delete_item item_id db) = (Error "Item not found", 404) /\
    items db1 = items db /\ seq db1 = seq db /\
    fst (delete_item item_id db1) = (Error "Item not found", 404) /\
    items (snd (delete_item item_id db1)) = items db)) /\
  (int64_ok item_id = false ->
   delete_item item_id db = ((Error "Internal server error", 500), db)).
Proof.
  split.
  - intros Hok.
    assert (Hyes : (exists r, In r (items db) /\ id r = item_id) ->
                   exists r, find (fun r => id r =? item_id) (items db) = Some r).
    { intros (r & Hin & E).
      destruct (find _ (items db)) as [r'|] eqn:F; [eauto|].
      exfalso. eapply find_id_none in F; eauto. }
    split; [|split].
    + rewrite delete_item_run, Hok. split.
      * destruct (find _ (items db)) as [r|] eqn:F; [|discriminate].
        intros _. apply find_some in F as [Hin E]. apply Z.eqb_eq in E. eauto.
      * intros H. destruct (Hyes H) as [r ->]. reflexivity.
    + intros H. destruct (Hyes H) as [r F].
      rewrite delete_item_run, Hok, F. simpl.
      split; [reflexivity|]. split; [reflexivity|].
      intros r' Hin E. apply filter_In in Hin as [_ Hne].
      apply negb_true_iff, Z.eqb_neq in Hne. contradiction.
    + intros H. apply find_id_none in H.
      rewrite delete_item_run, Hok, H. simpl.
      rewrite delete_item_run, Hok. simpl. rewrite H. simpl. auto.
  - intros Hno. rewrite delete_item_run, Hno. reflexivity.
Qed.

(** ** POST /items and GET /items/<id> *)

Lemma get_item_run item_id db :
  get_item item_id db =
  if int64_ok item_id then
    (match find (fun r => id r =? item_id) (items db) with
     | None => (Error "Item not found", 404)
     | Some r => (ItemBody r, 200)
     end, issued db [SelectById item_id])
  else ((Error "Internal server error", 500), db).
Proof.
  unfold get_item, catch_all, get_item_body.
  unfold bind. rewrite select_by_id_run.
  destruct (int64_ok item_id); [|reflexivity].
  destruct (find _ (items db)); reflexivity.
Qed.

Lemma max_rowid_ge l r : In r l -> id r <= max_rowid l.
Proof.
  induction l as [|x l IH]; simpl; [contradiction|].
  intros [->|H]; [lia|]. apply IH in H. lia.
Qed.

Lemma max_rowid_nonneg l : 0 <= max_rowid l.
Proof. induction l; simpl; lia. Qed.

Lemma next_id_fresh db r : In r (items db) -> id r < next_id db.
Proof. intros H. apply max_rowid_ge in H. unfold next_id. lia. Qed.

Lemma next_id_int64 db : db_ok db -> int64_ok (next_id db) = true.
Proof.
  unfold db_ok, int64_ok. intros H.
  pose proof (max_rowid_nonneg (items db)). unfold next_id in *.
  apply andb_true_iff. split; [apply Z.leb_le|apply Z.ltb_lt]; lia.
Qed.

Lemma find_appended item_id l r :
  (forall x, In x l -> id x <> item_id) -> id r = item_id ->
  find (fun x => id x =? item_id) (l ++ [r]) = Some r.
Proof.
  intros Hl Hr. induction l as [|x l IH]; simpl.
  - now rewrite Hr, Z.eqb_refl.
  - destruct (id x =? item_id) eqn:E.
    + apply Z.eqb_eq in E. exfalso. eapply Hl; [left; reflexivity|exact E].
    + apply IH. intros y Hy. apply Hl. now right.
Qed.

Lemma insert_item_run n d c pr q now db :
  insert_item (n, d, c, pr, q) now db =
  match bind_params [n; d; c; pr; q] with
  | inl e => (inl e, db)
  | inr [vn; vd; vc; vpr; vq] =>
      if 2 ^ 63 <=? next_id db
      then (inl OperationalError, issued db [Insert])
      else if is_null (apply_affinity AffText vn)
      then (inl IntegrityError, issued db [Insert])
      else (inr (next_id db),
            written (issued db [Insert])
              (items db ++ [inserted_row (vn, vd, vc, vpr, vq) now db])
              (next_id db))
  | inr _ => (inl InterfaceError, db)
  end.
Proof.
  unfold insert_item, bind at 1, lift.
  destruct (bind_params [n; d; c; pr; q]) as [e|vs]; [reflexivity|].
  destruct vs as [|vn [|vd [|vc [|vpr [|vq [|]]]]]]; reflexivity.
Qed.

Lemma db_ok_room db : db_ok db -> (2 ^ 63 <=? next_id db) = false.
Proof. unfold db_ok. intros H. apply Z.leb_gt. exact H. Qed.

Lemma reconnect_clean db : clean db -> items (reconnect db) = items db.
Proof. intros [H _]. exact H. Qed.

Lemma create_item_falsy data now db :
  py_truthy data = false ->
  create_item data now db = ((Error "No JSON data provided", 400), db).
Proof.
  intros H. unfold create_item, catch_all, create_item_body. now rewrite H.
Qed.

Lemma create_item_invalid data now db errors :
  py_truthy data = true ->
  validate_item_data data (Some ["name"]) = inr errors -> errors <> [] ->
  create_item data now db = ((ErrorDetails "Validation failed" errors, 400), db).
Proof.
  intros Ht Hv Hne. unfold create_item, catch_all, create_item_body.
  rewrite Ht. simpl negb. cbv iota. unfold bind, lift. rewrite Hv.
  destruct errors; [contradiction|reflexivity].
Qed.

(** C5: creating an item from [{name: "X", price: 9.99, quantity: 3}]
    answers 201 with the stored row: name "X", price 9.99, quantity 3, and
    [created_at] equal to [updated_at], under an id that is new to the
    table. The INSERT is committed before the answer is given: the handler
    issues INSERT, COMMIT and the SELECT of the new id, in this order, and
    leaves nothing uncommitted. So the GET of the returned id, a later
    request on a connection of its own, finds that same row and answers 200
    with it. *)
Theorem create_then_get_round_trip now db :
  db_ok db ->
  let data :=
    JObj [("name", JStr "X"); ("price", JFloat f9_99); ("quantity", JInt 3)] in
  let db1 := snd (create_item data now db) in
  exists item,
    fst (create_item data now db) =
      (MessageItem "Item created successfully" item, 201) /\
    name item = SText "X" /\
    price item = SReal f9_99 /\
    quantity item = SInt 3 /\
    created_at item = updated_at item /\
    (forall r, In r (items db) -> id r < id item) /\
    items db1 = (items db ++ [item])%list /\
    trace db1 = (trace db ++ [Insert; Commit; SelectById (id item)])%list /\
    saved_items db1 = (items db ++ [item])%list /\
    saved_seq db1 = id item /\
    clean db1 /\
    get_item (id item) (reconnect db1) =
      ((ItemBody item, 200), issued (reconnect db1) [SelectById (id item)]).
Proof.
  intros Hok data db1.
  set (item := inserted_row (SText "X", SNull, SNull, SReal f9_99, SInt 3) now db).
  assert (Hfind : find (fun r => id r =? next_id db) (items db ++ [item]) = Some item).
  { apply find_appended; [|reflexivity].
    intros x Hx E. apply next_id_fresh in Hx. lia. }
  assert (Hrun : create_item data now db =
            ((MessageItem "Item created successfully" item, 201),
             mkDb (items db ++ [item]) (next_id db)
               (trace db ++ [Insert; Commit; SelectById (next_id db)])
               (items db ++ [item]) (next_id db))).
  { unfold create_item, catch_all, create_item_body.
    cbn [py_truthy data negb].
    unfold bind at 1.
    replace (lift (validate_item_data data (Some ["name"])) db)
      with (@inr exn _ (@nil string), db) by reflexivity.
    cbv iota beta.
    unfold bind at 1.
    cbn [lift py_getitem data dict_get String.eqb Ascii.eqb Bool.eqb].
    cbv iota beta.
    do 4 (unfold bind at 1; unfold lift at 1;
          cbn [py_get data dict_get String.eqb Ascii.eqb Bool.eqb]; cbv iota beta).
    unfold bind at 1. rewrite insert_item_run.
    replace (bind_params [JStr "X"; JNull; JNull; JFloat f9_99; JInt 3])
      with (@inr exn _ [SText "X"; SNull; SNull; SReal f9_99; SInt 3])
      by reflexivity.
    rewrite (db_ok_room db Hok).
    cbn [apply_affinity is_null]. cbv iota beta.
    unfold bind at 1, commit. unfold bind at 1.
    rewrite select_by_id_run, (next_id_int64 db Hok).
    fold item.
    cbn [items committed issued written]. rewrite Hfind.
    unfold bind, dict_from_row, ret, issued, committed, written.
    cbn [items seq trace saved_items saved_seq].
    rewrite <- !app_assoc. reflexivity. }
  exists item. subst db1. rewrite Hrun. cbn [fst snd].
  split; [reflexivity|].
  split; [reflexivity|]. split; [reflexivity|]. split; [reflexivity|].
  split; [reflexivity|].
  split; [intros r Hr; apply next_id_fresh in Hr; exact Hr|].
  split; [reflexivity|]. split; [reflexivity|]. split; [reflexivity|].
  split; [reflexivity|]. split; [split; reflexivity|].
  rewrite get_item_run. change (id item) with (next_id db).
  rewrite (next_id_int64 db Hok). cbn [items reconnect saved_items].
  rewrite Hfind. reflexivity.
Qed.

(** ** Validation *)

Lemma validate_default data :
  validate_item_data data None = validate_item_data data (Some ["name"]).
Proof. reflexivity. Qed.

Lemma check_required_name kv :
  check_required (JObj kv) ["name"] [] =
  inr (if missing_or_falsy kv "name" then [required_msg "name"] else []).
Proof.
  unfold check_required, field_missing, py_contains, py_getitem, dict_has,
    missing_or_falsy, exc_bind, exc_ret.
  destruct (dict_get kv "name") as [v|]; [|reflexivity].
  simpl negb. cbv iota. destruct (py_truthy v); reflexivity.
Qed.

Lemma present_not_none_dict kv k :
  present_not_none (JObj kv) k =
  inr match dict_get kv k with
      | None | Some JNull => None
      | Some v => Some v
      end.
Proof.
  unfold present_not_none, py_contains, py_getitem, dict_has, exc_bind, exc_ret.
  destruct (dict_get kv k) as [v|]; reflexivity.
Qed.

Lemma convert_step {A} (conv : json -> exc A) kv k msg errors errors' :
  match match dict_get kv k with
        | None | Some JNull => None
        | Some v => Some v
        end
  with
  | Some v => try_convert conv v msg errors
  | None => exc_ret errors
  end = inr errors' ->
  errors' = (errors ++ if conversion_rejected conv kv k then [msg] else [])%list.
Proof.
  unfold conversion_rejected, try_convert, exc_ret, exc_raise.
  destruct (dict_get kv k) as [v|];
    [destruct v; try destruct (conv _) as [[]|]|];
    intros H; try discriminate; injection H as <-;
    rewrite ?app_nil_r; reflexivity.
Qed.

(** On a dict, the errors are one message per failed field, in the order
    name, price, quantity. *)
Lemma validate_dict kv errors :
  validate_item_data (JObj kv) (Some ["name"]) = inr errors ->
  errors =
    ((if missing_or_falsy kv "name" then [required_msg "name"] else []) ++
     (if conversion_rejected py_float kv "price" then [price_msg] else []) ++
     (if conversion_rejected py_int kv "quantity" then [quantity_msg] else []))%list.
Proof.
  unfold validate_item_data.
  rewrite check_required_name. unfold exc_bind at 1.
  rewrite !present_not_none_dict. unfold exc_bind at 1.
  set (e1 := if missing_or_falsy kv "name" then [required_msg "name"] else []).
  destruct (match match dict_get kv "price" with
                  | None | Some JNull => None
                  | Some v => Some v
                  end
            with
            | Some v => try_convert py_float v price_msg e1
            | None => exc_ret e1
            end) as [e|e2] eqn:E2; [discriminate|].
  apply convert_step in E2. unfold exc_bind at 1. unfold exc_bind at 1.
  destruct (match match dict_get kv "quantity" with
                  | None | Some JNull => None
                  | Some v => Some v
                  end
            with
            | Some v => try_convert py_int v quantity_msg e2
            | None => exc_ret e2
            end) as [e|e3] eqn:E3; [discriminate|].
  apply convert_step in E3. unfold exc_bind, exc_ret.
  intros H. injection H as <-. subst e3 e2. now rewrite <- app_assoc.
Qed.

Lemma update_item_run item_id data now db :
  update_item item_id data now db =
  if negb (py_truthy data) then ((Error "No JSON data provided", 400), db)
  else if int64_ok item_id then
    match find (fun r => id r =? item_id) (items db) with
    | None => ((Error "Item not found", 404), issued db [SelectById item_id])
    | Some _ =>
        match validate_item_data data None with
        | inl _ => ((Error "Internal server error", 500),
                    issued db [SelectById item_id])
        | inr (e :: es) =>
            ((ErrorDetails "Validation failed" (e :: es), 400),
             issued db [SelectById item_id])
        | inr [] =>
            catch_all (update_item_write item_id data now)
              (issued db [SelectById item_id])
        end
    end
  else ((Error "Internal server error", 500), db).
Proof.
  unfold update_item, catch_all at 1, update_item_body.
  destruct (negb (py_truthy data)); [reflexivity|].
  unfold bind at 1. rewrite select_by_id_run.
  destruct (int64_ok item_id); [|reflexivity].
  destruct (find _ (items db)); [|reflexivity].
  unfold bind, lift.
  destruct (validate_item_data data None) as [e|[|e es]]; reflexivity.
Qed.

Lemma find_id_some item_id l :
  (exists r, In r l /\ id r = item_id) ->
  exists r, find (fun r => id r =? item_id) l = Some r.
Proof.
  intros (r & Hin & E).
  destruct (find _ l) as [r'|] eqn:F; [eauto|].
  exfalso. eapply find_id_none in F; eauto.
Qed.

(** ** The claims about validation *)

(** C6, as the code has it: on create and on update a JSON object is
    checked field by field: [name] must be present and truthy, [price]
    (when present and not null) must be accepted by [float()], [quantity]
    (when present and not null) by [int()]; the details of the 400 response
    hold one message for every field that failed, not only the first.
    [float()] also accepts the non-finite literals: a price of ["inf"]
    passes. An empty object never reaches validation: POST with [{}] is
    answered 400 [No JSON data provided], without details. POST with
    [{name: "A", price: "abc"}] is answered 400 with the price message, and
    a body failing all three checks lists all three messages. *)
Theorem validation_lists_every_failed_field kv errors :
  validate_item_data (JObj kv) (Some ["name"]) = inr errors ->
  (In (required_msg "name") errors <-> missing_or_falsy kv "name" = true) /\
  (In price_msg errors <-> conversion_rejected py_float kv "price" = true) /\
  (In quantity_msg errors <-> conversion_rejected py_int kv "quantity" = true) /\
  (forall now db, kv <> [] -> errors <> [] ->
     create_item (JObj kv) now db =
       ((ErrorDetails "Validation failed" errors, 400), db)) /\
  (forall item_id now db, kv <> [] -> errors <> [] ->
     int64_ok item_id = true ->
     (exists r, In r (items db) /\ id r = item_id) ->
     fst (update_item item_id (JObj kv) now db) =
       (ErrorDetails "Validation failed" errors, 400)) /\
  (forall now db,
     validate_item_data (JObj [("name", JStr "A"); ("price", JStr "inf")])
       (Some ["name"]) = inr [] /\
     create_item (JObj []) now db = ((Error "No JSON data provided", 400), db) /\
     create_item (JObj [("name", JStr "A"); ("price", JStr "abc")]) now db =
       ((ErrorDetails "Validation failed" ["'price' must be a valid number"],
         400), db) /\
     create_item (JObj [("price", JStr "abc"); ("quantity", JStr "many")]) now db =
       ((ErrorDetails "Validation failed"
           ["'name' is required"; "'price' must be a valid number";
            "'quantity' must be a valid integer"], 400), db)).
Proof.
  intros Hv. pose proof (validate_dict kv errors Hv) as He.
  assert (Htruthy : kv <> [] -> py_truthy (JObj kv) = true)
    by (destruct kv; [contradiction|reflexivity]).
  split; [|split; [|split; [|split; [|split]]]].
  - rewrite He.
    destruct (missing_or_falsy kv "name"),
      (conversion_rejected py_float kv "price"),
      (conversion_rejected py_int kv "quantity"); simpl;
      intuition discriminate.
  - rewrite He.
    destruct (missing_or_falsy kv "name"),
      (conversion_rejected py_float kv "price"),
      (conversion_rejected py_int kv "quantity"); simpl;
      intuition discriminate.
  - rewrite He.
    destruct (missing_or_falsy kv "name"),
      (conversion_rejected py_float kv "price"),
      (conversion_rejected py_int kv "quantity"); simpl;
      intuition discriminate.
  - intros now db Hkv Hne. apply create_item_invalid; auto.
  - intros item_id now db Hkv Hne Hok Hex.
    apply find_id_some in Hex as [r F].
    rewrite update_item_run, (Htruthy Hkv), Hok, F, validate_default, Hv.
    simpl negb. cbv iota. destruct errors; [contradiction|reflexivity].
  - intros now db. repeat split; reflexivity.
Qed.

(** C3, as the code has it: a create request whose body fails validation
    is answered 400 before any statement is issued: the store, trace
    included, is untouched. An update request first looks the id up: with a
    body that fails validation it issues that one SELECT and no write, and
    answers 404 when no row has the id and 400 with the errors when one
    has; the rows and the AUTOINCREMENT counter are unchanged. An empty
    body is answered 400 by both handlers without any statement, and an id
    beyond 64 bits makes the lookup of the update raise (500) before it
    reaches the store. *)
Theorem validation_failure_leaves_rows data now db item_id errors :
  errors <> [] ->
  (validate_item_data data (Some ["name"]) = inr errors ->
   snd (fst (create_item data now db)) = 400 /\
   snd (create_item data now db) = db /\
   (py_truthy data = true ->
    fst (create_item data now db) = (ErrorDetails "Validation failed" errors, 400))) /\
  (validate_item_data data None = inr errors ->
   let resp := fst (update_item item_id data now db) in
   let db' := snd (update_item item_id data now db) in
   items db' = items db /\ seq db' = seq db /\
   (py_truthy data = false ->
    resp = (Error "No JSON data provided", 400) /\ db' = db) /\
   (py_truthy data = true -> int64_ok item_id = true ->
    trace db' = (trace db ++ [SelectById item_id])%list /\
    ((exists r, In r (items db) /\ id r = item_id) ->
     resp = (ErrorDetails "Validation failed" errors, 400)) /\
    ((forall r, In r (items db) -> id r <> item_id) ->
     resp = (Error "Item not found", 404))) /\
   (py_truthy data = true -> int64_ok item_id = false ->
    resp = (Error "Internal server error", 500) /\ db' = db)).
Proof.
  intros Hne. split.
  - intros Hv. destruct (py_truthy data) eqn:Ht.
    + rewrite (create_item_invalid data now db errors Ht Hv Hne). auto.
    + rewrite (create_item_falsy data now db Ht). repeat split. discriminate.
  - intros Hv resp db'. subst resp db'.
    rewrite update_item_run, Hv.
    destruct (py_truthy data); simpl negb; cbv iota.
    + destruct (int64_ok item_id).
      * destruct (find (fun r => id r =? item_id) (items db)) as [r|] eqn:F.
        -- destruct errors as [|e es]; [contradiction|]. simpl.
           split; [reflexivity|]. split; [reflexivity|].
           split; [discriminate|]. split; [intros _ _|intros _; discriminate].
           split; [reflexivity|]. split; [reflexivity|].
           intros Hno. apply find_id_none in Hno. congruence.
        -- simpl.
           split; [reflexivity|]. split; [reflexivity|].
           split; [discriminate|]. split; [intros _ _|intros _; discriminate].
           split; [reflexivity|]. split; [|reflexivity].
           intros Hex. apply find_id_some in Hex as [r F']. congruence.
      * simpl.
        split; [reflexivity|]. split; [reflexivity|].
        split; [discriminate|]. split; [intros _; discriminate|].
        intros _ _. split; reflexivity.
    + simpl.
      split; [reflexivity|]. split; [reflexivity|].
      split; [intros _; split; reflexivity|].
      split; [discriminate|discriminate].
Qed.

(** ** PUT /items/<id> needs a name *)

(** Whatever the store and the id, an update whose JSON object has no
    truthy [name] is never answered 200. *)
Lemma update_without_name_not_ok item_id kv now db :
  missing_or_falsy kv "name" = true ->
  snd (fst (update_item item_id (JObj kv) now db)) <> 200.
Proof.
  intros Hm. rewrite update_item_run.
  destruct (negb (py_truthy (JObj kv))); [simpl; lia|].
  destruct (int64_ok item_id); [|simpl; lia].
  destruct (find _ (items db)); [|simpl; lia].
  rewrite validate_default.
  destruct (validate_item_data (JObj kv) (Some ["name"])) as [e|errors] eqn:Hv;
    [simpl; lia|].
  apply validate_dict in Hv. rewrite Hm in Hv.
  destruct errors; [discriminate|simpl; lia].
Qed.

Lemma validate_ok_dict data :
  validate_item_data data None = inr [] ->
  exists kv, data = JObj kv /\ missing_or_falsy kv "name" = false.
Proof.
  rewrite validate_default. destruct data as [| | | |s|l|kv]; try discriminate.
  - unfold validate_item_data, check_required, field_missing, present_not_none,
      py_contains, py_getitem, exc_bind, exc_ret.
    destruct (is_substring "name" s), (is_substring "price" s),
      (is_substring "quantity" s); simpl; discriminate.
  - unfold validate_item_data, check_required, field_missing, present_not_none,
      py_contains, py_getitem, exc_bind, exc_ret.
    destruct (existsb (json_is_str "name") l),
      (existsb (json_is_str "price") l),
      (existsb (json_is_str "quantity") l); simpl; discriminate.
  - intros Hv. exists kv. split; [reflexivity|].
    apply validate_dict in Hv.
    destruct (missing_or_falsy kv "name"); [discriminate|reflexivity].
Qed.

Lemma bind_inr {A B} (c : M A) (k : A -> M B) db b db' :
  bind c k db = (inr b, db') ->
  exists a db1, c db = (inr a, db1) /\ k a db1 = (inr b, db').
Proof.
  unfold bind. destruct (c db) as [[e|a] db1]; [discriminate|]. eauto.
Qed.

Lemma collect_fields_head kv f rest v :
  dict_get kv f = Some v ->
  collect_fields (JObj kv) (f :: rest) =
  exc_bind (collect_fields (JObj kv) rest)
    (fun r => exc_ret (f :: fst r, v :: snd r)).
Proof.
  intros H. simpl. unfold dict_has. rewrite H. reflexivity.
Qed.

(** The branch [No valid fields to update] of [update_item] is dead: a
    body that passes validation carries a name, hence a field to update. *)
Lemma update_no_fields_unreachable item_id data now db :
  fst (update_item item_id data now db) <> (Error "No valid fields to update", 400).
Proof.
  rewrite update_item_run.
  destruct (negb (py_truthy data)); [discriminate|].
  destruct (int64_ok item_id); [|discriminate].
  destruct (find _ (items db)); [|discriminate].
  destruct (validate_item_data data None) as [e|[|e es]] eqn:Hv; try discriminate.
  apply validate_ok_dict in Hv as (kv & -> & Hm).
  unfold catch_all.
  destruct (update_item_write item_id (JObj kv) now _) as [[e|resp] db1] eqn:Hw;
    [discriminate|].
  simpl. unfold update_item_write in Hw.
  unfold missing_or_falsy in Hm.
  destruct (dict_get kv "name") as [vn|] eqn:Hn; [|discriminate].
  rewrite (collect_fields_head kv "name" _ vn Hn) in Hw.
  destruct (collect_fields (JObj kv) _) as [e|rest].
  - cbv [bind lift exc_bind] in Hw. discriminate.
  - unfold bind at 1, lift, exc_bind, exc_ret in Hw. cbv iota beta in Hw.
    cbn [fst snd] in Hw.
    apply bind_inr in Hw as (? & ? & _ & Hw).
    apply bind_inr in Hw as (? & ? & _ & Hw).
    apply bind_inr in Hw as (? & ? & _ & Hw).
    apply bind_inr in Hw as (? & ? & _ & Hw).
    unfold ret in Hw. injection Hw as <- _. discriminate.
Qed.

(** ** POST /items on any body *)

Lemma bind_lift_inr {A B} (x : A) (k : A -> M B) db :
  bind (lift (inr x)) k db = k x db.
Proof. reflexivity. Qed.

Lemma py_get_dict kv k default :
  py_get (JObj kv) k default = inr (field_or kv k default).
Proof. unfold py_get, field_or. destruct (dict_get kv k); reflexivity. Qed.

Lemma create_item_dict_run kv now db :
  create_item (JObj kv) now db =
  match kv with
  | [] => ((Error "No JSON data provided", 400), db)
  | _ :: _ =>
      match validate_item_data (JObj kv) (Some ["name"]) with
      | inl _ => ((Error "Internal server error", 500), db)
      | inr (e :: es) => ((ErrorDetails "Validation failed" (e :: es), 400), db)
      | inr [] =>
          match dict_get kv "name" with
          | None => ((Error "Internal server error", 500), db)
          | Some n =>
              match bind_params [n; field_or kv "description" JNull;
                                 field_or kv "category" JNull;
                                 field_or kv "price" JNull;
                                 field_or kv "quantity" (JInt 0)] with
              | inr [vn; vd; vc; vpr; vq] =>
                  if 2 ^ 63 <=? next_id db
                  then ((Error "Internal server error", 500), issued db [Insert])
                  else if is_null (apply_affinity AffText vn)
                  then ((Error "Internal server error", 500), issued db [Insert])
                  else
                    let item := inserted_row (vn, vd, vc, vpr, vq) now db in
                    let db1 := mkDb (items db ++ [item]) (next_id db)
                                 (trace db ++ [Insert; Commit])
                                 (items db ++ [item]) (next_id db) in
                    if int64_ok (next_id db)
                    then ((MessageItem "Item created successfully" item, 201),
                          issued db1 [SelectById (next_id db)])
                    else ((Error "Internal server error", 500), db1)
              | _ => ((Error "Internal server error", 500), db)
              end
          end
      end
  end.
Proof.
  destruct kv as [|b kv0]; [reflexivity|].
  set (kv := b :: kv0).
  unfold create_item, catch_all, create_item_body.
  change (negb (py_truthy (JObj kv))) with false. cbv iota.
  unfold bind at 1, lift at 1.
  destruct (validate_item_data (JObj kv) (Some ["name"])) as [e|[|e es]];
    [reflexivity| |reflexivity].
  unfold py_getitem.
  destruct (dict_get kv "name") as [n|]; [|reflexivity].
  rewrite bind_lift_inr, !py_get_dict, !bind_lift_inr.
  unfold bind at 1. rewrite insert_item_run.
  destruct (bind_params _) as [e|vs]; [reflexivity|].
  destruct vs as [|vn [|vd [|vc [|vpr [|vq [|]]]]]]; try reflexivity.
  destruct (2 ^ 63 <=? next_id db); [reflexivity|].
  destruct (is_null (apply_affinity AffText vn)); [reflexivity|].
  unfold bind at 1, commit. unfold bind at 1.
  rewrite select_by_id_run.
  destruct (int64_ok (next_id db));
    [|unfold committed, issued, written;
      cbn [items seq trace saved_items saved_seq];
      rewrite <- !app_assoc; reflexivity].
  cbn [items committed issued written].
  rewrite find_appended;
    [|intros x Hx E; apply next_id_fresh in Hx; lia|reflexivity].
  unfold bind, dict_from_row, ret, committed, issued, written.
  cbn [items seq trace saved_items saved_seq].
  rewrite <- !app_assoc. reflexivity.
Qed.

Lemma create_item_unvalidated data now db :
  validate_item_data data (Some ["name"]) <> inr [] ->
  snd (create_item data now db) = db /\
  (snd (fst (create_item data now db)) = 400 \/
   snd (fst (create_item data now db)) = 500).
Proof.
  intros Hv. unfold create_item, catch_all, create_item_body.
  destruct (negb (py_truthy data)); [simpl; auto|].
  unfold bind, lift.
  destruct (validate_item_data data (Some ["name"])) as [e|[|e es]];
    [simpl; auto|contradiction|simpl; auto].
Qed.

Lemma bind_params_5 a b c d e va vb vc vd ve :
  bind_params [a; b; c; d; e] = inr [va; vb; vc; vd; ve] ->
  bind_param a = inr va /\ bind_param b = inr vb /\ bind_param c = inr vc /\
  bind_param d = inr vd /\ bind_param e = inr ve.
Proof.
  simpl. unfold exc_bind, exc_ret.
  destruct (bind_param a), (bind_param b), (bind_param c), (bind_param d),
    (bind_param e); try discriminate.
  intros H. injection H as <- <- <- <- <-. auto.
Qed.

Lemma affinity_text_is_text v :
  is_null (apply_affinity AffText v) = false ->
  is_text (apply_affinity AffText v) = true.
Proof. destruct v; simpl; congruence. Qed.

(** X1: under [db_ok], a create request either answers 201, and then
    exactly one row is appended to the table, carrying the id the
    AUTOINCREMENT counter gives next, above the counter and above every
    stored id; or it answers another status, and then neither a row nor
    the counter has changed. *)
Theorem create_item_outcomes data now db :
  db_ok db ->
  let resp := fst (create_item data now db) in
  let db' := snd (create_item data now db) in
  (snd resp = 201 /\
   exists item,
     fst resp = MessageItem "Item created successfully" item /\
     items db' = (items db ++ [item])%list /\
     id item = next_id db /\ seq db' = id item /\
     seq db < id item /\
     (forall r, In r (items db) -> id r < id item)) \/
  (snd resp <> 201 /\ items db' = items db /\ seq db' = seq db).
Proof.
  intros Hok resp db'. subst resp db'.
  assert (Hun : validate_item_data data (Some ["name"]) <> inr [] ->
                snd (fst (create_item data now db)) <> 201 /\
                items (snd (create_item data now db)) = items db /\
                seq (snd (create_item data now db)) = seq db).
  { intros Hv. destruct (create_item_unvalidated data now db Hv) as [-> [E|E]];
      rewrite E; repeat split; discriminate. }
  destruct data as [| | | | | |kv];
    try (right; apply Hun; intros Hv; rewrite <- validate_default in Hv;
         apply validate_ok_dict in Hv as (kv & Hkv & _); discriminate).
  rewrite create_item_dict_run.
  destruct kv as [|b kv0]; [right; repeat split; discriminate|].
  destruct (validate_item_data _ _) as [e|[|e es]];
    try (right; repeat split; discriminate).
  destruct (dict_get _ "name") as [n|]; [|right; repeat split; discriminate].
  destruct (bind_params _) as [e|[|vn [|vd [|vc [|vpr [|vq [|]]]]]]];
    try (right; repeat split; discriminate).
  rewrite (db_ok_room db Hok).
  destruct (is_null _); [right; repeat split; discriminate|].
  cbv zeta. rewrite (next_id_int64 db Hok).
  left. split; [reflexivity|].
  eexists. split; [reflexivity|]. cbn [fst snd items seq issued].
  split; [reflexivity|]. split; [reflexivity|]. split; [reflexivity|].
  split; [unfold inserted_row; cbn [id]; unfold next_id; lia|].
  intros r Hr. apply next_id_fresh in Hr. exact Hr.
Qed.

(** X2: the row a successful create stores. Its name is a text; a
    description, category or price that the body does not carry is NULL;
    a quantity that the body does not carry is 0, but a quantity the body
    carries as null is stored as NULL; a quantity given as a number with a
    fraction passes validation and is stored with its fraction; both
    timestamps are the [CURRENT_TIMESTAMP] of the INSERT. *)
Theorem create_item_stored_row kv now db m item st db' :
  create_item (JObj kv) now db = ((MessageItem m item, st), db') ->
  st = 201 /\
  is_text (name item) = true /\
  (dict_get kv "description" = None -> description item = SNull) /\
  (dict_get kv "category" = None -> category item = SNull) /\
  (dict_get kv "price" = None -> price item = SNull) /\
  (dict_get kv "quantity" = None -> quantity item = SInt 0) /\
  (dict_get kv "quantity" = Some JNull -> quantity item = SNull) /\
  (forall s m' e, dict_get kv "quantity" = Some (JFloat (S754_finite s m' e)) ->
     real_integral (S754_finite s m' e) = None ->
     quantity item = SReal (S754_finite s m' e)) /\
  created_at item = current_timestamp now /\
  updated_at item = current_timestamp now.
Proof.
  rewrite create_item_dict_run.
  destruct kv as [|b kv0]; [discriminate|]. set (kv := b :: kv0).
  destruct (validate_item_data _ _) as [e|[|e es]]; try discriminate.
  destruct (dict_get kv "name") as [n|]; [|discriminate].
  destruct (bind_params _) as [e|[|vn [|vd [|vc [|vpr [|vq [|]]]]]]] eqn:Hb;
    try discriminate.
  apply bind_params_5 in Hb as (_ & Hd & Hc & Hp & Hq).
  destruct (2 ^ 63 <=? next_id db); [discriminate|].
  destruct (is_null _) eqn:Hn; [discriminate|].
  cbv zeta. destruct (int64_ok _); [|discriminate].
  intros H. injection H as _ <- <- _.
  unfold field_or in *. cbn [name description category price quantity
                              created_at updated_at inserted_row].
  split; [reflexivity|]. split; [now apply affinity_text_is_text|].
  split; [intros E; rewrite E in Hd; injection Hd as <-; reflexivity|].
  split; [intros E; rewrite E in Hc; injection Hc as <-; reflexivity|].
  split; [intros E; rewrite E in Hp; injection Hp as <-; reflexivity|].
  split; [intros E; rewrite E in Hq; injection Hq as <-; reflexivity|].
  split; [intros E; rewrite E in Hq; injection Hq as <-; reflexivity|].
  split; [|split; reflexivity].
  intros s m' e E Hi. rewrite E in Hq. injection Hq as <-.
  simpl. unfold real_to_integer. rewrite Hi. reflexivity.
Qed.

(** X3: a body that is JSON but no object never creates an item and
    never reaches the store. A number other than zero and [true] make
    [validate_item_data] raise TypeError ([in] on a value that is no
    container): the answer is 500. A non-empty string or array in which
    none of name, price and quantity occurs is answered 400 with
    ['name' is required]. *)
Theorem create_item_non_object data now db :
  (forall kv, data <> JObj kv) ->
  snd (create_item data now db) = db /\
  (snd (fst (create_item data now db)) = 400 \/
   snd (fst (create_item data now db)) = 500) /\
  (py_truthy data = true ->
   (forall s, data <> JStr s) -> (forall l, data <> JArr l) ->
   fst (create_item data now db) = (Error "Internal server error", 500)) /\
  (py_truthy data = true ->
   py_contains "name" data = inr false ->
   py_contains "price" data = inr false ->
   py_contains "quantity" data = inr false ->
   fst (create_item data now db) =
     (ErrorDetails "Validation failed" ["'name' is required"], 400)).
Proof.
  intros Hobj.
  assert (Hv : validate_item_data data (Some ["name"]) <> inr []).
  { intros Hv. rewrite <- validate_default in Hv.
    apply validate_ok_dict in Hv as (kv & Hkv & _). now apply (Hobj kv). }
  destruct (create_item_unvalidated data now db Hv) as [Hdb Hst].
  split; [exact Hdb|]. split; [exact Hst|]. split.
  - intros Ht Hs Hl. unfold create_item, catch_all, create_item_body.
    rewrite Ht. simpl negb. cbv iota.
    destruct data as [| | | |s|l|kv]; try reflexivity.
    + now elim (Hs s).
    + now elim (Hl l).
    + now elim (Hobj kv).
  - intros Ht Hn Hp Hq. unfold create_item, catch_all, create_item_body.
    rewrite Ht. simpl negb. cbv iota. unfold bind, lift.
    unfold validate_item_data, check_required, field_missing, present_not_none.
    rewrite Hn, Hp, Hq. reflexivity.
Qed.

(** X4: [validate_item_data] catches ValueError and TypeError only. A
    price that is an integer too large for a double, or a quantity that is
    an infinite number, makes [float()] or [int()] raise OverflowError:
    validation raises instead of reporting the field, and a create request
    is answered 500, not 400, without reaching the store. *)
Theorem validation_overflow_raises kv now db :
  (exists z, dict_get kv "price" = Some (JInt z) /\
             2 ^ 1024 - 2 ^ 970 <= Z.abs z) \/
  (exists s, dict_get kv "quantity" = Some (JFloat (S754_infinity s))) ->
  validate_item_data (JObj kv) (Some ["name"]) = inl OverflowError /\
  create_item (JObj kv) now db = ((Error "Internal server error", 500), db).
Proof.
  intros H.
  assert (Hv : validate_item_data (JObj kv) (Some ["name"]) = inl OverflowError).
  { unfold validate_item_data.
    rewrite check_required_name. unfold exc_bind at 1.
    rewrite !present_not_none_dict. unfold exc_bind at 1.
    destruct H as [(z & Hp & Hz)|(s & Hq)].
    - rewrite Hp. unfold try_convert, py_float.
      apply Z.ltb_ge in Hz. rewrite Hz. reflexivity.
    - rewrite Hq.
      match goal with
      | |- exc_bind ?c _ = _ => destruct c as [e|e2] eqn:E2
      end.
      + unfold try_convert, exc_ret, exc_raise in E2.
        destruct (dict_get kv "price") as [[]|]; try discriminate;
          destruct (py_float _) as [[]|] eqn:F; try discriminate;
          try (injection E2 as <-; reflexivity);
          simpl in F; try discriminate;
          repeat match type of F with
                 | (if ?c then _ else _) = _ => destruct c; try discriminate
                 end.
      + reflexivity. }
  split; [exact Hv|].
  rewrite create_item_dict_run, Hv.
  destruct kv as [|b kv0]; [|reflexivity].
  destruct H as [(z & Hp & _)|(s & Hq)]; discriminate.
Qed.

(** ** PUT /items/<id> on a JSON object *)

Lemma collect_fields_dict kv fs :
  collect_fields (JObj kv) fs = inr (present_fields kv fs, present_values kv fs).
Proof.
  induction fs as [|f fs IH]; [reflexivity|].
  simpl. unfold dict_has. rewrite IH.
  destruct (dict_get kv f); reflexivity.
Qed.

Lemma execute_update_run fields params item_id now db :
  execute_update fields params item_id now db =
  match bind_params params with
  | inl e => (inl e, db)
  | inr vs =>
      if int64_ok item_id then
        match resolve_columns fields vs with
        | None => (inl InterfaceError, db)
        | Some asg =>
            let rows := map (apply_update asg item_id now) (items db) in
            if existsb (fun r => (id r =? item_id) && is_null (name r)) rows
            then (inl IntegrityError, issued db [Update item_id])
            else (inr tt, written (issued db [Update item_id]) rows (seq db))
        end
      else (inl OverflowError, db)
  end.
Proof.
  unfold execute_update, bind at 1, lift at 1.
  destruct (bind_params params) as [e|vs]; [reflexivity|].
  unfold bind at 1, lift, bind_param.
  destruct (int64_ok item_id); [|reflexivity].
  destruct (resolve_columns fields vs) as [asg|]; [|reflexivity].
  unfold bind, issue. cbn [items issued seq trace].
  fold (apply_update asg item_id now).
  destruct (existsb _ _); reflexivity.
Qed.

Lemma apply_assignments_id asg r : id (apply_assignments asg r) = id r.
Proof.
  revert r. induction asg as [|[c v] asg IH]; intros r; [reflexivity|].
  simpl. rewrite IH. destruct c; reflexivity.
Qed.

Lemma apply_assignments_created_at asg r :
  (forall v, ~ In (Ccreated_at, v) asg) ->
  created_at (apply_assignments asg r) = created_at r.
Proof.
  revert r. induction asg as [|[c v] asg IH]; intros r H; [reflexivity|].
  simpl. rewrite IH.
  - destruct c; try reflexivity. exfalso. apply (H v). now left.
  - intros w Hw. apply (H w). now right.
Qed.

Lemma apply_update_id asg item_id now r :
  id (apply_update asg item_id now r) = id r.
Proof.
  unfold apply_update. destruct (id r =? item_id); [|reflexivity].
  unfold update_timestamp. simpl. apply apply_assignments_id.
Qed.

Lemma map_apply_update_ids asg item_id now l :
  map id (map (apply_update asg item_id now) l) = map id l.
Proof.
  rewrite map_map. apply map_ext. intros r. apply apply_update_id.
Qed.

Lemma find_apply_update asg item_id now k l :
  find (fun r => id r =? k) (map (apply_update asg item_id now) l) =
  option_map (apply_update asg item_id now) (find (fun r => id r =? k) l).
Proof.
  induction l as [|r l IH]; [reflexivity|].
  simpl. rewrite apply_update_id.
  destruct (id r =? k); [reflexivity|exact IH].
Qed.

Lemma update_item_dict_run item_id kv now db :
  update_item item_id (JObj kv) now db =
  match kv with
  | [] => ((Error "No JSON data provided", 400), db)
  | _ :: _ =>
    if int64_ok item_id then
      match find (fun r => id r =? item_id) (items db) with
      | None => ((Error "Item not found", 404), issued db [SelectById item_id])
      | Some r0 =>
        match validate_item_data (JObj kv) None with
        | inl _ => ((Error "Internal server error", 500),
                    issued db [SelectById item_id])
        | inr (e :: es) =>
            ((ErrorDetails "Validation failed" (e :: es), 400),
             issued db [SelectById item_id])
        | inr [] =>
          match present_fields kv updatable_fields with
          | [] => ((Error "No valid fields to update", 400),
                   issued db [SelectById item_id])
          | f :: fs =>
            match bind_params (present_values kv updatable_fields) with
            | inl _ => ((Error "Internal server error", 500),
                        issued db [SelectById item_id])
            | inr vs =>
              match resolve_columns (f :: fs) vs with
              | None => ((Error "Internal server error", 500),
                         issued db [SelectById item_id])
              | Some asg =>
                let rows := map (apply_update asg item_id now) (items db) in
                if existsb (fun r => (id r =? item_id) && is_null (name r)) rows
                then ((Error "Internal server error", 500),
                      issued db [SelectById item_id; Update item_id])
                else ((MessageItem "Item updated successfully"
                         (apply_update asg item_id now r0), 200),
                      mkDb rows (seq db)
                        (trace db ++ [SelectById item_id; Update item_id;
                                      Commit; SelectById item_id])
                        rows (seq db))
              end
            end
          end
        end
      end
    else ((Error "Internal server error", 500), db)
  end.
Proof.
  rewrite update_item_run.
  destruct kv as [|b kv0]; [reflexivity|]. set (kv := b :: kv0).
  change (negb (py_truthy (JObj kv))) with false. cbv iota.
  destruct (int64_ok item_id) eqn:Hok; [|reflexivity].
  destruct (find _ (items db)) as [r0|] eqn:F; [|reflexivity].
  destruct (validate_item_data _ None) as [e|[|e es]]; try reflexivity.
  unfold catch_all, update_item_write.
  fold updatable_fields. rewrite collect_fields_dict, bind_lift_inr.
  destruct (present_fields kv updatable_fields) as [|f fs]; [reflexivity|].
  unfold bind at 1. rewrite execute_update_run.
  destruct (bind_params _) as [e|vs]; [reflexivity|].
  cbn [items issued]. rewrite Hok.
  destruct (resolve_columns (f :: fs) vs) as [asg|]; [|reflexivity].
  cbv zeta. cbn [items issued seq trace].
  destruct (existsb _ _);
    [unfold issued; cbn [items seq trace saved_items saved_seq];
     rewrite <- !app_assoc; reflexivity|].
  unfold bind at 1, commit. unfold bind at 1.
  rewrite select_by_id_run, Hok. cbn [items issued committed written].
  rewrite find_apply_update, F. simpl option_map.
  unfold bind, dict_from_row, ret, committed, issued, written.
  cbn [items seq trace saved_items saved_seq].
  rewrite <- !app_assoc. reflexivity.
Qed.

Lemma resolve_columns_fst fs vs asg :
  resolve_columns fs vs = Some asg ->
  map (fun cv => Some (fst cv)) asg = map column_of_string fs /\
  map snd asg = vs.
Proof.
  revert vs asg. induction fs as [|f fs IH]; intros [|v vs] asg H;
    simpl in H; try discriminate.
  - injection H as <-. auto.
  - destruct (column_of_string f) as [c|] eqn:Ec; [|discriminate].
    destruct (resolve_columns fs vs) as [rest|] eqn:Er; [|discriminate].
    injection H as <-. destruct (IH _ _ Er) as [H1 H2].
    simpl. rewrite H1, H2, Ec. auto.
Qed.

Lemma column_of_updatable f :
  In f updatable_fields ->
  exists c, column_of_string f = Some c /\ settable c = true.
Proof.
  simpl. intros [<-|[<-|[<-|[<-|[<-|[]]]]]]; eexists; split; reflexivity.
Qed.

Lemma present_fields_incl kv fs f : In f (present_fields kv fs) -> In f fs.
Proof. unfold present_fields. intros H. now apply filter_In in H. Qed.

Lemma resolve_settable kv vs asg :
  resolve_columns (present_fields kv updatable_fields) vs = Some asg ->
  Forall (fun cv => settable (fst cv) = true) asg.
Proof.
  intros H. apply resolve_columns_fst in H as [H _].
  apply Forall_forall. intros [c v] Hin.
  assert (Hc : In (Some c) (map column_of_string
                              (present_fields kv updatable_fields))).
  { rewrite <- H. apply in_map_iff. exists (c, v). auto. }
  apply in_map_iff in Hc as (f & Ef & Hf).
  apply present_fields_incl, column_of_updatable in Hf as (c' & Ec & Hs).
  simpl. congruence.
Qed.

Lemma update_item_effect item_id data now db :
  let resp := fst (update_item item_id data now db) in
  let db' := snd (update_item item_id data now db) in
  seq db' = seq db /\
  ((snd resp <> 200 /\ items db' = items db) \/
   (snd resp = 200 /\
    exists asg,
      Forall (fun cv => settable (fst cv) = true) asg /\
      items db' = map (apply_update asg item_id now) (items db) /\
      existsb (fun r => (id r =? item_id) && is_null (name r)) (items db')
        = false)).
Proof.
  intros resp db'. subst resp db'.
  assert (Hnd : validate_item_data data None <> inr [] ->
    seq (snd (update_item item_id data now db)) = seq db /\
    (snd (fst (update_item item_id data now db)) <> 200 /\
     items (snd (update_item item_id data now db)) = items db)).
  { intros Hv. rewrite update_item_run.
    destruct (negb (py_truthy data)); [repeat split; discriminate|].
    destruct (int64_ok item_id); [|repeat split; discriminate].
    destruct (find _ (items db)); [|repeat split; discriminate].
    destruct (validate_item_data data None) as [e|[|e es]];
      [repeat split; discriminate|contradiction|repeat split; discriminate]. }
  destruct data as [| | | | | |kv];
    try (destruct Hnd as [H1 H2];
         [intros Hv; apply validate_ok_dict in Hv as (kv & Hkv & _); discriminate|];
         split; [exact H1|left; exact H2]).
  rewrite update_item_dict_run.
  destruct kv as [|b kv0]; [split; [|left; split]; (reflexivity || discriminate)|].
  destruct (int64_ok item_id);
    [|split; [|left; split]; (reflexivity || discriminate)].
  destruct (find _ (items db));
    [|split; [|left; split]; (reflexivity || discriminate)].
  destruct (validate_item_data _ None) as [e|[|e es]];
    try (split; [|left; split]; (reflexivity || discriminate)).
  destruct (present_fields _ _) as [|f fs] eqn:Hpf;
    [split; [|left; split]; (reflexivity || discriminate)|].
  destruct (bind_params _) as [e|vs];
    [split; [|left; split]; (reflexivity || discriminate)|].
  destruct (resolve_columns (f :: fs) vs) as [asg|] eqn:Hr;
    [|split; [|left; split]; (reflexivity || discriminate)].
  cbv zeta.
  destruct (existsb _ _) eqn:Hnull;
    [split; [|left; split]; (reflexivity || discriminate)|].
  split; [reflexivity|]. right. split; [reflexivity|].
  exists asg. rewrite <- Hpf in Hr. apply resolve_settable in Hr.
  cbn [snd items]. auto.
Qed.

(** ** What every handler preserves

    A relation between the store before and after that is reflexive and
    transitive, and that the four statements that change the store
    respect, is respected by every handler. *)
Section Preservation.

Variable R : database -> database -> Prop.
Hypothesis R_refl : forall db, R db db.
Hypothesis R_trans : forall a b c, R a b -> R b c -> R a c.
Hypothesis R_issue : forall s, preserves R (issue s).
Hypothesis R_commit : preserves R commit.
Hypothesis R_insert : forall p now, preserves R (insert_item p now).
Hypothesis R_update :
  forall fs ps item_id now, preserves R (execute_update fs ps item_id now).
Hypothesis R_delete : forall item_id, preserves R (execute_delete item_id).

Lemma preserves_ret {A} (a : A) : preserves R (ret a).
Proof. intros db. apply R_refl. Qed.

Lemma preserves_raise {A} (e : exn) : preserves R (@raise A e).
Proof. intros db. apply R_refl. Qed.

Lemma preserves_lift {A} (c : exc A) : preserves R (lift c).
Proof. intros db. apply R_refl. Qed.

Lemma preserves_bind {A B} (c : M A) (k : A -> M B) :
  preserves R c -> (forall a, preserves R (k a)) -> preserves R (bind c k).
Proof.
  intros Hc Hk db. unfold bind. specialize (Hc db).
  destruct (c db) as [[e|a] db1]; [exact Hc|].
  simpl in Hc. eapply R_trans; [exact Hc|apply Hk].
Qed.

Lemma preserves_select_by_id item_id : preserves R (select_by_id item_id).
Proof.
  unfold select_by_id.
  apply preserves_bind; [apply preserves_lift|intros ?].
  apply preserves_bind; [apply R_issue|intros ?].
  apply preserves_bind; [|intros ?; apply preserves_ret].
  intros db. apply R_refl.
Qed.

Lemma preserves_dict_from_row r : preserves R (dict_from_row r).
Proof. destruct r; [apply preserves_ret|apply preserves_raise]. Qed.

Lemma preserves_catch_all (c : M response) db :
  preserves R c -> R db (snd (catch_all c db)).
Proof.
  intros H. unfold catch_all. specialize (H db).
  destruct (c db) as [[e|r] db1]; exact H.
Qed.

Lemma preserves_create_item data now db :
  R db (snd (create_item data now db)).
Proof.
  apply preserves_catch_all. unfold create_item_body.
  destruct (negb (py_truthy data)); [apply preserves_ret|].
  apply preserves_bind; [apply preserves_lift|]. intros [|e es];
    [|apply preserves_ret].
  do 5 (apply preserves_bind; [apply preserves_lift|intros ?]).
  apply preserves_bind; [apply R_insert|intros ?].
  apply preserves_bind; [apply R_commit|intros ?].
  apply preserves_bind; [apply preserves_select_by_id|intros ?].
  apply preserves_bind; [apply preserves_dict_from_row|intros ?].
  apply preserves_ret.
Qed.

Lemma preserves_update_item item_id data now db :
  R db (snd (update_item item_id data now db)).
Proof.
  apply preserves_catch_all. unfold update_item_body.
  destruct (negb (py_truthy data)); [apply preserves_ret|].
  apply preserves_bind; [apply preserves_select_by_id|]. intros [r|];
    [|apply preserves_ret].
  apply preserves_bind; [apply preserves_lift|]. intros [|e es];
    [|apply preserves_ret].
  unfold update_item_write.
  apply preserves_bind; [apply preserves_lift|]. intros [[|f fs] ps];
    [apply preserves_ret|].
  apply preserves_bind; [apply R_update|intros ?].
  apply preserves_bind; [apply R_commit|intros ?].
  apply preserves_bind; [apply preserves_select_by_id|intros ?].
  apply preserves_bind; [apply preserves_dict_from_row|intros ?].
  apply preserves_ret.
Qed.

Lemma preserves_delete_item item_id db :
  R db (snd (delete_item item_id db)).
Proof.
  apply preserves_catch_all. unfold delete_item_body.
  apply preserves_bind; [apply preserves_select_by_id|]. intros [r|];
    [|apply preserves_ret].
  apply preserves_bind; [apply R_delete|intros ?].
  apply preserves_bind; [apply R_commit|intros ?].
  apply preserves_ret.
Qed.

Lemma preserves_insert_all l now : preserves R (insert_all l now).
Proof.
  induction l as [|p l IH]; simpl; [apply preserves_ret|].
  apply preserves_bind; [apply R_insert|intros ?; exact IH].
Qed.

Lemma preserves_close_db arguments : preserves R (close_db arguments).
Proof.
  unfold close_db.
  apply preserves_bind; [apply preserves_lift|intros ?].
  apply preserves_bind; [apply preserves_lift|intros ?].
  apply preserves_ret.
Qed.

Lemma preserves_with_app_context {A} (block : M A) :
  preserves R block -> preserves R (with_app_context block).
Proof.
  intros H db. unfold with_app_context. specialize (H db).
  destruct (block db) as [r db1]. cbn [snd] in H.
  match goal with
  | |- context [close_db ?l db1] =>
      pose proof (preserves_close_db l db1) as Hc;
      destruct (close_db l db1) as [[e|u] db2]
  end; cbn [snd] in *; eapply R_trans; eauto.
Qed.

Lemma preserves_init_db_block now : preserves R (init_db_block now).
Proof.
  unfold init_db_block. apply preserves_bind.
  - unfold select_count.
    apply preserves_bind; [apply R_issue|intros ?].
    apply preserves_bind; [|intros ?; apply preserves_ret].
    intros db0. apply R_refl.
  - intros count. apply preserves_bind; [|intros ?; apply R_commit].
    destruct (count =? 0); [apply preserves_insert_all|apply preserves_ret].
Qed.

Lemma preserves_init_db now db : R db (snd (init_db now db)).
Proof.
  unfold init_db. apply preserves_with_app_context, preserves_init_db_block.
Qed.

End Preservation.

(** ** Ids and the AUTOINCREMENT counter *)

Lemma StronglySorted_lt_snoc l y :
  StronglySorted Z.lt l -> (forall x, In x l -> x < y) ->
  StronglySorted Z.lt (l ++ [y]).
Proof.
  induction 1 as [|a l Hs IH Ha]; intros Hy; simpl.
  - repeat constructor.
  - constructor.
    + apply IH. intros x Hx. apply Hy. now right.
    + apply Forall_app. split; [exact Ha|].
      constructor; [|constructor]. apply Hy. now left.
Qed.

Lemma StronglySorted_lt_NoDup l : StronglySorted Z.lt l -> NoDup l.
Proof.
  induction 1 as [|a l Hs IH Ha]; constructor; [|exact IH].
  intros Hin. rewrite Forall_forall in Ha. apply Ha in Hin. lia.
Qed.

Lemma StronglySorted_map_filter {A B} (R : B -> B -> Prop) (f : A -> B) p l :
  StronglySorted R (map f l) -> StronglySorted R (map f (filter p l)).
Proof.
  induction l as [|a l IH]; intros H; simpl in *; [constructor|].
  inversion H as [|? ? Hs Ha]; subst.
  destruct (p a); [|now apply IH]. simpl. constructor; [now apply IH|].
  rewrite Forall_forall in *. intros y Hy. apply Ha.
  apply in_map_iff in Hy as (x & <- & Hx). apply filter_In in Hx as [Hx _].
  now apply in_map.
Qed.

Lemma Forall_map_filter {A B} (P : B -> Prop) (f : A -> B) p l :
  Forall P (map f l) -> Forall P (map f (filter p l)).
Proof.
  rewrite !Forall_forall. intros H y Hy. apply H.
  apply in_map_iff in Hy as (x & <- & Hx). apply filter_In in Hx as [Hx _].
  now apply in_map.
Qed.

Lemma ids_kept_same db db' :
  map id (items db') = map id (items db) -> seq db' = seq db ->
  ids_kept db db'.
Proof.
  intros Hi Hs. unfold ids_kept, store_inv. rewrite Hi, Hs.
  split; [auto|lia].
Qed.

Lemma ids_kept_insert p now : preserves ids_kept (insert_item p now).
Proof.
  intros db. destruct p as [[[[n d] c] pr] q]. rewrite insert_item_run.
  destruct (bind_params _) as [e|[|vn [|vd [|vc [|vpr [|vq [|]]]]]]];
    try (apply ids_kept_same; reflexivity).
  destruct (2 ^ 63 <=? next_id db); [apply ids_kept_same; reflexivity|].
  destruct (is_null _); [apply ids_kept_same; reflexivity|].
  cbn [snd]. unfold ids_kept, store_inv. cbn [items seq written].
  split; [|unfold next_id; lia].
  intros [Hs Hb]. rewrite map_app. simpl map.
  change (id (inserted_row (vn, vd, vc, vpr, vq) now db)) with (next_id db).
  assert (Hlt : forall x, In x (map id (items db)) -> x < next_id db).
  { intros x Hx. rewrite Forall_forall in Hb. apply Hb in Hx.
    unfold next_id. lia. }
  split.
  - now apply StronglySorted_lt_snoc.
  - apply Forall_app. split.
    + apply Forall_forall. intros x Hx. apply Hlt in Hx. lia.
    + constructor; [lia|constructor].
Qed.

Lemma ids_kept_update fs ps item_id now :
  preserves ids_kept (execute_update fs ps item_id now).
Proof.
  intros db. rewrite execute_update_run.
  destruct (bind_params ps) as [e|vs]; [apply ids_kept_same; reflexivity|].
  destruct (int64_ok item_id); [|apply ids_kept_same; reflexivity].
  destruct (resolve_columns fs vs) as [asg|];
    [|apply ids_kept_same; reflexivity].
  cbv zeta. destruct (existsb _ _); apply ids_kept_same; try reflexivity.
  cbn [snd items written]. apply map_apply_update_ids.
Qed.

Lemma ids_kept_delete item_id : preserves ids_kept (execute_delete item_id).
Proof.
  intros db. unfold execute_delete, bind, lift, bind_param, issue.
  destruct (int64_ok item_id); [|apply ids_kept_same; reflexivity].
  cbn [snd]. unfold ids_kept, store_inv. cbn [items seq issued written].
  split; [|lia]. intros [Hs Hb]. split.
  - now apply StronglySorted_map_filter.
  - now apply Forall_map_filter.
Qed.

Lemma ids_kept_refl db : ids_kept db db.
Proof. unfold ids_kept. split; [auto|lia]. Qed.

Lemma ids_kept_trans a b c : ids_kept a b -> ids_kept b c -> ids_kept a c.
Proof. unfold ids_kept. intros [H1 L1] [H2 L2]. split; [auto|lia]. Qed.

Lemma ids_kept_issue s : preserves ids_kept (issue s).
Proof. intros db. apply ids_kept_same; reflexivity. Qed.

Lemma ids_kept_commit : preserves ids_kept commit.
Proof. intros db. apply ids_kept_same; reflexivity. Qed.

(** X5: the ids of the table are unique and in increasing order along the
    table, and none is above the AUTOINCREMENT counter. This holds of the
    empty store, and create, update, delete and [init_db] keep it on every
    input, whatever they answer; none of them lowers the counter. *)
Theorem store_inv_preserved :
  store_inv empty_db /\
  forall db,
    store_inv db ->
    NoDup (map id (items db)) /\
    (forall data now,
       store_inv (snd (create_item data now db)) /\
       seq db <= seq (snd (create_item data now db))) /\
    (forall item_id data now,
       store_inv (snd (update_item item_id data now db)) /\
       seq db <= seq (snd (update_item item_id data now db))) /\
    (forall item_id,
       store_inv (snd (delete_item item_id db)) /\
       seq db <= seq (snd (delete_item item_id db))) /\
    (forall now,
       store_inv (snd (init_db now db)) /\
       seq db <= seq (snd (init_db now db))).
Proof.
  split; [split; constructor|].
  intros db Hinv. split; [apply StronglySorted_lt_NoDup, Hinv|].
  pose proof ids_kept_refl as H1. pose proof ids_kept_trans as H2.
  pose proof ids_kept_issue as H3. pose proof ids_kept_insert as H4.
  pose proof ids_kept_update as H5. pose proof ids_kept_delete as H6.
  pose proof ids_kept_commit as Hc.
  split; [|split; [|split]].
  - intros data now.
    destruct (preserves_create_item ids_kept H1 H2 H3 Hc H4 data now db); auto.
  - intros item_id data now.
    destruct (preserves_update_item ids_kept H1 H2 H3 Hc H5 item_id data now db);
      auto.
  - intros item_id.
    destruct (preserves_delete_item ids_kept H1 H2 H3 Hc H6 item_id db); auto.
  - intros now.
    destruct (preserves_init_db ids_kept H1 H2 H3 Hc H4 now db); auto.
Qed.

(** ** The typing of the columns *)

Lemma affinity_text_shape v : text_or_null (apply_affinity AffText v) = true.
Proof. destruct v; reflexivity. Qed.

Lemma affinity_real_not_int v : is_int (apply_affinity AffReal v) = false.
Proof.
  destruct v as [| | |s]; try reflexivity.
  simpl. destruct (text_numeric s) as [[]|]; reflexivity.
Qed.

(** Typing up to the NOT NULL of [name]. *)
Lemma assigned_shape asg r :
  text_or_null (name r) = true -> text_or_null (description r) = true ->
  text_or_null (category r) = true -> is_int (price r) = false ->
  let r' := apply_assignments asg r in
  text_or_null (name r') = true /\ text_or_null (description r') = true /\
  text_or_null (category r') = true /\ is_int (price r') = false.
Proof.
  revert r. induction asg as [|[c v] asg IH]; intros r Hn Hd Hc Hp;
    [simpl; auto|].
  cbn [apply_assignments].
  apply IH; destruct c;
    cbn [set_column name description category price column_affinity];
    auto using affinity_text_shape, affinity_real_not_int.
Qed.

Lemma is_text_text_or_null v : is_text v = true -> text_or_null v = true.
Proof. destruct v; simpl; congruence. Qed.

Lemma text_not_null v :
  text_or_null v = true -> is_null v = false -> is_text v = true.
Proof. destruct v; simpl; congruence. Qed.

Lemma typing_kept_insert p now : preserves typing_kept (insert_item p now).
Proof.
  intros db. destruct p as [[[[n d] c] pr] q]. rewrite insert_item_run.
  destruct (bind_params _) as [e|[|vn [|vd [|vc [|vpr [|vq [|]]]]]]];
    try (intros H; exact H).
  destruct (2 ^ 63 <=? next_id db); [intros H; exact H|].
  destruct (is_null _) eqn:Hn; [intros H; exact H|].
  intros H. cbn [snd items written]. apply Forall_app. split; [exact H|].
  constructor; [|constructor].
  unfold row_typed, inserted_row. cbn [name description category price].
  auto using affinity_text_is_text, affinity_text_shape, affinity_real_not_int.
Qed.

Lemma typing_kept_update fs ps item_id now :
  preserves typing_kept (execute_update fs ps item_id now).
Proof.
  intros db. rewrite execute_update_run.
  destruct (bind_params ps) as [e|vs]; [intros H; exact H|].
  destruct (int64_ok item_id); [|intros H; exact H].
  destruct (resolve_columns fs vs) as [asg|]; [|intros H; exact H].
  cbv zeta. destruct (existsb _ _) eqn:Hnull; [intros H; exact H|].
  intros H. cbn [snd items written]. rewrite Forall_forall in *.
  intros r' Hr'. apply in_map_iff in Hr' as (r & <- & Hr).
  pose proof (H r Hr) as (Tn & Td & Tc & Tp).
  unfold apply_update. destruct (id r =? item_id) eqn:E; [|now apply H].
  destruct (assigned_shape asg r (is_text_text_or_null _ Tn) Td Tc Tp)
    as (Sn & Sd & Sc & Sp).
  unfold row_typed, update_timestamp.
  cbn [name description category price set_column].
  repeat split; auto.
  apply text_not_null; [exact Sn|].
  assert (Hall : forallb (fun x => negb ((id x =? item_id) && is_null (name x)))
                   (map (apply_update asg item_id now) (items db)) = true).
  { rewrite forallb_forall. intros x Hx.
    destruct ((id x =? item_id) && is_null (name x)) eqn:Ex; [|reflexivity].
    exfalso. assert (Hex : existsb (fun r0 => (id r0 =? item_id)
                                     && is_null (name r0))
                             (map (apply_update asg item_id now) (items db))
                           = true)
      by (apply existsb_exists; eauto).
    congruence. }
  rewrite forallb_forall in Hall.
  specialize (Hall (apply_update asg item_id now r)
                   (in_map _ _ _ Hr)).
  rewrite apply_update_id, E in Hall. unfold apply_update in Hall.
  rewrite E in Hall. unfold update_timestamp in Hall.
  cbn [name set_column] in Hall. simpl in Hall.
  now apply negb_true_iff in Hall.
Qed.

Lemma typing_kept_delete item_id : preserves typing_kept (execute_delete item_id).
Proof.
  intros db. unfold execute_delete, bind, lift, bind_param, issue.
  destruct (int64_ok item_id); [|intros H; exact H].
  intros H. cbn [snd items issued written]. rewrite Forall_forall in *.
  intros r Hr. apply filter_In in Hr as [Hr _]. now apply H.
Qed.

(** X6: the columns hold what the schema declares, on every store the
    handlers can build: [name] is always a text (TEXT NOT NULL),
    [description] and [category] a text or NULL, [price] never an integer
    (REAL affinity). Create, update, delete and [init_db] keep this on
    every input. *)
Theorem rows_typed_preserved :
  Forall row_typed (items empty_db) /\
  forall db,
    Forall row_typed (items db) ->
    (forall data now,
       Forall row_typed (items (snd (create_item data now db)))) /\
    (forall item_id data now,
       Forall row_typed (items (snd (update_item item_id data now db)))) /\
    (forall item_id,
       Forall row_typed (items (snd (delete_item item_id db)))) /\
    (forall now, Forall row_typed (items (snd (init_db now db)))).
Proof.
  split; [constructor|]. intros db Ht.
  assert (H1 : forall d, typing_kept d d) by (intros d H; exact H).
  assert (H2 : forall a b c, typing_kept a b -> typing_kept b c ->
                             typing_kept a c)
    by (unfold typing_kept; auto).
  assert (H3 : forall s, preserves typing_kept (issue s))
    by (intros s d H; exact H).
  assert (Hc : preserves typing_kept commit) by (intros d H; exact H).
  pose proof typing_kept_insert as H4.
  pose proof typing_kept_update as H5. pose proof typing_kept_delete as H6.
  split; [|split; [|split]].
  - intros data now.
    exact (preserves_create_item typing_kept H1 H2 H3 Hc H4 data now db Ht).
  - intros item_id data now.
    exact (preserves_update_item typing_kept H1 H2 H3 Hc H5 item_id data now db Ht).
  - intros item_id.
    exact (preserves_delete_item typing_kept H1 H2 H3 Hc H6 item_id db Ht).
  - intros now.
    exact (preserves_init_db typing_kept H1 H2 H3 Hc H4 now db Ht).
Qed.

(** ** What an update touches *)

Lemma apply_update_created_at asg item_id now r :
  Forall (fun cv => settable (fst cv) = true) asg ->
  created_at (apply_update asg item_id now r) = created_at r.
Proof.
  intros Hs. unfold apply_update. destruct (id r =? item_id); [|reflexivity].
  unfold update_timestamp. cbn [created_at set_column].
  apply apply_assignments_created_at. intros v Hin.
  rewrite Forall_forall in Hs. apply Hs in Hin. discriminate.
Qed.

Lemma apply_update_other asg item_id now r :
  id r <> item_id -> apply_update asg item_id now r = r.
Proof.
  intros H. unfold apply_update. apply Z.eqb_neq in H. now rewrite H.
Qed.

(** X7: whatever the id, the body and the answer, an update never adds,
    removes or reorders rows, never changes an id, a [created_at] or the
    AUTOINCREMENT counter, and never changes a row with another id; unless
    it answers 200 it changes no row at all. *)
Theorem update_item_keeps_identity item_id data now db :
  let db' := snd (update_item item_id data now db) in
  map id (items db') = map id (items db) /\
  map created_at (items db') = map created_at (items db) /\
  seq db' = seq db /\
  (forall n r, nth_error (items db) n = Some r -> id r <> item_id ->
     nth_error (items db') n = Some r) /\
  (snd (fst (update_item item_id data now db)) <> 200 ->
   items db' = items db).
Proof.
  intros db'. subst db'.
  destruct (update_item_effect item_id data now db) as [Hseq H].
  cbv zeta in Hseq.
  destruct H as [[Hst Hit]|(Hst & asg & Hs & Hit & _)].
  - rewrite Hit. repeat split; auto.
  - rewrite Hit. split; [apply map_apply_update_ids|].
    split; [|split; [exact Hseq|split]].
    + rewrite map_map. apply map_ext. intros r.
      now apply apply_update_created_at.
    + intros n r Hn Hr. rewrite nth_error_map, Hn. simpl.
      now rewrite apply_update_other.
    + intros Hne. contradiction.
Qed.

(** ** What a successful update writes *)

Lemma column_value_set_same c v r :
  c <> Cid -> column_value c (set_column c v r) = v.
Proof. destruct c; try reflexivity. congruence. Qed.

Lemma column_value_set_other c c' v r :
  c <> c' -> column_value c (set_column c' v r) = column_value c r.
Proof. destruct c, c'; try reflexivity; congruence. Qed.

Lemma apply_assignments_other c asg r :
  (forall cv, In cv asg -> fst cv <> c) ->
  column_value c (apply_assignments asg r) = column_value c r.
Proof.
  revert r. induction asg as [|[c' v] asg IH]; intros r H; [reflexivity|].
  cbn [apply_assignments]. rewrite IH.
  - apply column_value_set_other. intros E. apply (H (c', v)); [now left|].
    now symmetry.
  - intros cv Hcv. apply H. now right.
Qed.

Lemma resolved_columns_from kv fs vs asg cv :
  resolve_columns (present_fields kv fs) vs = Some asg -> In cv asg ->
  In (Some (fst cv)) (map column_of_string fs).
Proof.
  intros H Hin. apply resolve_columns_fst in H as [H _].
  assert (Hc : In (Some (fst cv)) (map column_of_string (present_fields kv fs))).
  { rewrite <- H. apply in_map_iff. exists cv. auto. }
  apply in_map_iff in Hc as (f & Ef & Hf).
  apply in_map_iff. exists f. split; [exact Ef|].
  eapply present_fields_incl, Hf.
Qed.

Lemma assigned_values kv fs :
  NoDup (map column_of_string fs) ->
  forall vs asg r,
    bind_params (present_values kv fs) = inr vs ->
    resolve_columns (present_fields kv fs) vs = Some asg ->
    forall f c, In f fs -> column_of_string f = Some c -> c <> Cid ->
      match dict_get kv f with
      | None => column_value c (apply_assignments asg r) = column_value c r
      | Some v =>
          exists x, bind_param v = inr x /\
            column_value c (apply_assignments asg r) =
            apply_affinity (column_affinity c) x
      end.
Proof.
  induction fs as [|f0 fs IH]; intros Hnd vs asg r Hb Hr f c Hin Hc Hid;
    [contradiction|].
  inversion Hnd as [|? ? Hnotin Hnd']; subst.
  unfold present_fields, present_values in Hb, Hr. cbn [filter flat_map] in Hb, Hr.
  unfold dict_has in Hr at 1.
  fold (present_fields kv fs) in Hr. fold (present_values kv fs) in Hb.
  destruct (dict_get kv f0) as [v0|] eqn:E0.
  - cbn [app bind_params] in Hb. unfold exc_bind, exc_ret in Hb.
    destruct (bind_param v0) as [e|x0] eqn:Eb; [discriminate|].
    destruct (bind_params (present_values kv fs)) as [e|xs] eqn:Ebs;
      [discriminate|].
    injection Hb as <-. cbn [resolve_columns] in Hr.
    destruct (column_of_string f0) as [c0|] eqn:Ec0; [|discriminate].
    destruct (resolve_columns (present_fields kv fs) xs) as [asg'|] eqn:Er;
      [|discriminate].
    injection Hr as <-. cbn [apply_assignments].
    assert (Hfresh : forall cv, In cv asg' -> fst cv <> c0).
    { intros cv Hcv E. apply Hnotin. rewrite <- E.
      eapply resolved_columns_from; eauto. }
    destruct Hin as [<-|Hin].
    + rewrite E0. exists x0. split; [exact Eb|].
      assert (c = c0) by congruence. subst c0.
      rewrite apply_assignments_other by exact Hfresh.
      now apply column_value_set_same.
    + assert (Hne : c <> c0).
      { intros ->. apply Hnotin. rewrite <- Hc. now apply in_map. }
      specialize (IH Hnd' xs asg'
                    (set_column c0 (apply_affinity (column_affinity c0) x0) r)
                    eq_refl Er f c Hin Hc Hid).
      destruct (dict_get kv f) as [v|]; [exact IH|].
      rewrite IH. now apply column_value_set_other.
  - cbn [app] in Hb.
    destruct Hin as [<-|Hin].
    + rewrite E0. apply apply_assignments_other.
      intros cv Hcv E. apply Hnotin. rewrite Hc, <- E.
      eapply resolved_columns_from; eauto.
    + exact (IH Hnd' vs asg r Hb Hr f c Hin Hc Hid).
Qed.

Lemma updatable_columns_distinct : NoDup (map column_of_string updatable_fields).
Proof.
  repeat constructor; simpl; intros H;
    repeat (destruct H as [H|H]; [discriminate|]); exact H.
Qed.

Lemma bind_params_all l :
  (forall v, In v l -> exists x, bind_param v = inr x) ->
  exists vs, bind_params l = inr vs.
Proof.
  induction l as [|v l IH]; intros H; [eexists; reflexivity|].
  destruct (H v (or_introl eq_refl)) as [x Hx].
  destruct IH as [vs Hvs]; [intros w Hw; apply H; now right|].
  exists (x :: vs). simpl. rewrite Hx, Hvs. reflexivity.
Qed.

Lemma present_values_from kv fs v :
  In v (present_values kv fs) -> exists f, In f fs /\ dict_get kv f = Some v.
Proof.
  unfold present_values. intros H. apply in_flat_map in H as (f & Hf & Hv).
  exists f. split; [exact Hf|].
  destruct (dict_get kv f) as [w|]; [|contradiction].
  destruct Hv as [->|[]]. reflexivity.
Qed.

Lemma resolve_present kv fs :
  (forall f, In f fs -> exists c, column_of_string f = Some c) ->
  forall vs, bind_params (present_values kv fs) = inr vs ->
  exists asg, resolve_columns (present_fields kv fs) vs = Some asg.
Proof.
  induction fs as [|f fs IH]; intros Hc vs Hb.
  - injection Hb as <-. eexists; reflexivity.
  - unfold present_fields, present_values in *. cbn [filter flat_map] in *.
    unfold dict_has at 1.
    destruct (dict_get kv f) as [v|].
    + cbn [app bind_params] in Hb. unfold exc_bind, exc_ret in Hb.
      destruct (bind_param v) as [e|x]; [discriminate|].
      destruct (bind_params _) as [e|xs] eqn:E; [discriminate|].
      injection Hb as <-.
      destruct (IH (fun g Hg => Hc g (or_intror Hg)) xs eq_refl) as [asg Ha].
      destruct (Hc f (or_introl eq_refl)) as [c Ec].
      exists ((c, x) :: asg). cbn [resolve_columns]. now rewrite Ec, Ha.
    + apply IH; [intros g Hg; apply Hc; now right|exact Hb].
Qed.

Lemma updated_values kv now vs asg r f c :
  bind_params (present_values kv updatable_fields) = inr vs ->
  resolve_columns (present_fields kv updatable_fields) vs = Some asg ->
  In f updatable_fields -> column_of_string f = Some c ->
  match dict_get kv f with
  | None => column_value c (update_timestamp now (apply_assignments asg r))
            = column_value c r
  | Some v =>
      exists x, bind_param v = inr x /\
        column_value c (update_timestamp now (apply_assignments asg r))
        = apply_affinity (column_affinity c) x
  end.
Proof.
  intros Hb Hr Hf Hc.
  pose proof (column_of_updatable f Hf) as (c' & Ec & Hs).
  rewrite Hc in Ec. injection Ec as <-.
  assert (Hu : column_value c (update_timestamp now (apply_assignments asg r))
               = column_value c (apply_assignments asg r)).
  { unfold update_timestamp. apply column_value_set_other.
    intros ->. discriminate. }
  rewrite Hu.
  apply (assigned_values kv updatable_fields updatable_columns_distinct
           vs asg r Hb Hr f c Hf Hc).
  intros ->. discriminate.
Qed.

(** X8: an update of a JSON object is answered 200 whenever the id fits
    64 bits and is stored, the body passes validation, every value of a
    field it carries can be bound, and the name is not NaN. Whenever it is
    answered 200, the returned row is the stored row with that id, changed
    as follows: each of name, description, category, price, quantity that
    the body carries holds the bound value under the affinity of its
    column, each one the body does not carry is as before; [id] and
    [created_at] are as before and [updated_at] is the
    [CURRENT_TIMESTAMP] of the update; and reading the id afterwards
    returns that row. *)
Theorem update_item_success item_id kv now db :
  (int64_ok item_id = true ->
   (exists r, In r (items db) /\ id r = item_id) ->
   validate_item_data (JObj kv) None = inr [] ->
   (forall f v, In f updatable_fields -> dict_get kv f = Some v ->
      exists x, bind_param v = inr x) ->
   (forall v, dict_get kv "name" = Some v -> bind_param v <> inr SNull) ->
   snd (fst (update_item item_id (JObj kv) now db)) = 200) /\
  (forall m item st db',
     update_item item_id (JObj kv) now db = ((MessageItem m item, st), db') ->
     st = 200 /\
     exists r0,
       find (fun r => id r =? item_id) (items db) = Some r0 /\
       id item = item_id /\
       created_at item = created_at r0 /\
       updated_at item = current_timestamp now /\
       is_text (name item) = true /\
       (forall f c, In f updatable_fields -> column_of_string f = Some c ->
          match dict_get kv f with
          | None => column_value c item = column_value c r0
          | Some v =>
              exists x, bind_param v = inr x /\
                column_value c item = apply_affinity (column_affinity c) x
          end) /\
       get_item item_id db' =
         ((ItemBody item, 200), issued db' [SelectById item_id])).
Proof.
  split.
  - intros Hok Hex Hv Hbind Hname.
    apply find_id_some in Hex as [r0 F].
    rewrite update_item_dict_run, Hok, F, Hv.
    pose proof (validate_dict kv [] Hv) as Hd.
    destruct (missing_or_falsy kv "name") eqn:Hm; [discriminate|]. clear Hd.
    unfold missing_or_falsy in Hm.
    destruct (dict_get kv "name") as [vn|] eqn:En; [|discriminate].
    destruct kv as [|b kv0]; [discriminate|]. set (kv := b :: kv0) in *.
    destruct (present_fields kv updatable_fields) as [|f fs] eqn:Hpf.
    { exfalso. assert (Hin : In "name" (present_fields kv updatable_fields)).
      { apply filter_In. split; [now left|]. unfold dict_has. now rewrite En. }
      rewrite Hpf in Hin. contradiction. }
    destruct (bind_params_all (present_values kv updatable_fields)) as [vs Hb].
    { intros v Hin. apply present_values_from in Hin as (g & Hg & Eg). eauto. }
    rewrite Hb.
    destruct (resolve_present kv updatable_fields) with (vs := vs) as [asg Hr];
      [intros g Hg; apply column_of_updatable in Hg as (c & Ec & _); eauto
      |exact Hb|].
    assert (Hr0 := Hr). rewrite Hpf in Hr. rewrite Hr. cbv zeta.
    destruct (existsb _ _) eqn:Hnull; [|reflexivity].
    exfalso. apply existsb_exists in Hnull as (r' & Hr' & Hn).
    apply in_map_iff in Hr' as (r & <- & Hin).
    apply andb_true_iff in Hn as [Hid Hnull].
    rewrite apply_update_id in Hid. unfold apply_update in Hnull.
    rewrite Hid in Hnull.
    pose proof (updated_values kv now vs asg r "name" Cname Hb Hr0
                  (or_introl eq_refl) eq_refl) as Hval.
    rewrite En in Hval. destruct Hval as (x & Ex & Hval).
    cbn [column_value column_affinity] in Hval. rewrite Hval in Hnull.
    destruct x; try discriminate. now apply (Hname vn).
  - intros m item st db'. rewrite update_item_dict_run.
    destruct kv as [|b kv0]; [discriminate|]. set (kv := b :: kv0) in *.
    destruct (int64_ok item_id) eqn:Hok; [|discriminate].
    destruct (find _ (items db)) as [r0|] eqn:F; [|discriminate].
    destruct (validate_item_data _ None) as [e|[|e es]] eqn:Hv;
      try discriminate.
    destruct (present_fields kv updatable_fields) as [|f fs] eqn:Hpf;
      [discriminate|].
    destruct (bind_params _) as [e|vs] eqn:Hb; [discriminate|].
    destruct (resolve_columns (f :: fs) vs) as [asg|] eqn:Hr; [|discriminate].
    cbv zeta. destruct (existsb _ _) eqn:Hnull; [discriminate|].
    intros H. injection H as _ <- <- <-.
    split; [reflexivity|]. exists r0. split; [reflexivity|].
    pose proof (find_some _ _ F) as [Hin Hid]. cbv beta in Hid.
    assert (Hr' := Hr). rewrite <- Hpf in Hr'.
    assert (Hitem : apply_update asg item_id now r0
                    = update_timestamp now (apply_assignments asg r0))
      by (unfold apply_update; now rewrite Hid).
    rewrite !Hitem.
    split; [unfold update_timestamp; cbn [id set_column];
            rewrite apply_assignments_id; now apply Z.eqb_eq|].
    split.
    { unfold update_timestamp. cbn [created_at set_column].
      apply apply_assignments_created_at. intros v Hc.
      pose proof (resolve_settable kv vs asg Hr') as Hs.
      rewrite Forall_forall in Hs. apply Hs in Hc. discriminate. }
    split; [reflexivity|].
    split.
    { pose proof (validate_dict kv [] Hv) as Hd.
      destruct (missing_or_falsy kv "name") eqn:Hm; [discriminate|]. clear Hd.
      unfold missing_or_falsy in Hm.
      destruct (dict_get kv "name") as [vn|] eqn:En; [|discriminate].
      pose proof (updated_values kv now vs asg r0 "name" Cname Hb Hr'
                    (or_introl eq_refl) eq_refl) as Hval.
      rewrite En in Hval. destruct Hval as (x & Ex & Hval).
      cbn [column_value column_affinity] in Hval.
      apply text_not_null; [rewrite Hval; apply affinity_text_shape|].
      destruct (is_null _) eqn:Hn; [|reflexivity].
      exfalso.
      assert (Hex : existsb (fun r => (id r =? item_id) && is_null (name r))
                      (map (apply_update asg item_id now) (items db)) = true).
      { apply existsb_exists. exists (apply_update asg item_id now r0).
        split; [now apply in_map|].
        rewrite apply_update_id, Hid, Hitem. simpl. exact Hn. }
      congruence. }
    split; [intros g c Hg Hc; now apply updated_values with (vs := vs)|].
    rewrite get_item_run, Hok. cbn [items].
    rewrite find_apply_update, F. simpl. rewrite Hitem. reflexivity.
Qed.

(** ** GET /items/<id>, and rows with other ids *)

Lemma find_unique_id item_id l r :
  NoDup (map id l) -> In r l -> id r = item_id ->
  find (fun x => id x =? item_id) l = Some r.
Proof.
  induction l as [|a l IH]; intros Hnd Hin Hid; [contradiction|].
  simpl in *. inversion Hnd as [|? ? Hna Hnd']; subst.
  destruct Hin as [->|Hin].
  - now rewrite Z.eqb_refl.
  - destruct (id a =? id r) eqn:E; [|now apply IH].
    apply Z.eqb_eq in E. exfalso. apply Hna. rewrite E. now apply in_map.
Qed.

(** X9: for an id that fits 64 bits, GET /items/<id> answers 200 with a
    stored row of that id when there is one - the only one on a store
    whose ids are unique - and 404 [Item not found] when there is none;
    for an id beyond 64 bits the lookup raises and the answer is 500. It
    never changes a row or the counter. *)
Theorem get_item_status item_id db :
  (int64_ok item_id = true ->
   (forall r, fst (get_item item_id db) = (ItemBody r, 200) ->
      In r (items db) /\ id r = item_id) /\
   ((exists r, In r (items db) /\ id r = item_id) ->
    exists r, fst (get_item item_id db) = (ItemBody r, 200)) /\
   ((forall r, In r (items db) -> id r <> item_id) ->
    fst (get_item item_id db) = (Error "Item not found", 404)) /\
   (store_inv db -> forall r, In r (items db) -> id r = item_id ->
    fst (get_item item_id db) = (ItemBody r, 200))) /\
  (int64_ok item_id = false ->
   get_item item_id db = ((Error "Internal server error", 500), db)) /\
  items (snd (get_item item_id db)) = items db /\
  seq (snd (get_item item_id db)) = seq db.
Proof.
  rewrite get_item_run.
  destruct (int64_ok item_id); (split; [|split; [|split; reflexivity]]);
    try discriminate; try reflexivity.
  intros _. cbn [fst]. split; [|split; [|split]].
  - intros r H. destruct (find _ (items db)) as [r'|] eqn:F; [|discriminate].
    injection H as ->. apply find_some in F as [Hin E].
    apply Z.eqb_eq in E. auto.
  - intros Hex. apply find_id_some in Hex as [r ->]. eauto.
  - intros Hno. apply find_id_none in Hno. now rewrite Hno.
  - intros [Hs _] r Hin Hid. apply StronglySorted_lt_NoDup in Hs.
    now rewrite (find_unique_id item_id (items db) r Hs Hin Hid).
Qed.

Lemma find_filter_other item_id j l :
  j <> item_id ->
  find (fun r => id r =? j) (filter (fun r => negb (id r =? item_id)) l) =
  find (fun r => id r =? j) l.
Proof.
  intros Hj. induction l as [|a l IH]; [reflexivity|].
  simpl. destruct (id a =? item_id) eqn:E; simpl.
  - apply Z.eqb_eq in E. rewrite E.
    assert ((item_id =? j) = false) by (apply Z.eqb_neq; congruence).
    now rewrite H.
  - destruct (id a =? j); [reflexivity|exact IH].
Qed.

Lemma find_filter_self item_id l :
  find (fun r => id r =? item_id) (filter (fun r => negb (id r =? item_id)) l)
  = None.
Proof.
  apply find_id_none. intros r Hr E. apply filter_In in Hr as [_ Hr].
  apply negb_true_iff, Z.eqb_neq in Hr. contradiction.
Qed.

Lemma delete_item_rows item_id db :
  (items (snd (delete_item item_id db)) = items db \/
   items (snd (delete_item item_id db))
   = filter (fun r => negb (id r =? item_id)) (items db)) /\
  seq (snd (delete_item item_id db)) = seq db.
Proof.
  rewrite delete_item_run.
  destruct (int64_ok item_id); [|split; [now left|reflexivity]].
  destruct (find _ (items db));
    cbn [snd]; (split; [|reflexivity]); [now right|now left].
Qed.

(** X10: a delete touches the rows of its id only. After DELETE of an id
    that fits 64 bits, reading that id answers 404, whether or not a row
    was deleted; reading any other id answers what it answered before; the
    rows that remain are the rows of the other ids, in their order; the
    counter is unchanged. *)
Theorem delete_item_frame item_id db :
  let db' := snd (delete_item item_id db) in
  (int64_ok item_id = true ->
   fst (get_item item_id db') = (Error "Item not found", 404)) /\
  (forall j, j <> item_id -> fst (get_item j db') = fst (get_item j db)) /\
  (items db' = items db \/
   items db' = filter (fun r => negb (id r =? item_id)) (items db)) /\
  (forall r, In r (items db) -> id r <> item_id -> In r (items db')) /\
  seq db' = seq db.
Proof.
  intros db'. subst db'. rewrite delete_item_run.
  destruct (int64_ok item_id) eqn:Hok.
  - destruct (find _ (items db)) as [r0|] eqn:F.
    + cbn [snd]. split; [|split; [|split; [|split]]].
      * intros _. rewrite get_item_run, Hok. cbn [items fst].
        now rewrite find_filter_self.
      * intros j Hj. rewrite !get_item_run.
        destruct (int64_ok j); [|reflexivity]. cbn [items fst].
        now rewrite find_filter_other.
      * now right.
      * intros r Hr Hne. cbn [items]. apply filter_In. split; [exact Hr|].
        now apply negb_true_iff, Z.eqb_neq.
      * reflexivity.
    + cbn [snd]. split; [|split; [|split; [|split]]].
      * intros _. rewrite get_item_run, Hok. cbn [items issued fst].
        now rewrite F.
      * intros j Hj. rewrite !get_item_run.
        destruct (int64_ok j); reflexivity.
      * now left.
      * intros r Hr _. exact Hr.
      * reflexivity.
  - cbn [snd]. split; [discriminate|]. repeat split; auto.
Qed.

Lemma create_item_unvalidated_body data now db m item :
  validate_item_data data (Some ["name"]) <> inr [] ->
  fst (fst (create_item data now db)) <> MessageItem m item.
Proof.
  intros Hv. unfold create_item, catch_all, create_item_body.
  destruct (negb (py_truthy data)); [discriminate|].
  unfold bind, lift.
  destruct (validate_item_data data (Some ["name"])) as [e|[|e es]];
    [discriminate|contradiction|discriminate].
Qed.

Lemma create_item_created data now db m item st db' :
  create_item data now db = ((MessageItem m item, st), db') ->
  id item = next_id db /\ items db' = (items db ++ [item])%list /\
  seq db' = next_id db.
Proof.
  intros H.
  assert (Hd : exists kv, data = JObj kv).
  { destruct (validate_item_data data (Some ["name"])) as [e|[|e es]] eqn:Hv.
    - exfalso. apply (create_item_unvalidated_body data now db m item);
        [congruence|now rewrite H].
    - rewrite <- validate_default in Hv.
      apply validate_ok_dict in Hv as (kv & Hkv & _). eauto.
    - exfalso. apply (create_item_unvalidated_body data now db m item);
        [congruence|now rewrite H]. }
  destruct Hd as [kv ->]. revert H. rewrite create_item_dict_run.
  destruct kv as [|b kv0]; try discriminate.
  destruct (validate_item_data _ _) as [e|[|e es]]; try discriminate.
  destruct (dict_get _ "name") as [n|]; try discriminate.
  destruct (bind_params _) as [e|[|vn [|vd [|vc [|vpr [|vq [|]]]]]]];
    try discriminate.
  destruct (2 ^ 63 <=? next_id db); try discriminate.
  destruct (is_null _); try discriminate.
  cbv zeta. destruct (int64_ok _); try discriminate.
  intros H. injection H as _ <- _ <-. repeat split.
Qed.

(** X11: AUTOINCREMENT never gives an id a second time. On a store
    whose ids are below the counter, an item created after a delete - of
    any row, the last one included - gets an id above the counter and
    above every id the table held before the delete. *)
Theorem deleted_id_not_reused item_id data now db m item st db2 :
  store_inv db ->
  create_item data now (snd (delete_item item_id db))
    = ((MessageItem m item, st), db2) ->
  seq db < id item /\
  (forall r, In r (items db) -> id r < id item) /\
  (forall r, In r (items db2) -> id r = id item -> r = item).
Proof.
  intros [Hs Hb] H. apply create_item_created in H as (Hid & Hit & _).
  pose proof (delete_item_rows item_id db) as (Hrows & Hseq).
  assert (Hlt : seq db < id item)
    by (rewrite Hid; unfold next_id; rewrite Hseq; lia).
  assert (Hall : forall r, In r (items db) -> id r < id item).
  { intros r Hr. rewrite Forall_forall in Hb.
    specialize (Hb (id r) (in_map id _ _ Hr)). lia. }
  split; [exact Hlt|]. split; [exact Hall|].
  intros r Hr E. rewrite Hit in Hr. apply in_app_iff in Hr as [Hr|[<-|[]]];
    [|reflexivity].
  exfalso.
  assert (Hin : In r (items db)).
  { destruct Hrows as [Er|Er]; rewrite Er in Hr; [exact Hr|].
    now apply filter_In in Hr. }
  apply Hall in Hin. lia.
Qed.

(** ** GET /items/categories *)

Lemma sql_compare_refl v : sql_compare v v = Eq.
Proof.
  pose proof (sql_compare_antisym v v) as H.
  destruct (sql_compare v v); simpl in H; congruence.
Qed.

Lemma sql_lt_le_trans a b c :
  sql_compare a b <> Gt -> sql_compare b c = Lt -> sql_compare a c = Lt.
Proof.
  intros Hab Hbc.
  assert (Hac : sql_compare a c <> Gt)
    by (apply (sql_le_trans a b c); congruence).
  destruct (sql_compare a c) eqn:E; [|reflexivity|congruence].
  exfalso.
  assert (Hca : sql_compare c a <> Gt)
    by (rewrite (sql_compare_antisym a c), E; discriminate).
  pose proof (sql_le_trans c a b Hca Hab) as Hcb.
  rewrite (sql_compare_antisym b c), Hbc in Hcb. now apply Hcb.
Qed.

Lemma sql_eq_trans a b c :
  sql_compare a b = Eq -> sql_compare b c = Eq -> sql_compare a c = Eq.
Proof.
  intros Hab Hbc.
  assert (H1 : sql_compare a c <> Gt)
    by (apply (sql_le_trans a b c); congruence).
  assert (H2 : sql_compare c a <> Gt).
  { apply (sql_le_trans c b a).
    - rewrite (sql_compare_antisym b c), Hbc. discriminate.
    - rewrite (sql_compare_antisym a b), Hab. discriminate. }
  rewrite (sql_compare_antisym a c) in H2.
  destruct (sql_compare a c); simpl in H2; congruence.
Qed.

Lemma sql_compare_eq_text c v : sql_compare v (SText c) = Eq -> v = SText c.
Proof.
  intros H.
  destruct (Z.lt_trichotomy (sql_class v) (sql_class (SText c))) as [L|[E|G]].
  - rewrite sql_compare_lower_class in H by exact L. discriminate.
  - destruct (sql_class_text v E) as [s ->].
    rewrite sql_compare_same_class in H by reflexivity.
    apply String.compare_eq_iff in H. now subst.
  - rewrite sql_compare_higher_class in H by exact G. discriminate.
Qed.

Lemma push_distinct_head v acc : exists rest, push_distinct v acc = v :: rest.
Proof.
  unfold push_distinct. destruct acc as [|w rest]; [eauto|].
  destruct (sql_eqb v w); eauto.
Qed.

Lemma push_distinct_incl v acc x :
  In x (push_distinct v acc) -> x = v \/ In x acc.
Proof.
  unfold push_distinct. destruct acc as [|w rest]; simpl.
  - intros [<-|[]]. now left.
  - destruct (sql_eqb v w); simpl.
    + intros [<-|H]; [now left|right; now right].
    + intros [<-|H]; [now left|now right].
Qed.

Lemma distinct_sorted_incl l x : In x (distinct_sorted l) -> In x l.
Proof.
  induction l as [|v l IH]; [auto|].
  simpl. intros H. apply push_distinct_incl in H as [->|H]; auto.
Qed.

Lemma distinct_sorted_represents l x :
  In x l -> exists v, In v (distinct_sorted l) /\ sql_compare v x = Eq.
Proof.
  induction l as [|a l IH]; [contradiction|].
  simpl. intros [<-|Hx].
  - exists a. split; [|apply sql_compare_refl].
    destruct (push_distinct_head a (distinct_sorted l)) as [rest ->].
    now left.
  - destruct (IH Hx) as (u & Hu & Eu).
    unfold push_distinct. destruct (distinct_sorted l) as [|w rest];
      [contradiction|].
    unfold sql_eqb. destruct (sql_compare a w) eqn:E.
    + destruct Hu as [<-|Hu].
      * exists a. split; [now left|]. eapply sql_eq_trans; eauto.
      * exists u. split; [now right|exact Eu].
    + exists u. split; [now right|exact Eu].
    + exists u. split; [now right|exact Eu].
Qed.

Lemma distinct_sorted_strict l :
  StronglySorted (leb_rel sql_leb) l ->
  StronglySorted (fun v w => sql_compare v w = Lt) (distinct_sorted l).
Proof.
  induction 1 as [|a l Hs IH Ha]; [constructor|].
  simpl.
  assert (Hle : forall t, In t (distinct_sorted l) -> sql_compare a t <> Gt).
  { intros t Ht. apply distinct_sorted_incl in Ht.
    rewrite Forall_forall in Ha. apply Ha in Ht.
    unfold leb_rel, sql_leb in Ht. destruct (sql_compare a t); congruence. }
  unfold push_distinct. destruct (distinct_sorted l) as [|w rest];
    [repeat constructor|].
  inversion IH as [|? ? Hrest Hw]; subst.
  unfold sql_eqb. destruct (sql_compare a w) eqn:E.
  - constructor; [exact Hrest|].
    rewrite Forall_forall in *. intros t Ht.
    apply (sql_lt_le_trans a w t); [congruence|now apply Hw].
  - constructor; [exact IH|]. constructor; [exact E|].
    rewrite Forall_forall in *. intros t Ht.
    apply (sql_lt_le_trans a w t); [congruence|now apply Hw].
  - exfalso. apply (Hle w); [now left|exact E].
Qed.

Lemma sorted_values_strongly l :
  StronglySorted (leb_rel sql_leb) (sort_by_leb sql_leb l).
Proof.
  apply Sorted_StronglySorted.
  - intros a b c. unfold leb_rel. apply sql_leb_trans.
  - apply sort_by_leb_Sorted. apply sql_leb_total.
Qed.

(** X12: GET /items/categories answers 200 with the categories of the
    stored rows: every value listed is the category of a stored row and
    is not NULL, every category other than NULL of a stored row is listed,
    and the list is in strictly ascending order, so that no category is
    listed twice. *)
Theorem get_categories_sorted_distinct db :
  let cats := fst (get_categories db) in
  snd (get_categories db) = 200 /\
  StronglySorted (fun v w => sql_compare v w = Lt) cats /\
  NoDup cats /\
  (forall v, In v cats ->
     v <> SNull /\ exists r, In r (items db) /\ category r = v) /\
  (forall r, In r (items db) -> category r <> SNull ->
     exists v, In v cats /\ sql_compare v (category r) = Eq) /\
  (forall c, In (SText c) cats <->
     exists r, In r (items db) /\ category r = SText c).
Proof.
  intros cats. subst cats. unfold get_categories, select_categories.
  cbn [fst snd].
  set (vals := filter (fun v => negb (is_null v)) (map category (items db))).
  assert (Hvals : forall v, In v vals <->
            v <> SNull /\ exists r, In r (items db) /\ category r = v).
  { intros v. unfold vals. rewrite filter_In, in_map_iff. split.
    - intros [(r & E & Hr) Hn]. split; [|eauto].
      intros ->. discriminate.
    - intros [Hn (r & Hr & E)]. split; [eauto|].
      destruct v; try reflexivity. now elim Hn. }
  assert (Hsort : forall v, In v (sort_by_leb sql_leb vals) <-> In v vals).
  { intros v. split; apply Permutation_in;
      [|symmetry]; apply sort_by_leb_perm. }
  pose proof (distinct_sorted_strict _ (sorted_values_strongly vals)) as Hstrict.
  assert (Hin : forall v, In v (distinct_sorted (sort_by_leb sql_leb vals)) ->
                          In v vals)
    by (intros v Hv; apply Hsort; now apply distinct_sorted_incl).
  assert (Hrep : forall x, In x vals ->
            exists v, In v (distinct_sorted (sort_by_leb sql_leb vals)) /\
                      sql_compare v x = Eq)
    by (intros x Hx; apply distinct_sorted_represents; now apply Hsort).
  split; [reflexivity|]. split; [exact Hstrict|]. split; [|split; [|split]].
  - clear - Hstrict.
    induction Hstrict as [|a l Hs IH Ha]; constructor; [|exact IH].
    intros Hi. rewrite Forall_forall in Ha. apply Ha in Hi.
    rewrite sql_compare_refl in Hi. discriminate.
  - intros v Hv. now apply Hvals, Hin.
  - intros r Hr Hn. apply Hrep, Hvals. eauto.
  - intros c. split.
    + intros Hc. apply Hin, Hvals in Hc as [_ Hc]. exact Hc.
    + intros (r & Hr & E).
      destruct (Hrep (SText c)) as (v & Hv & Ev).
      { apply Hvals. split; [discriminate|eauto]. }
      apply sql_compare_eq_text in Ev. now subst.
Qed.

(** ** Paging through a list *)

Lemma limit_offset_past_end {A} (l : list A) limit offset :
  Z.of_nat (List.length l) <= offset -> limit_offset l limit offset = [].
Proof.
  intros H. unfold limit_offset.
  rewrite skipn_all2 by lia. now destruct (limit <? 0); [|rewrite firstn_nil].
Qed.

Lemma limit_offset_first {A} (l : list A) limit offset :
  0 <= limit -> offset <= 0 ->
  limit_offset l limit offset = firstn (Z.to_nat limit) l.
Proof.
  intros Hl Ho. unfold limit_offset.
  replace (Z.to_nat offset) with 0%nat by lia. simpl.
  destruct (limit <? 0) eqn:E; [apply Z.ltb_lt in E; lia|reflexivity].
Qed.

(** X13: the edges of paging, for a list request with a page size of at
    least 1 that is answered with a page. A page number beyond the last
    page gives an empty page with [has_next] false, not an error; a page
    number of 1, 0 or below gives the first rows, with [has_prev] false;
    no page holds more rows than the page size; and the request changes
    neither a row nor the counter. *)
Theorem get_items_page_edges a db its pg fl st db' :
  get_items a db = ((ItemsPage its pg fl, st), db') ->
  1 <= per_page pg ->
  st = 200 /\
  (total_pages pg < page pg -> its = [] /\ has_next pg = false) /\
  (page pg <= 1 ->
   its = firstn (Z.to_nat (per_page pg)) (selected a db) /\
   has_prev pg = false) /\
  Z.of_nat (List.length its) <= per_page pg /\
  items db' = items db /\ seq db' = seq db.
Proof.
  intros Hrun Hpp.
  apply get_items_page_inv in Hrun
    as (_ & Hits & _ & _ & Htot & Htp & Hnext & Hprev & Hst & Hdb & _).
  destruct (total_pages_ceil (total_items pg) (per_page pg) Hpp) as [_ Hb].
  rewrite <- Htot in Htp. rewrite <- Htp in Hb.
  split; [exact Hst|]. split; [|split; [|split; [|split]]].
  - intros Hlast. split.
    + subst its. apply limit_offset_past_end.
      rewrite selected_length, <- Htot. nia.
    + rewrite Hnext. apply Z.ltb_ge. lia.
  - intros H1. split.
    + subst its. apply limit_offset_first; nia.
    + rewrite Hprev. apply Z.ltb_ge. lia.
  - subst its. unfold limit_offset.
    destruct (per_page pg <? 0) eqn:E; [apply Z.ltb_lt in E; lia|].
    rewrite length_firstn. lia.
  - subst db'. reflexivity.
  - subst db'. reflexivity.
Qed.

Lemma firstn_plus {A} (a b : nat) (l : list A) :
  firstn (a + b) l = (firstn a l ++ firstn b (skipn a l))%list.
Proof.
  revert l. induction a as [|a IH]; intros l; [reflexivity|].
  destruct l as [|x l]; simpl; [now rewrite firstn_nil|].
  now rewrite IH.
Qed.

Lemma pages_concat {A} (l : list A) (n m : nat) :
  List.concat (map (fun k => firstn n (skipn (k * n) l)) (List.seq 0 m)) =
  firstn (m * n) l.
Proof.
  induction m as [|m IH]; [reflexivity|].
  rewrite seq_S, map_app, concat_app, IH. simpl.
  rewrite app_nil_r.
  replace (n + m * n)%nat with (m * n + n)%nat by lia.
  now rewrite firstn_plus.
Qed.

Lemma selected_same_query a b db :
  request_query a = request_query b -> selected a db = selected b db.
Proof. intros H. unfold selected, matching. now rewrite H. Qed.

Lemma pages_upto_none : pages_upto 0 = [].
Proof. reflexivity. Qed.

Lemma pages_upto_spec tp p :
  In p (pages_upto tp) <-> 1 <= p <= tp.
Proof.
  unfold pages_upto. rewrite in_map_iff. split.
  - intros (k & <- & Hk). apply in_seq in Hk. lia.
  - intros H. exists (Z.to_nat p). split; [lia|]. apply in_seq. lia.
Qed.

(** X14: paging through a list returns every selected row exactly once,
    in order. Take requests for the pages 1 to [total_pages] that agree on
    the filters, the sort parameters and a page size of at least 1, against
    one store: the rows of their answers, one page after the other, are the
    rows the query selects. *)
Theorem pages_partition (req : Z -> args) db pp tp :
  1 <= pp ->
  Z.of_nat (List.length (items db)) < 2 ^ 63 ->
  tp = ceil_div (Z.of_nat (List.length (matching (req 1) db))) pp ->
  (forall p, In p (pages_upto tp) ->
     effective_per_page (req p) = pp /\
     args_get_int (arg_page (req p)) 1 = p /\
     request_query (req p) = request_query (req 1)) ->
  List.concat
    (map (fun p => page_rows (fst (get_items (req p) db))) (pages_upto tp))
  = selected (req 1) db.
Proof.
  intros Hpp Hsize Htp Hreq.
  destruct (like_refused (request_query (req 1)) (items db)) eqn:Hr.
  { destruct (matching_refused (req 1) db Hr) as [Hm Hs].
    rewrite Hm in Htp. rewrite Hs.
    assert (E0 : tp = 0).
    { rewrite Htp. unfold ceil_div.
      change (- Z.of_nat (List.length (@nil row))) with 0.
      rewrite Z.div_0_l by lia. reflexivity. }
    rewrite E0. reflexivity. }
  set (l := selected (req 1) db).
  assert (Hlen : List.length l = List.length (matching (req 1) db))
    by apply selected_length.
  assert (Hmatch : Z.of_nat (List.length (matching (req 1) db))
                   <= Z.of_nat (List.length (items db))).
  { rewrite (matching_filter (req 1) db Hr). pose proof (filter_length_le
      (matches (request_query (req 1))) (items db)). lia. }
  destruct (total_pages_ceil (Z.of_nat (List.length (matching (req 1) db))) pp Hpp)
    as [Hc Hb]. rewrite Hc, <- Htp in Hb.
  assert (Hpage : forall p, In p (pages_upto tp) ->
            page_rows (fst (get_items (req p) db)) =
            firstn (Z.to_nat pp) (skipn (Z.to_nat (p - 1) * Z.to_nat pp) l)).
  { intros p Hp. destruct (Hreq p Hp) as (Epp & Epage & Eq).
    apply pages_upto_spec in Hp.
    rewrite get_items_run, get_items_body_run. rewrite Eq, Hr, Epp, Epage.
    assert (Hle : pp <= 100)
      by (rewrite <- Epp; unfold effective_per_page; lia).
    assert (H1 : int64_ok pp = true).
    { unfold int64_ok. apply andb_true_iff.
      split; [apply Z.leb_le|apply Z.ltb_lt]; lia. }
    assert (H2 : int64_ok ((p - 1) * pp) = true).
    { unfold int64_ok. apply andb_true_iff.
      split; [apply Z.leb_le|apply Z.ltb_lt]; nia. }
    rewrite H1, H2. simpl andb. cbv iota.
    assert (Hz : (pp =? 0) = false) by (apply Z.eqb_neq; lia).
    rewrite Hz. unfold page_rows. cbn [fst].
    rewrite (selected_same_query (req p) (req 1) db Eq). fold l.
    unfold limit_offset.
    assert (Hn : (pp <? 0) = false) by (apply Z.ltb_ge; lia).
    rewrite Hn. f_equal. f_equal. nia. }
  rewrite (map_ext_in _ _ _ Hpage).
  unfold pages_upto. rewrite map_map.
  rewrite <- seq_shift, map_map.
  rewrite (map_ext _ (fun k => firstn (Z.to_nat pp)
                               (skipn (k * Z.to_nat pp) l)))
    by (intros k; cbv beta; f_equal; f_equal; lia).
  rewrite pages_concat.
  apply firstn_all2. rewrite Hlen.
  clear - Hb Hpp.
  assert (H0 : 0 <= tp) by nia.
  rewrite <- Z2Nat.inj_mul by lia.
  apply Nat2Z.inj_le. rewrite Z2Nat.id by nia. apply Hb.
Qed.

(** ** init_db *)










End Service.

(** ** The claims on concrete requests

    The requests below run against [shop], the store [init_db] seeds, and
    against [warehouse]. *)

Example int_literals :
  py_int_str " +1_000 " = Some 1000 /\ py_int_str "-07" = Some (-7) /\
  py_int_str "3.5" = None /\ py_int_str "1__0" = None /\
  py_int_str EmptyString = None /\ py_int_str "ten" = None.
Proof. repeat split. Qed.

(** White space around a literal is what C calls white space, and the
    two Unicode spaces below 256; the separators 28 to 31 are part of the
    literal and make it invalid. *)
Example literal_white_space :
  py_int_str (after_fs "5") = None /\
  py_int_str (after_vt "5 ") = Some 5 /\
  py_int_str (after_nbsp "5") = Some 5 /\
  py_float_str_ok (after_fs "1.5") = false /\
  py_float_str_ok (after_nbsp "1.5") = true /\
  args_get_int (Some (after_fs "2")) 10 = 10 /\
  args_get_int (Some (after_fs "0")) 10 = 10.
Proof. repeat split. Qed.

(** A literal of more than 4300 digits is no integer for [int()]. *)
Example literal_digit_limit :
  py_int_str (nines 4300) <> None /\
  py_int_str (nines 4301) = None /\
  args_get_int (Some (nines 4301)) 10 = 10.
Proof. split; [vm_compute; discriminate|split; vm_compute; reflexivity]. Qed.

Example float_literals :
  map py_float_str_ok
    [" -1_0.5e+3 "; "1."; ".5"; "Infinity"; "-inf"; "NaN"; "1e5"]
  = [true; true; true; true; true; true; true] /\
  map py_float_str_ok ["abc"; EmptyString; "."; "e5"; "1__0"; "1._5"; "0x10"; "1 2"]
  = [false; false; false; false; false; false; false; false].
Proof. split; reflexivity. Qed.

Example like_patterns :
  like "%mouse%" "Wireless Mouse" = true /\
  like "%mouse%" "Laptop" = false /\
  like "%_%" "Laptop" = true /\
  like "%a_t%" "Laptop" = true /\
  like "%a_x%" "Laptop" = false /\
  like "%l_p%" "Laptop" = true.
Proof. repeat split. Qed.

(** Numbers compare by value across INTEGER and REAL; NULL sorts before
    every number and every number before every text. *)
Example order_by_values :
  sql_compare (SReal f9_99) (SInt 10) = Lt /\
  sql_compare (SInt 10) (SReal f5_0) = Gt /\
  sql_compare (SInt 5) (SReal f5_0) = Eq /\
  sql_compare SNull (SInt (-3)) = Lt /\
  sql_compare (SReal (S754_infinity false)) (SText EmptyString) = Lt /\
  sql_compare (SText "Books") (SText "Electronics") = Lt.
Proof. repeat split. Qed.

Lemma shop_is_seeded :
  init_db no_text_numeric plain_numeric_text "2024-01-01 00:00:00" empty_db
  = (inl TypeError, shop).
Proof. reflexivity. Qed.

(** C1: PUT /items/1 with the body [{price: 5.00}] on the seeded store.
    Row 1 exists, yet the handler answers 400 [Validation failed] with the
    detail ['name' is required], after the lookup and without any write:
    [update_item] calls [validate_item_data] without [required_fields], and
    the default makes [name] required. *)
Theorem update_price_only_rejected :
  update_item no_text_numeric plain_numeric_text 1
    (JObj [("price", JFloat f5_0)]) "2024-06-01 12:00:00" shop
  = ((ErrorDetails "Validation failed" ["'name' is required"], 400),
     issued shop [SelectById 1]).
Proof. vm_compute. reflexivity. Qed.

(** The same update with the name repeated in the body goes through: the
    price and [updated_at] change, the other columns stay. *)
Example update_name_and_price_accepted :
  fst (update_item no_text_numeric plain_numeric_text 1
         (JObj [("name", JStr "Laptop"); ("price", JFloat f5_0)])
         "2024-06-01 12:00:00" shop)
  = (MessageItem "Item updated successfully"
       (mkRow 1 (SText "Laptop")
          (SText "High-performance laptop for development")
          (SText "Electronics") (SReal f5_0) (SInt 5)
          (SText "2024-01-01 00:00:00") (SText "2024-06-01 12:00:00")),
     200).
Proof. vm_compute. reflexivity. Qed.

(** C2 fails as stated: [per_page=-5] is answered with a page whose
    metadata reports the page size -5 and which holds all five rows, and
    [per_page=0] is answered 500. *)
Lemma per_page_below_one_not_raised :
  get_items plain_numeric_text (mkArgs None (Some "-5") None None None None) shop
  = ((ItemsPage (items shop)
        (mkPagination 1 (-5) 5 0 false false)
        (mkFilters None None "id" "asc"), 200),
     issued shop [SelectCount; SelectPage]) /\
  fst (get_items plain_numeric_text (mkArgs None (Some "0") None None None None) shop)
  = (Error "Internal server error", 500).
Proof. split; vm_compute; reflexivity. Qed.

Lemma per_page_capped_above_only_witness :
  exists its pg fl db',
    get_items plain_numeric_text
      (mkArgs None (Some "250") None None None None) shop
    = ((ItemsPage its pg fl, 200), db') /\
    per_page pg = 100 /\ its = items shop.
Proof.
  eexists _, _, _, _. split; [vm_compute; reflexivity|].
  destruct (per_page_capped_above_only plain_numeric_text
              (mkArgs None (Some "250") None None None None) shop
              _ _ _ _ _ ltac:(vm_compute; reflexivity))
    as (Hpp & Hits & _).
  split; [exact Hpp|exact Hits].
Defined.

(** A [per_page] that [int()] refuses counts as absent: the page size is
    10, whether the value is a word, a number behind a separator, or a
    literal of more than 4300 digits. *)
Example per_page_not_an_integer :
  map (fun v => effective_per_page (mkArgs None (Some v) None None None None))
    ["ten"; after_fs "2"; after_fs "0"; nines 4301; "2.0"]
  = [10; 10; 10; 10; 10] /\
  fst (get_items plain_numeric_text
         (mkArgs None (Some (after_fs "0")) None None None None) shop)
  = (ItemsPage (items shop) (mkPagination 1 10 5 1 false false)
       (mkFilters None None "id" "asc"), 200).
Proof. split; vm_compute; reflexivity. Qed.

(** C3 fails as stated for update: with a body that fails validation the
    handler has already read the row (a SELECT is in the trace) when it
    answers 400; for an unknown id it answers 404, not 400; and for an id
    beyond 64 bits it answers 500. *)
Lemma update_looks_up_before_validating :
  validate_item_data (JObj [("price", JStr "abc")]) None
  = inr ["'name' is required"; "'price' must be a valid number"] /\
  update_item no_text_numeric plain_numeric_text 1
    (JObj [("price", JStr "abc")]) "2024-06-01 12:00:00" shop
  = ((ErrorDetails "Validation failed"
        ["'name' is required"; "'price' must be a valid number"], 400),
     issued shop [SelectById 1]) /\
  update_item no_text_numeric plain_numeric_text 99
    (JObj [("price", JStr "abc")]) "2024-06-01 12:00:00" shop
  = ((Error "Item not found", 404), issued shop [SelectById 99]) /\
  update_item no_text_numeric plain_numeric_text (2 ^ 63)
    (JObj [("price", JStr "abc")]) "2024-06-01 12:00:00" shop
  = ((Error "Internal server error", 500), shop).
Proof. repeat split; vm_compute; reflexivity. Qed.

(** A quantity behind a separator is no integer: the body fails
    validation, with the quantity among the details, and nothing is
    stored. *)
Example quantity_behind_separator :
  validate_item_data
    (JObj [("price", JStr "abc"); ("quantity", JStr (after_fs "5"))])
    (Some ["name"])
  = inr ["'name' is required"; "'price' must be a valid number";
         "'quantity' must be a valid integer"] /\
  create_item no_text_numeric plain_numeric_text
    (JObj [("name", JStr "a"); ("price", JStr (after_fs "1.5"));
           ("quantity", JStr (after_fs "5"))])
    "2024-06-01 12:00:00" shop
  = ((ErrorDetails "Validation failed"
        ["'price' must be a valid number";
         "'quantity' must be a valid integer"], 400), shop).
Proof. split; vm_compute; reflexivity. Qed.

Lemma validation_failure_leaves_rows_witness :
  ["'name' is required"] <> [] /\
  validate_item_data (JObj [("price", JFloat f5_0)]) (Some ["name"])
  = inr ["'name' is required"] /\
  snd (create_item no_text_numeric plain_numeric_text
         (JObj [("price", JFloat f5_0)]) "2024-06-01 12:00:00" shop) = shop.
Proof.
  split; [discriminate|]. split; [reflexivity|].
  refine (proj1 (proj2 (proj1
    (validation_failure_leaves_rows no_text_numeric plain_numeric_text
       (JObj [("price", JFloat f5_0)]) "2024-06-01 12:00:00" shop 1
       ["'name' is required"] _) _))).
  - discriminate.
  - reflexivity.
Defined.

Lemma pagination_metadata_witness :
  1 <= args_get_int (Some "10") 10 /\
  exists its fl,
    get_items plain_numeric_text
      (mkArgs (Some "3") (Some "10") None None None None) warehouse
    = ((ItemsPage its (mkPagination 3 10 25 3 false true) fl, 200),
       issued warehouse [SelectCount; SelectPage]) /\
    List.length its = 5%nat /\
    map id its = [21; 22; 23; 24; 25].
Proof.
  split; [vm_compute; discriminate|].
  destruct (pagination_metadata plain_numeric_text
              (mkArgs (Some "3") (Some "10") None None None None) warehouse)
    as [Hex Hinv].
  - vm_compute. discriminate.
  - destruct Hex as (its & fl & Hrun);
      [intros s E; discriminate E|vm_compute; reflexivity|].
    exists its, fl. split; [exact Hrun|].
    destruct (Hinv _ _ _ _ _ Hrun)
      as (_ & _ & _ & _ & _ & _ & _ & _ & Hits & _ & _ & H25).
    split.
    + exact (proj1 (proj2 (proj2 (proj2 (H25 eq_refl eq_refl)))) eq_refl).
    + rewrite Hits. vm_compute. reflexivity.
Defined.

(** The third page of 25 rows by 10 holds the rows 21 to 25. *)
Example warehouse_third_page :
  fst (get_items plain_numeric_text
         (mkArgs (Some "3") (Some "10") None None None None) warehouse)
  = (ItemsPage (map numbered_row (List.seq 21 5))
       (mkPagination 3 10 25 3 false true)
       (mkFilters None None "id" "asc"), 200).
Proof. vm_compute. reflexivity. Qed.

Lemma shop_ok : db_ok shop.
Proof. vm_compute. reflexivity. Defined.

Lemma create_then_get_round_trip_witness :
  db_ok shop /\
  let created :=
    create_item no_text_numeric plain_numeric_text
      (JObj [("name", JStr "X"); ("price", JFloat f9_99); ("quantity", JInt 3)])
      "2024-06-01 12:00:00" shop in
  let item :=
    mkRow 6 (SText "X") SNull SNull (SReal f9_99) (SInt 3)
      (SText "2024-06-01 12:00:00") (SText "2024-06-01 12:00:00") in
  fst created = (MessageItem "Item created successfully" item, 201) /\
  saved_items (snd created) = (items shop ++ [item])%list /\
  fst (get_item 6 (reconnect (snd created))) = (ItemBody item, 200).
Proof.
  split; [exact shop_ok|]. intros created item.
  destruct (create_then_get_round_trip no_text_numeric plain_numeric_text
              "2024-06-01 12:00:00" shop shop_ok)
    as (item' & H1 & _ & _ & _ & _ & _ & _ & _ & Hsaved & _ & _ & Hget).
  assert (E : fst created = (MessageItem "Item created successfully" item, 201))
    by (vm_compute; reflexivity).
  fold created in H1, Hsaved, Hget. rewrite E in H1. injection H1 as <-.
  split; [exact E|]. split; [exact Hsaved|].
  change 6 with (id item). now rewrite Hget.
Defined.

(** The commit is what makes the row last: a connection opened after the
    create sees the new row, and the rows written before a commit are the
    ones a new connection does not see. *)
Example commit_makes_the_row_last :
  let created :=
    snd (create_item no_text_numeric plain_numeric_text
           (JObj [("name", JStr "X")]) "2024-06-01 12:00:00" shop) in
  map id (items (reconnect created)) = [1; 2; 3; 4; 5; 6] /\
  trace created = (trace shop ++ [Insert; Commit; SelectById 6])%list /\
  map id (items (reconnect
                   (written shop (items shop ++ [numbered_row 6]) 6)))
  = [1; 2; 3; 4; 5].
Proof. repeat split; vm_compute; reflexivity. Qed.

(** C6 fails as stated: POST with [{}] is answered 400 without details and
    without a mention of [name], and a price of ["inf"], which is no finite
    number, passes validation: the item is created. *)
Lemma empty_object_has_no_details :
  create_item no_text_numeric plain_numeric_text (JObj [])
    "2024-06-01 12:00:00" shop
  = ((Error "No JSON data provided", 400), shop) /\
  validate_item_data (JObj [("name", JStr "A"); ("price", JStr "inf")])
    (Some ["name"]) = inr [] /\
  snd (fst (create_item no_text_numeric plain_numeric_text
              (JObj [("name", JStr "A"); ("price", JStr "inf")])
              "2024-06-01 12:00:00" shop)) = 201.
Proof. repeat split; vm_compute; reflexivity. Qed.

Lemma validation_lists_every_failed_field_witness :
  validate_item_data (JObj [("price", JStr "abc"); ("quantity", JStr "many")])
    (Some ["name"])
  = inr ["'name' is required"; "'price' must be a valid number";
         "'quantity' must be a valid integer"] /\
  (In price_msg ["'name' is required"; "'price' must be a valid number";
                 "'quantity' must be a valid integer"] <->
   conversion_rejected py_float
     [("price", JStr "abc"); ("quantity", JStr "many")] "price" = true).
Proof.
  split; [reflexivity|].
  refine (proj1 (proj2
    (validation_lists_every_failed_field no_text_numeric plain_numeric_text
       [("price", JStr "abc"); ("quantity", JStr "many")] _ _))).
  reflexivity.
Defined.

(** C7 fails as stated: [search=_] returns every row with a name or a
    description; the first is the laptop, and neither its name nor its
    description contains an underscore. An empty [category] parameter is
    no filter: every row is returned, none with an empty category. *)
Lemma search_underscore_matches_laptop :
  (exists its pg fl db',
     get_items plain_numeric_text
       (mkArgs None None None (Some "_") None None) shop
     = ((ItemsPage its pg fl, 200), db') /\
     exists r, In r its /\
       name r = SText "Laptop" /\
       description r = SText "High-performance laptop for development" /\
       contains_ci "_" "Laptop" = false /\
       contains_ci "_" "High-performance laptop for development" = false) /\
  (exists pg fl db',
     get_items plain_numeric_text
       (mkArgs None None (Some EmptyString) None None None) shop
     = ((ItemsPage (items shop) pg fl, 200), db') /\
     existsb (fun r => sql_eq_text (category r) EmptyString) (items shop) = false).
Proof.
  split.
  - eexists _, _, _, _. split; [vm_compute; reflexivity|].
    eexists. split; [left; reflexivity|]. repeat split.
  - eexists _, _, _. split; vm_compute; reflexivity.
Qed.

Lemma list_filters_witness :
  exists its pg fl db',
    get_items plain_numeric_text
      (mkArgs None None (Some "Electronics") (Some "MOUSE") None None) shop
    = ((ItemsPage its pg fl, 200), db') /\
    map id its = [4] /\
    (forall r, In r its ->
       category r = SText "Electronics" /\
       ((exists t, like_text plain_numeric_text (name r) = Some t /\
                   contains_ci "MOUSE" t = true) \/
        (exists t, like_text plain_numeric_text (description r) = Some t /\
                   contains_ci "MOUSE" t = true))) /\
    (forall r, In r (items shop) ->
       category r = SText "Electronics" ->
       name r = SText "Wireless Mouse" -> In r its).
Proof.
  eexists _, _, _, _. split; [vm_compute; reflexivity|].
  split; [reflexivity|].
  destruct (list_filters plain_numeric_text
              (mkArgs None None (Some "Electronics") (Some "MOUSE") None None)
              shop _ _ _ _ _ ltac:(vm_compute; reflexivity))
    as (_ & _ & _ & Hall & Hret).
  split.
  - intros r Hr. destruct (Hret r Hr) as (_ & _ & Hc & _ & Hs).
    split.
    + apply Hc; [reflexivity|discriminate].
    + apply Hs; [reflexivity|discriminate|reflexivity|reflexivity].
  - intros r Hr Hc Hn. apply Hall.
    + exact Hr.
    + intros c E _. injection E as <-. exact Hc.
    + intros s E _. injection E as <-. left.
      unfold sql_like, like_text. rewrite Hn. reflexivity.
    + reflexivity.
    + vm_compute. split; discriminate.
Defined.

Lemma shop_pageable a :
  arg_page a = None -> arg_per_page a = None -> arg_search a = None ->
  pageable a.
Proof.
  intros H1 H2 H3. unfold pageable, effective_per_page, search_fits.
  rewrite H1, H2, H3.
  split; [discriminate|]. split; [reflexivity|]. split; [reflexivity|].
  intros s E. discriminate E.
Defined.

Lemma sort_applied_only_when_valid_witness :
  pageable (mkArgs None None None None (Some "price") (Some "DESC")) /\
  exists its pg fl,
    get_items plain_numeric_text
      (mkArgs None None None None (Some "price") (Some "DESC")) shop
    = ((ItemsPage its pg fl, 200), issued shop [SelectCount; SelectPage]) /\
    map id its = [1; 3; 4; 2; 5] /\
    (exists sorted,
       Permutation sorted (items shop) /\
       its = limit_offset sorted 10 0) /\
    StronglySorted (fun r1 r2 => sql_leb (price r2) (price r1) = true) its.
Proof.
  split; [now apply shop_pageable|].
  eexists _, _, _. split; [vm_compute; reflexivity|].
  split; [reflexivity|].
  destruct (proj2 (sort_applied_only_when_valid plain_numeric_text
              (mkArgs None None None None (Some "price") (Some "DESC")) shop)
              _ _ _ _ _ ltac:(vm_compute; reflexivity))
    as (_ & _ & _ & _ & _ & Hprice).
  destruct (Hprice eq_refl eq_refl) as (sorted & Hperm & _ & Hits & Hs).
  split; [|exact Hs].
  exists sorted. split; [exact Hperm|exact Hits].
Defined.

(** Sorted by price, highest first: laptop, book, mouse, mug, notebook. *)
Example shop_by_price_desc :
  match fst (get_items plain_numeric_text
               (mkArgs None None None None (Some "price") (Some "DESC")) shop)
  with
  | (ItemsPage its _ _, _) => map id its = [1; 3; 4; 2; 5]
  | _ => False
  end.
Proof. vm_compute. reflexivity. Qed.

(** An invalid sort field is ignored: table order, no error. *)
Example shop_invalid_sort_ignored :
  match fst (get_items plain_numeric_text
               (mkArgs None None None None (Some "updated_at") (Some "up")) shop)
  with
  | (ItemsPage its _ _, 200) => its = items shop
  | _ => False
  end.
Proof. vm_compute. reflexivity. Qed.

(** C9 fails as stated: no row has the id 2^63, and DELETE of that id is
    answered 500, not 404. *)
Lemma delete_id_beyond_int64 :
  find (fun r => id r =? 2 ^ 63) (items shop) = None /\
  delete_item (2 ^ 63) shop = ((Error "Internal server error", 500), shop).
Proof. split; vm_compute; reflexivity. Qed.

Lemma delete_item_status_witness :
  int64_ok 77 = true /\
  (forall r, In r (items shop) -> id r <> 77) /\
  fst (delete_item 77 shop) = (Error "Item not found", 404) /\
  fst (delete_item 77 (snd (delete_item 77 shop))) = (Error "Item not found", 404) /\
  items (snd (delete_item 77 (snd (delete_item 77 shop)))) = items shop.
Proof.
  assert (Hno : forall r, In r (items shop) -> id r <> 77).
  { intros r Hr. simpl in Hr.
    destruct Hr as [<-|[<-|[<-|[<-|[<-|[]]]]]]; discriminate. }
  split; [reflexivity|]. split; [exact Hno|].
  destruct (proj2 (proj2 (proj1 (delete_item_status 77 shop) eq_refl)) Hno)
    as (H1 & _ & _ & H2 & H3).
  repeat split; assumption.
Defined.

(** Deleting a stored row removes it. *)
Example delete_stored_row :
  fst (delete_item 2 shop) = (Message "Item deleted successfully", 200) /\
  map id (items (snd (delete_item 2 shop))) = [1; 3; 4; 5].
Proof. split; vm_compute; reflexivity. Qed.

Lemma get_items_per_page_zero_witness :
  args_get_int (Some "0") 10 = 0 /\
  search_fits (mkArgs None (Some "0") None None None None) /\
  get_items plain_numeric_text
    (mkArgs None (Some "0") None None None None) shop
  = ((Error "Internal server error", 500), issued shop [SelectCount; SelectPage]).
Proof.
  assert (Hfit : search_fits (mkArgs None (Some "0") None None None None))
    by (intros s E; discriminate E).
  split; [reflexivity|]. split; [exact Hfit|].
  destruct (get_items_per_page_zero plain_numeric_text
              (mkArgs None (Some "0") None None None None) shop eq_refl)
    as (_ & _ & _ & _ & Hzero & _).
  exact (proj2 (Hzero (or_introl Hfit))).
Defined.

(** LIKE reads its operands up to the first NUL character, and refuses a
    pattern of more than 50000 bytes as soon as there is a row to match it
    against. *)
Example like_c_strings :
  sql_like plain_numeric_text (SText "abc") (String (ascii_of_nat 0) "zzz")
  = false /\
  sql_like plain_numeric_text (SText "abc")
    ("%" ++ String (ascii_of_nat 0) "zzz%") = true /\
  sql_like plain_numeric_text (SText ("abc" ++ String (ascii_of_nat 0) "def"))
    "%def%" = false /\
  sql_like plain_numeric_text (SText ("abc" ++ String (ascii_of_nat 0) "def"))
    "%abc" = true.
Proof. repeat split. Qed.

Example like_pattern_too_long :
  let long := mkArgs None None None (Some (nines 49999)) None None in
  let fits := mkArgs None None None (Some (nines 49998)) None None in
  let other := mkArgs None None (Some "Toys") (Some (nines 49999)) None None in
  get_items plain_numeric_text long shop
  = ((Error "Internal server error", 500), issued shop [SelectCount]) /\
  snd (fst (get_items plain_numeric_text fits shop)) = 200 /\
  snd (fst (get_items plain_numeric_text other shop)) = 200 /\
  snd (fst (get_items plain_numeric_text long empty_db)) = 200.
Proof. repeat split; vm_compute; reflexivity. Qed.

(** ** The further properties on the concrete stores *)

Lemma shop_store_inv : store_inv shop.
Proof.
  split; simpl; repeat (constructor; try lia).
Qed.

Lemma shop_rows_typed : Forall row_typed (items shop).
Proof.
  simpl. repeat (constructor; try (repeat split; reflexivity)).
Qed.

Lemma create_item_outcomes_witness :
  db_ok shop /\
  exists item,
    fst (create_item no_text_numeric plain_numeric_text
           (JObj [("name", JStr "Desk")]) "2024-06-01 12:00:00" shop)
    = (MessageItem "Item created successfully" item, 201) /\
    items (snd (create_item no_text_numeric plain_numeric_text
                  (JObj [("name", JStr "Desk")]) "2024-06-01 12:00:00" shop))
    = (items shop ++ [item])%list /\
    id item = next_id shop /\
    forall r, In r (items shop) -> id r < id item.
Proof.
  assert (Hok : db_ok shop) by (vm_compute; reflexivity).
  split; [exact Hok|].
  destruct (create_item_outcomes no_text_numeric plain_numeric_text
              (JObj [("name", JStr "Desk")]) "2024-06-01 12:00:00" shop Hok)
    as [(H201 & item & Hb & Hi & Hid & _ & _ & Hall) | (Hn & _)].
  - exists item. split; [|split; [exact Hi|split; [exact Hid|exact Hall]]].
    rewrite <- Hb, <- H201. now destruct (fst (create_item _ _ _ _ _)).
  - exfalso. apply Hn. vm_compute. reflexivity.
Defined.

Lemma create_item_stored_row_witness :
  exists item db',
    create_item no_text_numeric plain_numeric_text
      (JObj [("name", JStr "Desk"); ("quantity", JNull)])
      "2024-06-01 12:00:00" shop
    = ((MessageItem "Item created successfully" item, 201), db') /\
    is_text (name item) = true /\
    description item = SNull /\ category item = SNull /\
    price item = SNull /\ quantity item = SNull /\
    created_at item = SText "2024-06-01 12:00:00" /\
    updated_at item = SText "2024-06-01 12:00:00".
Proof.
  eexists _, _. split; [vm_compute; reflexivity|].
  destruct (create_item_stored_row no_text_numeric plain_numeric_text
              [("name", JStr "Desk"); ("quantity", JNull)]
              "2024-06-01 12:00:00" shop _ _ _ _
              ltac:(vm_compute; reflexivity))
    as (_ & Hn & Hd & Hc & Hp & _ & Hq & _ & Hca & Hua).
  split; [exact Hn|]. split; [exact (Hd eq_refl)|].
  split; [exact (Hc eq_refl)|]. split; [exact (Hp eq_refl)|].
  split; [exact (Hq eq_refl)|]. split; [exact Hca|exact Hua].
Defined.

Lemma create_item_non_object_witness :
  (forall kv, JArr [JInt 1] <> JObj kv) /\
  snd (create_item no_text_numeric plain_numeric_text
         (JArr [JInt 1]) "2024-06-01 12:00:00" shop) = shop /\
  fst (create_item no_text_numeric plain_numeric_text
         (JArr [JInt 1]) "2024-06-01 12:00:00" shop)
  = (ErrorDetails "Validation failed" ["'name' is required"], 400).
Proof.
  assert (H : forall kv, JArr [JInt 1] <> JObj kv) by (intros kv; discriminate).
  split; [exact H|].
  destruct (create_item_non_object no_text_numeric plain_numeric_text
              (JArr [JInt 1]) "2024-06-01 12:00:00" shop H)
    as (Hdb & _ & _ & Hans).
  split; [exact Hdb|].
  apply Hans; reflexivity.
Defined.

Lemma validation_overflow_raises_witness :
  dict_get [("name", JStr "Desk"); ("quantity", JFloat (S754_infinity false))]
    "quantity" = Some (JFloat (S754_infinity false)) /\
  create_item no_text_numeric plain_numeric_text
    (JObj [("name", JStr "Desk"); ("quantity", JFloat (S754_infinity false))])
    "2024-06-01 12:00:00" shop
  = ((Error "Internal server error", 500), shop).
Proof.
  split; [reflexivity|].
  refine (proj2 (validation_overflow_raises no_text_numeric plain_numeric_text
                   [("name", JStr "Desk");
                    ("quantity", JFloat (S754_infinity false))]
                   "2024-06-01 12:00:00" shop _)).
  right. exists false. reflexivity.
Defined.

Lemma store_inv_preserved_witness :
  store_inv shop /\ NoDup (map id (items shop)) /\
  store_inv (snd (delete_item 3 shop)).
Proof.
  destruct (store_inv_preserved no_text_numeric plain_numeric_text)
    as [H0 H].
  assert (Hs : store_inv shop).
  { exact (proj1 (proj2 (proj2 (proj2 (proj2 (H empty_db H0))))
                    "2024-01-01 00:00:00")). }
  split; [exact Hs|]. split; [exact (proj1 (H shop Hs))|].
  exact (proj1 (proj1 (proj2 (proj2 (proj2 (H shop Hs)))) 3)).
Defined.

Lemma rows_typed_preserved_witness :
  Forall row_typed (items shop) /\
  Forall row_typed
    (items (snd (update_item no_text_numeric plain_numeric_text 2
                   (JObj [("name", JStr "Mug"); ("price", JInt 15)])
                   "2024-06-01 12:00:00" shop))).
Proof.
  destruct (rows_typed_preserved no_text_numeric plain_numeric_text)
    as [H0 H].
  assert (Hs : Forall row_typed (items shop)).
  { exact (proj2 (proj2 (proj2 (H empty_db H0))) "2024-01-01 00:00:00"). }
  split; [exact Hs|].
  exact (proj1 (proj2 (H shop Hs)) 2 _ _).
Defined.

Lemma update_item_success_witness :
  int64_ok 2 = true /\
  validate_item_data (JObj [("name", JStr "Mug"); ("price", JInt 15)]) None
  = inr [] /\
  snd (fst (update_item no_text_numeric plain_numeric_text 2
              (JObj [("name", JStr "Mug"); ("price", JInt 15)])
              "2024-06-01 12:00:00" shop)) = 200.
Proof.
  split; [reflexivity|]. split; [reflexivity|].
  refine (proj1 (update_item_success no_text_numeric plain_numeric_text 2
                   [("name", JStr "Mug"); ("price", JInt 15)]
                   "2024-06-01 12:00:00" shop) eq_refl _ eq_refl _ _).
  - eexists. split; [right; left; reflexivity|reflexivity].
  - intros f v Hf. simpl in Hf.
    destruct Hf as [<-|[<-|[<-|[<-|[<-|[]]]]]]; intros Hv;
      try discriminate Hv; injection Hv as <-; eexists; reflexivity.
  - intros v Hv. injection Hv as <-. discriminate.
Defined.

Lemma deleted_id_not_reused_witness :
  store_inv shop /\
  exists item db2,
    create_item no_text_numeric plain_numeric_text
      (JObj [("name", JStr "Desk")]) "2024-06-01 12:00:00"
      (snd (delete_item 5 shop))
    = ((MessageItem "Item created successfully" item, 201), db2) /\
    seq shop < id item /\
    forall r, In r (items shop) -> id r < id item.
Proof.
  split; [exact shop_store_inv|].
  eexists _, _. split; [vm_compute; reflexivity|].
  destruct (deleted_id_not_reused no_text_numeric plain_numeric_text 5
              (JObj [("name", JStr "Desk")]) "2024-06-01 12:00:00" shop
              _ _ _ _ shop_store_inv ltac:(vm_compute; reflexivity))
    as (H1 & H2 & _).
  split; [exact H1|exact H2].
Defined.

Lemma get_items_page_edges_witness :
  exists its pg fl db',
    get_items plain_numeric_text
      (mkArgs (Some "4") (Some "10") None None None None) warehouse
    = ((ItemsPage its pg fl, 200), db') /\
    1 <= per_page pg /\
    total_pages pg < page pg /\
    its = [] /\ has_next pg = false.
Proof.
  eexists _, _, _, _. split; [vm_compute; reflexivity|].
  split; [vm_compute; discriminate|].
  split; [vm_compute; reflexivity|].
  refine (proj1 (proj2 (get_items_page_edges plain_numeric_text
                          (mkArgs (Some "4") (Some "10") None None None None)
                          warehouse _ _ _ _ _ _ _)) _).
  - vm_compute. reflexivity.
  - vm_compute. discriminate.
  - vm_compute. reflexivity.
Defined.

Lemma pages_partition_witness :
  List.concat
    (map (fun p =>
            page_rows
              (fst (get_items plain_numeric_text
                      (mkArgs (Some (if p =? 1 then "1"
                                     else if p =? 2 then "2" else "3"))
                              (Some "10") None None None None)
                      warehouse)))
         (pages_upto 3))
  = selected plain_numeric_text
      (mkArgs (Some "1") (Some "10") None None None None) warehouse.
Proof.
  refine (pages_partition plain_numeric_text
            (fun p => mkArgs (Some (if p =? 1 then "1"
                                    else if p =? 2 then "2" else "3"))
                             (Some "10") None None None None)
            warehouse 10 3 _ _ _ _).
  - lia.
  - vm_compute. reflexivity.
  - vm_compute. reflexivity.
  - intros p Hp. vm_compute in Hp.
    destruct Hp as [<-|[<-|[<-|[]]]]; repeat split; vm_compute; reflexivity.
Defined.

(** A price of -0.0 comes back from the REAL column as 0.0, on create and
    on update. *)
Example negative_zero_price :
  match fst (update_item no_text_numeric plain_numeric_text 2
               (JObj [("name", JStr "Mug"); ("price", JFloat (S754_zero true))])
               "2024-06-01 12:00:00" shop)
  with
  | (MessageItem _ item, 200) => price item = SReal (S754_zero false)
  | _ => False
  end /\
  match fst (create_item no_text_numeric plain_numeric_text
               (JObj [("name", JStr "Mug"); ("price", JFloat (S754_zero true))])
               "2024-06-01 12:00:00" shop)
  with
  | (MessageItem _ item, 201) => price item = SReal (S754_zero false)
  | _ => False
  end.
Proof. split; vm_compute; reflexivity. Qed.

(** When the last 64-bit id has been given, a create request is refused
    by the INSERT: 500, and no row is stored. *)
Example create_on_full_counter :
  let full := written shop (items shop) (2 ^ 63 - 1) in
  fst (create_item no_text_numeric plain_numeric_text
         (JObj [("name", JStr "Desk")]) "2024-06-01 12:00:00" full)
  = (Error "Internal server error", 500) /\
  items (snd (create_item no_text_numeric plain_numeric_text
                (JObj [("name", JStr "Desk")]) "2024-06-01 12:00:00" full))
  = items shop.
Proof. split; vm_compute; reflexivity. Qed.

(** [init_db] on the seeded store: nothing is inserted, and leaving the
    application context raises. *)
Example init_db_on_seeded_store :
  fst (init_db no_text_numeric plain_numeric_text "2024-06-01 12:00:00" shop)
  = inl TypeError /\
  items (snd (init_db no_text_numeric plain_numeric_text
                "2024-06-01 12:00:00" shop)) = items shop /\
  close_db [None] shop = (inl TypeError, shop) /\
  close_db [] shop = (inl TypeError, shop).
Proof. repeat split. Qed.
